(** * Mark 3.1 trading bot: a shallow embedding of the lifecycle engine

    The Python sources under [core/] and [scripts/] are embedded as Rocq
    functions.  Conventions used throughout:

    - a Python [float] (and an SQLite [REAL]) is an exact rational [Q];
      rounding error is not modelled;
    - a [datetime] is a number of microseconds since the epoch, in UTC,
      and a [timedelta] is a number of microseconds; one method call
      reads the clock once;
    - an SQLite table is the list of its rows in rowid order; [fetchone]
      is the first matching row; [UPDATE .. WHERE] maps over the rows;
      stored datetimes are compared as the instants they denote;
    - a component that is external to the repository (broker, market
      data, clock formatting) is an argument of the operation using it. *)

From Stdlib Require Import ZArith QArith Qround Qminmax Qabs Qpower.
From Stdlib Require Import String List Bool Lia Lqa DecimalString.
From Stdlib Require Import Sorted Permutation.
Import ListNotations.

Local Open Scope string_scope.
Local Open Scope list_scope.
Local Open Scope Q_scope.

(** ** Python arithmetic on floats, over [Q] *)

Definition Qltb (a b : Q) : bool := negb (Qle_bool b a).
Definition Qgtb (a b : Q) : bool := Qltb b a.
Definition Qgeb (a b : Q) : bool := Qle_bool b a.

(** [bool(x)] for a float: zero is falsy. *)
Definition truthy (x : Q) : bool := negb (Qeq_bool x 0).

(** [bool(x)] for an optional float: [None] and zero are falsy. *)
Definition truthy_opt (x : option Q) : bool :=
  match x with
  | None => false
  | Some v => truthy v
  end.

(** [min(a, b)] returns its first argument unless the second is smaller. *)
Definition py_min (a b : Q) : Q := if Qltb b a then b else a.

(** [abs(x)] *)
Definition py_abs (x : Q) : Q := if Qltb x 0 then - x else x.

(** ** Python floats with their rounding: binary64

    Where the code computes with floats and a claim depends on the
    rounding (the position sizer, the bounce threshold), the arithmetic
    is that of the type: every operation gives the value of the type
    nearest to the exact result, the even one of two that are as near,
    and an infinity where the exact result is beyond the range. *)

Module Float.

(** A value of the type: a finite number, as the rational it is, one
    of the two infinities, or NaN.  The sign of a zero is not kept. *)
Inductive float := finite (q : Q) | infinity (negative : bool) | nan.

(** [2 ^ e] *)
Definition pow2 (e : Z) : Q := 2 ^ e.

(** [floor (log2 x)] for a positive [x] *)
Definition ilog2 (x : Q) : Z :=
  let e := (Z.log2 (Qnum x) - Z.log2 (Zpos (Qden x)))%Z in
  if Qle_bool (pow2 e) x then e else (e - 1)%Z.

(** The integer nearest to [x]; of two that are as near, the even one. *)
Definition rint (x : Q) : Z :=
  let f := Qfloor x in
  match Qcompare (x - inject_Z f) (1 # 2) with
  | Lt => f
  | Gt => (f + 1)%Z
  | Eq => if Z.even f then f else (f + 1)%Z
  end.

(** The exponent of the last place of the floats about [x]: 53 bits
    above [2 ^ -1022], multiples of [2 ^ -1074] below. *)
Definition last_place (x : Q) : Z :=
  Z.max (ilog2 (Qabs x) - 52) (-1074).

(** Rounding to the nearest value of the type, ties to even, an
    infinity from [2 ^ 1024] on. *)
Definition round (x : Q) : float :=
  if Qeq_bool x 0 then finite 0
  else
    let e := last_place x in
    let r := Qred (inject_Z (rint (x / pow2 e)) * pow2 e) in
    if Qle_bool (pow2 1024) (Qabs r) then infinity (Qltb x 0)
    else finite r.

(** A literal of the source text *)
Definition lit (x : Q) : float := round x.

Definition is_zero (a : float) : bool :=
  match a with
  | finite x => Qeq_bool x 0
  | _ => false
  end.

Definition negative (a : float) : bool :=
  match a with
  | finite x => Qltb x 0
  | infinity s => s
  | nan => false
  end.

(** [a * b] *)
Definition mul (a b : float) : float :=
  match a, b with
  | finite x, finite y => round (x * y)
  | nan, _ | _, nan => nan
  | _, _ =>
      if is_zero a || is_zero b then nan
      else infinity (xorb (negative a) (negative b))
  end.

(** The quotient of the type, for a divisor that is not zero *)
Definition quot (a b : float) : float :=
  match a, b with
  | finite x, finite y => round (x / y)
  | nan, _ | _, nan => nan
  | infinity _, infinity _ => nan
  | infinity s, finite y => infinity (xorb s (Qltb y 0))
  | finite _, infinity _ => finite 0
  end.

(** [a / b]; [None] is [ZeroDivisionError] *)
Definition div (a b : float) : option float :=
  if is_zero b then None else Some (quot a b).

(** [a - b] *)
Definition sub (a b : float) : float :=
  match a, b with
  | finite x, finite y => round (x - y)
  | nan, _ | _, nan => nan
  | infinity s, infinity t => if Bool.eqb s t then nan else infinity s
  | infinity s, finite _ => infinity s
  | finite _, infinity t => infinity (negb t)
  end.

(** [abs(a)] *)
Definition abs (a : float) : float :=
  match a with
  | finite x => finite (if Qltb x 0 then - x else x)
  | infinity _ => infinity false
  | nan => nan
  end.

(** [a < b]; a comparison with NaN is false *)
Definition ltb (a b : float) : bool :=
  match a, b with
  | finite x, finite y => Qltb x y
  | nan, _ | _, nan => false
  | infinity s, infinity t => s && negb t
  | infinity s, finite _ => s
  | finite _, infinity t => negb t
  end.

Definition gtb (a b : float) : bool := ltb b a.

(** [a <= b] *)
Definition leb (a b : float) : bool :=
  match a, b with
  | finite x, finite y => Qle_bool x y
  | nan, _ | _, nan => false
  | infinity s, infinity t => s || negb t
  | infinity s, finite _ => s
  | finite _, infinity t => negb t
  end.

Definition geb (a b : float) : bool := leb b a.

(** [min(a, b)]: the first argument, unless the second is smaller *)
Definition min (a b : float) : float := if ltb b a then b else a.

(** [math.floor(a)]; [None] is the [OverflowError] of an infinity or
    the [ValueError] of NaN *)
Definition floor (a : float) : option Z :=
  match a with
  | finite x => Some (Qfloor x)
  | _ => None
  end.

(** The float of an [int]; [None] is [OverflowError] *)
Definition of_int (z : Z) : option float :=
  match round (inject_Z z) with
  | finite x => Some (finite x)
  | _ => None
  end.

(** The value is not below zero (which NaN is not either). *)
Definition not_negative (a : float) : Prop :=
  match a with
  | finite x => 0 <= x
  | infinity s => s = false
  | nan => True
  end.

(** [a <= b] as numbers, for two values that are not NaN *)
Definition le (a b : float) : Prop := leb a b = true.

End Float.

(** ** Clock values: [datetime], [timedelta], [strftime] *)

Module Time.

Definition datetime := Z.
Definition timedelta := Z.

Definition second : timedelta := 1000000%Z.
Definition minutes (m : Z) : timedelta := (m * 60 * second)%Z.
Definition hours (h : Z) : timedelta := (h * 3600 * second)%Z.
Definition days (d : Z) : timedelta := (d * 86400 * second)%Z.

(** [timedelta.total_seconds()] *)
Definition total_seconds (d : timedelta) : Q := inject_Z d / inject_Z second.

(** [now.replace(hour=0, minute=0, second=0, microsecond=0)] *)
Definition utc_midnight (now : datetime) : datetime :=
  (now - now mod days 1)%Z.

(** [datetime('now')] of SQLite: the clock reading without its
    fraction of a second, as the text [YYYY-MM-DD HH:MM:SS]. *)
Definition whole_second (now : datetime) : datetime :=
  (now - now mod second)%Z.

(** [column > datetime('now')]: the column holds the text the sqlite3
    adapter writes for a naive [datetime], [YYYY-MM-DD HH:MM:SS] and,
    when the microseconds are not zero, [.ffffff] after it.  The two
    texts are compared byte by byte, a text being smaller than every
    text it is a proper prefix of: the stored instant is later than the
    start of the current second. *)
Definition after_sql_now (stored now : datetime) : bool :=
  (whole_second now <? stored)%Z.

(** [column >= ?] for a parameter that is a midnight with a UTC offset,
    bound as the text [YYYY-MM-DD 00:00:00+00:00], and a column written
    from a naive [datetime]: the text of midnight itself is a proper
    prefix of the parameter, and a fraction starts with a dot, which is
    above the plus sign: the stored instant is later than midnight. *)
Definition at_or_after_aware_midnight (stored midnight : datetime)
    : bool :=
  (midnight <? stored)%Z.

(** Proleptic Gregorian date of a day number (days since 1970-01-01). *)
Definition civil_from_days (d : Z) : Z * Z * Z :=
  let z := (d + 719468)%Z in
  let era := (z / 146097)%Z in
  let doe := (z - era * 146097)%Z in
  let yoe := ((doe - doe / 1460 + doe / 36524 - doe / 146096) / 365)%Z in
  let y := (yoe + era * 400)%Z in
  let doy := (doe - (365 * yoe + yoe / 4 - yoe / 100))%Z in
  let mp := ((5 * doy + 2) / 153)%Z in
  let dd := (doy - (153 * mp + 2) / 5 + 1)%Z in
  let m := (if mp <? 10 then mp + 3 else mp - 9)%Z in
  ((if m <=? 2 then y + 1 else y)%Z, m, dd).

Definition digit (d : Z) : Ascii.ascii :=
  Ascii.ascii_of_nat (48 + Z.to_nat (d mod 10)).

(** [n] written with [w] decimal digits, zero padded. *)
Fixpoint pad (w : nat) (n : Z) (acc : string) : string :=
  match w with
  | O => acc
  | S w' => pad w' (n / 10) (String (digit n) acc)
  end.

(** [strftime("%Y%m%d%H")], for the years 1000 to 9999 *)
Definition strftime_YmdH (t : datetime) : string :=
  let h := (t / hours 1)%Z in
  let '(y, m, d) := civil_from_days (h / 24) in
  pad 4 y (pad 2 m (pad 2 d (pad 2 (h mod 24) EmptyString))).

(** [strftime("%Y%m%d%H%M%S")] *)
Definition strftime_YmdHMS (t : datetime) : string :=
  let s := (t / second)%Z in
  let '(y, m, d) := civil_from_days (s / 86400) in
  pad 4 y (pad 2 m (pad 2 d
    (pad 2 (s / 3600 mod 24) (pad 2 (s / 60 mod 60)
       (pad 2 (s mod 60) EmptyString))))).

(** The text the sqlite3 adapter binds for a naive [datetime],
    [isoformat(" ")]: zero microseconds are left out. *)
Definition adapter_text (t : datetime) : string :=
  let s := (t / second)%Z in
  let us := (t mod second)%Z in
  let '(y, m, d) := civil_from_days (s / 86400) in
  pad 4 y
    ("-" ++ pad 2 m
       ("-" ++ pad 2 d
          (" " ++ pad 2 (s / 3600 mod 24)
             (":" ++ pad 2 (s / 60 mod 60)
                (":" ++ pad 2 (s mod 60)
                   (if (us =? 0)%Z then ""
                    else "." ++ pad 6 us "")))))).

(** The text of [datetime('now')], and the text bound for a [datetime]
    that carries the UTC offset. *)
Definition sql_now_text (now : datetime) : string :=
  adapter_text (whole_second now).

Definition aware_text (t : datetime) : string :=
  adapter_text t ++ "+00:00".

End Time.

(** ** core/risk/sizer.py *)

Module Sizer.
Import Float.

Record PositionSizer := {
  total_capital : Q;
  max_per_trade : Q;
  risk_per_trade_pct : Q
}.

(** [PositionSizer()] with the constructor's default arguments *)
Definition default : PositionSizer :=
  {| total_capital := 10000; max_per_trade := 2000;
     risk_per_trade_pct := 1 # 100 |}.

(** The dictionary returned by [calculate_shares] (without the
    formatted [reason] text). *)
Record Sizing := {
  shares : Z;
  notional_value : float;
  base_allocation : float;
  confidence_multiplier : float;
  volatility_multiplier : float;
  final_allocation : float
}.

(** The volatility adjustment; [atr / price] is computed where
    [price > 0] has been tested. *)
Definition volatility (price : Q) (atr : option Q) : float :=
  if truthy_opt atr && Qgtb price 0 then
    match atr with
    | Some a =>
        let atr_pct := quot (finite a) (finite price) in
        if gtb atr_pct (lit (5 # 100)) then lit (5 # 10)
        else if ltb atr_pct (lit (1 # 100)) then lit (12 # 10)
        else lit 1
    | None => lit 1
    end
  else lit 1.

(** [calculate_shares]; [None] is the [OverflowError] that
    [math.floor] raises for an infinite quotient.  The [int] that
    [math.floor] returns is the floor of a float, hence itself a value
    of the type: [shares * price] converts it without rounding. *)
Definition calculate_shares (self : PositionSizer)
    (price confidence_score : Q) (atr : option Q)
    (available_capital : option Q) : option Sizing :=
  let available_capital :=
    match available_capital with
    | None => total_capital self
    | Some c => c
    end in
  let base_allocation :=
    min (finite (max_per_trade self))
        (mul (finite available_capital) (lit (2 # 10))) in
  let confidence_multiplier := quot (finite confidence_score) (lit 100) in
  let confidence_allocation := mul base_allocation confidence_multiplier in
  let volatility_multiplier := volatility price atr in
  let final_allocation := mul confidence_allocation volatility_multiplier in
  let final_allocation := min final_allocation (finite (max_per_trade self)) in
  if Qgtb price 0 then
    match floor (quot final_allocation (finite price)) with
    | Some shares =>
        Some {| shares := shares;
                notional_value :=
                  mul (finite (inject_Z shares)) (finite price);
                base_allocation := base_allocation;
                confidence_multiplier := confidence_multiplier;
                volatility_multiplier := volatility_multiplier;
                final_allocation := final_allocation |}
    | None => None
    end
  else
    Some {| shares := 0;
            notional_value := finite 0;
            base_allocation := base_allocation;
            confidence_multiplier := confidence_multiplier;
            volatility_multiplier := volatility_multiplier;
            final_allocation := final_allocation |}.

(** [calculate_risk_amount]; [None] is the [OverflowError] of an
    [int] too large for a float. *)
Definition calculate_risk_amount (entry_price stop_loss : Q)
    (shares : Z) : option float :=
  if (shares <=? 0)%Z then Some (finite 0)
  else
    match of_int shares with
    | Some n =>
        Some (mul (abs (sub (finite entry_price) (finite stop_loss))) n)
    | None => None
    end.

(** [validate_risk]; [None] is an exception: the [OverflowError] of
    [calculate_risk_amount], or the [ZeroDivisionError] of the
    division by a zero [total_capital]. *)
Definition validate_risk (self : PositionSizer)
    (entry_price stop_loss : Q) (shares : Z) (total_capital : Q)
    : option bool :=
  match calculate_risk_amount entry_price stop_loss shares with
  | None => None
  | Some risk_amount =>
      match div risk_amount (finite total_capital) with
      | None => None
      | Some risk_pct =>
          if gtb risk_pct
               (mul (finite (risk_per_trade_pct self)) (finite 2))
          then Some false
          else if gtb risk_amount
                    (mul (finite total_capital) (lit (5 # 100)))
          then Some false
          else Some true
      end
  end.

(** *** The sizing rule as the specification words it, every
    operation being one of the type *)




End Sizer.

(** ** The [signals] table (scripts/init_db.py) *)

Module Signals.

(** The values the code writes into the [status] column.  [COOLDOWN]
    marks the placeholder rows of [CooldownManager.set_cooldown]. *)
Inductive Status :=
  KIV | CONFIRMED | EXECUTED | EXPIRED | REJECTED | COOLDOWN.

Definition status_eqb (a b : Status) : bool :=
  match a, b with
  | KIV, KIV | CONFIRMED, CONFIRMED | EXECUTED, EXECUTED
  | EXPIRED, EXPIRED | REJECTED, REJECTED | COOLDOWN, COOLDOWN => true
  | _, _ => false
  end.

(** A row; a column that may hold NULL is an [option]. *)
Record Signal := {
  signal_id : string;
  ticker : string;
  strategy : string;
  trigger_time : Time.datetime;
  trigger_price : option Q;
  rebound_bottom : option Q;
  go_in_price : option Q;
  profit_target : option Q;
  stop_loss : option Q;
  confidence_score : option Q;
  status : Status;
  cooldown_until : option Time.datetime
}.

Definition table := list Signal.

Definition set_status (st : Status) (r : Signal) : Signal :=
  {| signal_id := signal_id r; ticker := ticker r;
     strategy := strategy r; trigger_time := trigger_time r;
     trigger_price := trigger_price r;
     rebound_bottom := rebound_bottom r; go_in_price := go_in_price r;
     profit_target := profit_target r; stop_loss := stop_loss r;
     confidence_score := confidence_score r; status := st;
     cooldown_until := cooldown_until r |}.

Definition set_cooldown_until (c : option Time.datetime) (r : Signal)
    : Signal :=
  {| signal_id := signal_id r; ticker := ticker r;
     strategy := strategy r; trigger_time := trigger_time r;
     trigger_price := trigger_price r;
     rebound_bottom := rebound_bottom r; go_in_price := go_in_price r;
     profit_target := profit_target r; stop_loss := stop_loss r;
     confidence_score := confidence_score r; status := status r;
     cooldown_until := c |}.

(** [UPDATE signals SET .. WHERE ..]: the new table and [rowcount] *)
Definition update (where_ : Signal -> bool) (set : Signal -> Signal)
    (t : table) : table :=
  map (fun r => if where_ r then set r else r) t.

Definition rowcount (where_ : Signal -> bool) (t : table) : nat :=
  List.length (filter where_ t).

(** The rows of one (ticker, strategy) pair. *)
Definition of_pair (tk st : string) (r : Signal) : bool :=
  String.eqb (ticker r) tk && String.eqb (strategy r) st.

(** An active row: status KIV or CONFIRMED. *)
Definition active (r : Signal) : bool :=
  status_eqb (status r) KIV || status_eqb (status r) CONFIRMED.

(** The transitions of the state machine of the signal engine; a row
    that keeps its status makes no transition. *)
Definition legal (a b : Status) : bool :=
  match a, b with
  | KIV, CONFIRMED | KIV, EXPIRED
  | CONFIRMED, EXECUTED | CONFIRMED, REJECTED | CONFIRMED, EXPIRED => true
  | _, _ => status_eqb a b
  end.

(** The transitions that need no order to the broker. *)
Definition engine (a b : Status) : bool :=
  match a, b with
  | KIV, CONFIRMED | KIV, EXPIRED | CONFIRMED, EXPIRED => true
  | _, _ => status_eqb a b
  end.

Definition terminal (a : Status) : bool :=
  match a with
  | EXECUTED | EXPIRED | REJECTED => true
  | _ => false
  end.

(** [t'] holds the rows of [t], each with a status that [ok] allows
    and nothing else changed, followed by new rows. *)
Definition evolves (ok : Status -> Status -> bool) (t t' : table) : Prop :=
  exists kept added,
    t' = kept ++ added /\
    Forall2 (fun r r' => r' = set_status (status r') r /\
                         ok (status r) (status r') = true) t kept.

(** The number of KIV rows of a pair. *)
Definition count_kiv (tk st : string) (t : table) : nat :=
  List.length
    (filter (fun r => of_pair tk st r && status_eqb (status r) KIV) t).

(** The rows of a pair that are KIV or CONFIRMED. *)
Definition active_of (tk st : string) (r : Signal) : bool :=
  of_pair tk st r && active r.

(** One row per id, and at most one active row per pair: what the
    duplicate test of [add_to_kiv] is there to keep. *)
Definition well_keyed (t : table) : Prop :=
  NoDup (map signal_id t) /\
  forall tk st, (List.length (filter (active_of tk st) t) <= 1)%nat.

End Signals.

(** ** core/signal/cooldown.py *)

Module Cooldown.
Import Signals.

Record CooldownManager := { default_cooldown : Time.timedelta }.

(** [CooldownManager()] : a default of 60 minutes *)
Definition default : CooldownManager :=
  {| default_cooldown := Time.minutes 60 |}.

(** [if minutes:] is false for [None] and for zero. *)
Definition duration (self : CooldownManager) (reason : string)
    (minutes : option Z) : Time.timedelta :=
  let by_reason :=
    if String.eqb reason "STOP_LOSS" then default_cooldown self
    else if String.eqb reason "TAKE_PROFIT" then Time.minutes 30
    else if String.eqb reason "REJECTED" then Time.minutes 15
    else default_cooldown self in
  match minutes with
  | Some m => if (m =? 0)%Z then by_reason else Time.minutes m
  | None => by_reason
  end.

(** [set_cooldown]; [stamp] is the text of [utcnow().timestamp()] that
    ends the id of a placeholder row. *)
Definition set_cooldown (self : CooldownManager) (stamp : string)
    (now : Time.datetime) (tk st reason : string) (minutes : option Z)
    (t : table) : table :=
  let until := (now + duration self reason minutes)%Z in
  let sid := (tk ++ "_" ++ st ++ "_" ++ Time.strftime_YmdH now)%string in
  let hit r := String.eqb (signal_id r) sid || of_pair tk st r in
  let t' := update hit (set_cooldown_until (Some until)) t in
  if Nat.eqb (rowcount hit t) 0 then
    t' ++ [ {| signal_id := ("cooldown_" ++ tk ++ "_" ++ st ++ "_"
                              ++ stamp)%string;
               ticker := tk; strategy := st; trigger_time := now;
               trigger_price := None; rebound_bottom := None;
               go_in_price := None; profit_target := None;
               stop_loss := None; confidence_score := None;
               status := COOLDOWN; cooldown_until := Some until |} ]
  else t'.

Definition cooling (now : Time.datetime) (tk st : string) (r : Signal)
    : bool :=
  of_pair tk st r &&
  match cooldown_until r with
  | Some u => Time.after_sql_now u now
  | None => false
  end.

(** The latest of the expiries of a list of rows
    ([ORDER BY cooldown_until DESC LIMIT 1]). *)
Fixpoint latest (rows : list Signal) : option Time.datetime :=
  match rows with
  | [] => None
  | r :: rest =>
      match cooldown_until r, latest rest with
      | Some u, Some v => Some (Z.max u v)
      | Some u, None => Some u
      | None, v => v
      end
  end.

(** [is_on_cooldown]: [(True, cooldown_until)] is [Some cooldown_until]
    and [(False, None)] is [None]. *)
Definition is_on_cooldown (now : Time.datetime) (tk st : string)
    (t : table) : option Time.datetime :=
  latest (filter (cooling now tk st) t).

(** [clear_cooldown]: the new table and [affected > 0] *)
Definition clear_cooldown (tk st : string) (t : table) : table * bool :=
  (update (of_pair tk st) (set_cooldown_until None) t,
   Nat.ltb 0 (rowcount (of_pair tk st) t)).

End Cooldown.

(** ** core/signal/processor.py *)

Module Processor.
Import Signals.

Record SignalProcessor := {
  kiv_timeout_hours : Z;
  confirmed_timeout_hours : Z
}.

(** [SignalProcessor()] : timeouts of 4 and 2 hours *)
Definition default : SignalProcessor :=
  {| kiv_timeout_hours := 4; confirmed_timeout_hours := 2 |}.

Definition _generate_signal_id (now : Time.datetime) (tk st : string)
    : string :=
  (tk ++ "_" ++ st ++ "_" ++ Time.strftime_YmdH now)%string.

(** The three dictionaries [add_to_kiv] returns. *)
Inductive AddResult :=
| Rejected (cooldown_until : Time.datetime)
| Exists_ (signal_status : Status)
| Added (signal_id : string) (confidence : Q).

Definition add_status (r : AddResult) : string :=
  match r with
  | Rejected _ => "REJECTED"
  | Exists_ _ => "EXISTS"
  | Added _ _ => "ADDED"
  end.

(** The row [add_to_kiv] inserts *)
Definition kiv_row (sid : string) (now : Time.datetime) (tk st : string)
    (trigger_price rebound_bottom go_in_price profit_target stop_loss
       confidence : Q) : Signal :=
  {| signal_id := sid; ticker := tk; strategy := st;
     trigger_time := now;
     trigger_price := Some trigger_price;
     rebound_bottom := Some rebound_bottom;
     go_in_price := Some go_in_price;
     profit_target := Some profit_target;
     stop_loss := Some stop_loss;
     confidence_score := Some confidence;
     status := KIV; cooldown_until := None |}.

(** The duplicate test of [add_to_kiv]: the id is taken, or the pair
    has a row that is KIV or CONFIRMED. *)
Definition duplicate (sid tk st : string) (r : Signal) : bool :=
  String.eqb (signal_id r) sid || (of_pair tk st r && active r).

(** [add_to_kiv]; [confidence] is the score of
    [ConfidenceScorer.calculate] for the signal and market data. *)
Definition add_to_kiv (now : Time.datetime) (tk st : string)
    (trigger_price rebound_bottom go_in_price profit_target stop_loss
       confidence : Q)
    (t : table) : table * AddResult :=
  match Cooldown.is_on_cooldown now tk st t with
  | Some until => (t, Rejected until)
  | None =>
      let sid := _generate_signal_id now tk st in
      match find (duplicate sid tk st) t with
      | Some existing => (t, Exists_ (status existing))
      | None =>
          (t ++ [ kiv_row sid now tk st trigger_price rebound_bottom
                    go_in_price profit_target stop_loss confidence ],
           Added sid confidence)
      end
  end.

(** The newest of a list of rows ([ORDER BY trigger_time DESC LIMIT 1]);
    the earlier row wins a tie. *)
Fixpoint newest (rows : list Signal) : option Signal :=
  match rows with
  | [] => None
  | r :: rest =>
      match newest rest with
      | Some r' =>
          if (trigger_time r <? trigger_time r')%Z then Some r'
          else Some r
      | None => Some r
      end
  end.

Inductive Confirmation :=
| NotConfirmed (reason : string)
| Confirmed (signal_id : string)
    (go_in_price profit_target stop_loss confidence : option Q).

Definition age_hours (now trigger : Time.datetime) : Q :=
  Time.total_seconds (now - trigger)%Z / 3600.

Definition has_id (sid : string) (r : Signal) : bool :=
  String.eqb (signal_id r) sid.

(** [rebound_bottom and rebound_bottom > 0] and
    [current_price >= rebound_bottom * 1.01], the product being the
    rounded one of the floats *)
Definition bounced (rebound_bottom : option Q) (current_price : Q)
    : bool :=
  match rebound_bottom with
  | Some rb =>
      truthy rb && Qgtb rb 0
      && Float.geb (Float.finite current_price)
           (Float.mul (Float.finite rb) (Float.lit (101 # 100)))
  | None => false
  end.

Definition check_confirmation (self : SignalProcessor)
    (now : Time.datetime) (tk st : string) (current_price : Q)
    (t : table) : table * Confirmation :=
  let kiv r := of_pair tk st r && status_eqb (status r) KIV in
  match newest (filter kiv t) with
  | None => (t, NotConfirmed "NO_KIV_SIGNAL")
  | Some row =>
      if Qgtb (age_hours now (trigger_time row))
              (inject_Z (kiv_timeout_hours self)) then
        (update (has_id (signal_id row)) (set_status EXPIRED) t,
         NotConfirmed "EXPIRED")
      else if bounced (rebound_bottom row) current_price then
        (update (has_id (signal_id row)) (set_status CONFIRMED) t,
         Confirmed (signal_id row) (go_in_price row) (profit_target row)
           (stop_loss row) (confidence_score row))
      else (t, NotConfirmed "NOT_CONFIRMED")
  end.

Definition stale_confirmed (cutoff : Time.datetime) (r : Signal) : bool :=
  status_eqb (status r) CONFIRMED && (trigger_time r <? cutoff)%Z.

Definition stale_kiv (cutoff : Time.datetime) (r : Signal) : bool :=
  status_eqb (status r) KIV && (trigger_time r <? cutoff)%Z.

Definition confident (min_confidence : Q) (r : Signal) : bool :=
  status_eqb (status r) CONFIRMED &&
  match confidence_score r with
  | Some c => Qgeb c min_confidence
  | None => false
  end.

Definition score (r : Signal) : Q :=
  match confidence_score r with Some c => c | None => 0 end.

(** [ORDER BY confidence_score DESC], as a stable insertion sort. *)
Fixpoint insert_desc (r : Signal) (l : list Signal) : list Signal :=
  match l with
  | [] => [r]
  | x :: rest =>
      if Qle_bool (score x) (score r) then r :: l
      else x :: insert_desc r rest
  end.

Definition order_by_confidence_desc (l : list Signal) : list Signal :=
  fold_right insert_desc [] l.

(** [get_confirmed_signals] runs its UPDATE and its SELECT on one
    connection and closes it without a commit: the rows are selected
    from the updated view, and the table keeps its rows. *)
Definition get_confirmed_signals (self : SignalProcessor)
    (now : Time.datetime) (min_confidence : Q) (t : table)
    : table * list Signal :=
  let cutoff :=
    (now - Time.hours (confirmed_timeout_hours self))%Z in
  let view := update (stale_confirmed cutoff) (set_status EXPIRED) t in
  (t, order_by_confidence_desc (filter (confident min_confidence) view)).

Definition mark_executed (sid ticket_id : string) (t : table)
    : table * bool :=
  (update (has_id sid) (set_status EXECUTED) t,
   Nat.ltb 0 (rowcount (has_id sid) t)).

Definition reject_signal (sid reason : string) (t : table)
    : table * bool :=
  (update (has_id sid) (set_status REJECTED) t,
   Nat.ltb 0 (rowcount (has_id sid) t)).

Definition cleanup_expired (self : SignalProcessor) (now : Time.datetime)
    (t : table) : table * (nat * nat) :=
  let kiv_cutoff := (now - Time.hours (kiv_timeout_hours self))%Z in
  let conf_cutoff :=
    (now - Time.hours (confirmed_timeout_hours self))%Z in
  let t1 := update (stale_kiv kiv_cutoff) (set_status EXPIRED) t in
  let t2 := update (stale_confirmed conf_cutoff) (set_status EXPIRED) t1 in
  (t2, (rowcount (stale_kiv kiv_cutoff) t,
        rowcount (stale_confirmed conf_cutoff) t1)).

(** [get_signal_status]: the row of an id, if any *)
Definition get_signal_status (sid : string) (t : table) : option Signal :=
  find (has_id sid) t.

(** The stored rows that are due to [get_confirmed_signals]: CONFIRMED,
    with a confidence of at least the minimum, triggered at the cutoff
    or later. *)
Definition eligible (cutoff : Time.datetime) (min_confidence : Q)
    (r : Signal) : bool :=
  confident min_confidence r && negb (trigger_time r <? cutoff)%Z.

(** [a] may stand before [b] in a list in descending confidence. *)
Definition ranks_before (a b : Signal) : Prop := score b <= score a.

End Processor.

(** ** The other tables of scripts/init_db.py *)

Module Positions.

Inductive Status := OPEN | CLOSING | CLOSED.

Definition status_eqb (a b : Status) : bool :=
  match a, b with
  | OPEN, OPEN | CLOSING, CLOSING | CLOSED, CLOSED => true
  | _, _ => false
  end.

(** A row of [positions], with the columns init_db.py creates that
    the code reads or writes.  The table has no [stop_loss] column. *)
Record Position := {
  ticket_id : string;
  ticker : string;
  strategy : string;
  entry_time : Time.datetime;
  entry_price : Q;
  quantity : Q;
  current_price : option Q;
  status : Status;
  exit_signal : option string
}.

Definition table := list Position.

Definition set_entry_price (p : Q) (r : Position) : Position :=
  {| ticket_id := ticket_id r; ticker := ticker r;
     strategy := strategy r; entry_time := entry_time r;
     entry_price := p; quantity := quantity r;
     current_price := current_price r;
     status := status r; exit_signal := exit_signal r |}.

Definition is_open (r : Position) : bool := status_eqb (status r) OPEN.
Definition is_closing (r : Position) : bool :=
  status_eqb (status r) CLOSING.

(** [status IN ('OPEN', 'CLOSING')] *)
Definition is_active (r : Position) : bool := is_open r || is_closing r.

Definition has_ticket (id : string) (r : Position) : bool :=
  String.eqb (ticket_id r) id.

(** [INSERT INTO positions]: the primary key [ticket_id] and the
    partial unique index [ux_positions_one_active] refuse a row
    ([sqlite3.IntegrityError], rendered as [None]). *)
Definition insert (r : Position) (t : table) : option table :=
  if existsb (has_ticket (ticket_id r)) t then None
  else if is_active r
          && existsb (fun x => is_active x
                               && String.eqb (ticker x) (ticker r)) t
  then None
  else Some (t ++ [r]).

(** Some OPEN or CLOSING row holds the ticker. *)
Definition holds (tk : string) (t : table) : bool :=
  existsb (fun x => is_active x && String.eqb (ticker x) tk) t.

(** [SET status = 'CLOSING', exit_signal = ?] *)
Definition mark_closing (signal : string) (r : Position) : Position :=
  {| ticket_id := ticket_id r; ticker := ticker r;
     strategy := strategy r; entry_time := entry_time r;
     entry_price := entry_price r; quantity := quantity r;
     current_price := current_price r;
     status := CLOSING; exit_signal := Some signal |}.

End Positions.

Module History.

(** A row of [trade_history] *)
Record Trade := {
  exit_time : Time.datetime;
  ticker : string;
  strategy : string;
  entry_price : Q;
  exit_price : Q;
  quantity : Q;
  pnl_percent : Q;
  win_loss : string;
  exit_reason : string;
  ticket_id : string
}.

End History.

Module Health.

(** A row of [health_state]: [(timestamp, state, reason)] *)
Record Row := {
  timestamp : Time.datetime;
  state : string;
  reason : string
}.

End Health.

Module Quality.

(** A row of [execution_quality] *)
Record Row := {
  ticket_id : string;
  ticker : string;
  timestamp : Time.datetime;
  expected_price : Q;
  actual_price : Q;
  price_slippage : Q;
  price_slippage_pct : Q;
  expected_quantity : Q;
  actual_quantity : Q;
  fill_ratio : Q;
  partial_fill : bool;
  order_type : string;
  side : string
}.

End Quality.

Module Ignore.

(** A row of [ignore_list] *)
Record Entry := {
  ticker : string;
  reason_code : string;
  scope : string;
  ttl_utc : Time.datetime;
  retry_count : Z;
  backoff_level : Z
}.

(** The dictionary [is_ignored] returns with [True] *)
Record Info := { reason : string; info_scope : string }.

Definition is_ignored (now : Time.datetime) (tk : string)
    (t : list Entry) : option Info :=
  match find (fun e => String.eqb (ticker e) tk
                       && Time.after_sql_now (ttl_utc e) now) t with
  | Some e => Some {| reason := reason_code e; info_scope := scope e |}
  | None => None
  end.

(** [self.backoff_map[level]]; a level that is no key raises
    [KeyError], rendered as [None]. *)
Definition backoff_map (level : Z) : option Time.timedelta :=
  match level with
  | 1%Z => Some (Time.hours 1)
  | 2%Z => Some (Time.hours 4)
  | 3%Z => Some (Time.days 1)
  | 4%Z => Some (Time.days 7)
  | _ => None
  end.

Definition named (tk : string) (e : Entry) : bool :=
  String.eqb (ticker e) tk.

(** The columns the UPDATE of [add] sets, among those of [Entry] *)
Definition backed_off (retry level : Z) (ttl : Time.datetime) (e : Entry)
    : Entry :=
  {| ticker := ticker e; reason_code := reason_code e; scope := scope e;
     ttl_utc := ttl; retry_count := retry; backoff_level := level |}.

(** [add]; [None] is the [KeyError] of the backoff look-up, raised
    before anything is written. *)
Definition add (now : Time.datetime) (tk reason scope_ : string)
    (t : list Entry) : option (list Entry) :=
  match find (named tk) t with
  | Some existing =>
      let new_level := Z.min (backoff_level existing + 1) 4 in
      let new_retry := (retry_count existing + 1)%Z in
      match backoff_map new_level with
      | Some d =>
          Some (map (fun e =>
                       if named tk e
                       then backed_off new_retry new_level (now + d)%Z e
                       else e) t)
      | None => None
      end
  | None =>
      match backoff_map 1 with
      | Some d =>
          Some (t ++ [ {| ticker := tk; reason_code := reason;
                          scope := scope_; ttl_utc := (now + d)%Z;
                          retry_count := 1; backoff_level := 1 |} ])
      | None => None
      end
  end.

Definition get_backoff_level (tk : string) (t : list Entry) : Z :=
  match find (named tk) t with
  | Some e => backoff_level e
  | None => 0%Z
  end.

(** [reset]: the new table and [deleted > 0] *)
Definition reset (tk : string) (t : list Entry) : list Entry * bool :=
  (filter (fun e => negb (named tk e)) t,
   Nat.ltb 0 (List.length (filter (named tk) t))).

(** The levels of a table are those of the backoff map. *)
Definition levels_ok (t : list Entry) : Prop :=
  Forall (fun e => (1 <= backoff_level e <= 4)%Z) t.

End Ignore.

(** The database file [data/trade_log.db], shared by every component. *)
Record DB := {
  signals : Signals.table;
  positions : Positions.table;
  trade_history : list History.Trade;
  health_state : list Health.Row;
  execution_quality : list Quality.Row;
  ignore_list : list Ignore.Entry
}.

Definition with_signals (t : Signals.table) (d : DB) : DB :=
  {| signals := t; positions := positions d;
     trade_history := trade_history d; health_state := health_state d;
     execution_quality := execution_quality d;
     ignore_list := ignore_list d |}.

Definition with_positions (t : Positions.table) (d : DB) : DB :=
  {| signals := signals d; positions := t;
     trade_history := trade_history d; health_state := health_state d;
     execution_quality := execution_quality d;
     ignore_list := ignore_list d |}.

Definition with_trade_history (t : list History.Trade) (d : DB) : DB :=
  {| signals := signals d; positions := positions d;
     trade_history := t; health_state := health_state d;
     execution_quality := execution_quality d;
     ignore_list := ignore_list d |}.

Definition with_health_state (t : list Health.Row) (d : DB) : DB :=
  {| signals := signals d; positions := positions d;
     trade_history := trade_history d; health_state := t;
     execution_quality := execution_quality d;
     ignore_list := ignore_list d |}.

Definition with_execution_quality (t : list Quality.Row) (d : DB) : DB :=
  {| signals := signals d; positions := positions d;
     trade_history := trade_history d; health_state := health_state d;
     execution_quality := t; ignore_list := ignore_list d |}.

(** ** core/risk/limits.py *)

Module Limits.

Record LimitsManager := {
  daily_loss_limit : Q;
  daily_profit_cap : Q
}.

(** [LimitsManager()] : a loss limit of 500 and a profit cap of 1000 *)
Definition default : LimitsManager :=
  {| daily_loss_limit := 500; daily_profit_cap := 1000 |}.

(** [COALESCE(SUM(..), 0)] *)
Definition sum (l : list Q) : Q := fold_right Qplus 0 l.

(** [SUM(current_price * quantity)] skips the rows whose
    [current_price] is NULL. *)
Definition open_current (t : Positions.table) : Q :=
  sum (flat_map
         (fun r => match Positions.current_price r with
                   | Some c => [c * Positions.quantity r]
                   | None => []
                   end)
         (filter Positions.is_active t)).

Definition open_entry (t : Positions.table) : Q :=
  sum (map (fun r => Positions.entry_price r * Positions.quantity r)
           (filter Positions.is_active t)).

(** [(realized, unrealized, total)] *)
Definition get_today_pnl (now : Time.datetime) (d : DB) : Q * Q * Q :=
  let midnight := Time.utc_midnight now in
  let today :=
    filter (fun r => Time.at_or_after_aware_midnight
                       (History.exit_time r) midnight)
           (trade_history d) in
  let entry_sum :=
    sum (map (fun r => History.entry_price r * History.quantity r)
             today) in
  let exit_sum :=
    sum (map (fun r => History.exit_price r * History.quantity r)
             today) in
  let realized := exit_sum - entry_sum in
  let unrealized :=
    open_current (positions d) - open_entry (positions d) in
  (realized, unrealized, realized + unrealized).

Definition total_pnl (now : Time.datetime) (d : DB) : Q :=
  snd (get_today_pnl now d).

Definition is_loss_limit_hit (self : LimitsManager)
    (now : Time.datetime) (d : DB) : bool :=
  Qle_bool (total_pnl now d) (- daily_loss_limit self).

Definition is_profit_cap_hit (self : LimitsManager)
    (now : Time.datetime) (d : DB) : bool :=
  Qgeb (total_pnl now d) (daily_profit_cap self).

(** [(allowed, reason)], the reason without the formatted amount *)
Definition can_trade (self : LimitsManager) (now : Time.datetime)
    (d : DB) : bool * string :=
  if is_loss_limit_hit self now d then (false, "DAILY_LOSS_LIMIT_HIT")
  else if is_profit_cap_hit self now d then
    (false, "DAILY_PROFIT_CAP_HIT")
  else (true, "OK").

(** What one row adds to the two sums of [get_today_pnl]: a closed
    trade its proceeds less its cost, an OPEN or CLOSING position its
    value at [current_price], nothing where that is NULL, less its
    cost. *)
Definition realized_of (r : History.Trade) : Q :=
  History.exit_price r * History.quantity r
  - History.entry_price r * History.quantity r.

Definition unrealized_of (r : Positions.Position) : Q :=
  match Positions.current_price r with
  | Some c => c * Positions.quantity r
  | None => 0
  end - Positions.entry_price r * Positions.quantity r.

End Limits.

(** ** core/risk/manager.py *)

Module Manager.

Record RiskManager := {
  limits : Limits.LimitsManager;
  sizer : Sizer.PositionSizer;
  total_capital : Q;
  max_per_trade : Q
}.

(** [RiskManager()] for given settings [TOTAL_CAPITAL] and
    [MAX_PER_TRADE] *)
Definition make (total_capital max_per_trade : Q) : RiskManager :=
  {| limits := Limits.default;
     sizer := {| Sizer.total_capital := total_capital;
                 Sizer.max_per_trade := max_per_trade;
                 Sizer.risk_per_trade_pct := 1 # 100 |};
     total_capital := total_capital;
     max_per_trade := max_per_trade |}.

Definition can_trade_symbol (self : RiskManager) (now : Time.datetime)
    (tk st : string) (d : DB) : bool * string :=
  let blocked :=
    match Ignore.is_ignored now tk (ignore_list d) with
    | Some info =>
        if String.eqb (Ignore.info_scope info) st
           || String.eqb (Ignore.info_scope info) "ALL"
        then Some ("IGNORED:" ++ Ignore.reason info)%string
        else None
    | None => None
    end in
  match blocked with
  | Some why => (false, why)
  | None =>
      let '(limits_ok, reason) := Limits.can_trade (limits self) now d in
      if negb limits_ok then (false, reason) else (true, "OK"%string)
  end.

Definition get_available_capital (self : RiskManager) : Q :=
  total_capital self.

(** The ticker is on the ignore list for this strategy or for ALL:
    its active entry has one of the two scopes. *)
Definition ignored_for (now : Time.datetime) (tk st : string)
    (t : list Ignore.Entry) : bool :=
  match Ignore.is_ignored now tk t with
  | Some info =>
      String.eqb (Ignore.info_scope info) st
      || String.eqb (Ignore.info_scope info) "ALL"
  | None => false
  end.

(** The two shapes of the dictionary [approve_trade] returns. *)
Inductive Approval :=
| Denied (reason : string) (sizing : option Sizer.Sizing)
| Approved (shares : Z) (notional_value : Float.float)
    (price confidence : Q) (sizing_details : Sizer.Sizing).

Definition approved (a : Approval) : bool :=
  match a with
  | Approved _ _ _ _ _ => true
  | Denied _ _ => false
  end.

(** [approve_trade]; [None] is the exception of [calculate_shares],
    which nothing here catches. *)
Definition approve_trade (self : RiskManager) (now : Time.datetime)
    (tk : string) (price confidence : Q) (atr : option Q) (st : string)
    (d : DB) : option Approval :=
  let '(can_trade, reason) := can_trade_symbol self now tk st d in
  if negb can_trade then Some (Denied reason None)
  else
    let available := get_available_capital self in
    match Sizer.calculate_shares (sizer self) price confidence atr
            (Some available) with
    | None => None
    | Some sizing =>
        if (Sizer.shares sizing =? 0)%Z then
          Some (Denied "Position size zero" (Some sizing))
        else
          Some (Approved (Sizer.shares sizing)
                  (Sizer.notional_value sizing) price confidence sizing)
    end.

End Manager.

(** ** Effects: a threaded world, and exceptions that keep its writes *)

Module Eff.

(** A call returns a value or raises; the world reached is kept in
    both cases, as a committed write survives a later exception. *)
Inductive outcome (A : Type) :=
| Return (a : A)
| Raise (exn : string).
Arguments Return {A} a.
Arguments Raise {A} exn.

Definition M (W A : Type) : Type := W -> W * outcome A.

Definition ret {W A} (a : A) : M W A := fun w => (w, Return a).

Definition raise {W A} (exn : string) : M W A := fun w => (w, Raise exn).

Definition bind {W A B} (c : M W A) (k : A -> M W B) : M W B :=
  fun w =>
    match c w with
    | (w', Return a) => k a w'
    | (w', Raise e) => (w', Raise e)
    end.

(** [try: c  except Exception as e: h e] *)
Definition try_ {W A} (c : M W A) (h : string -> M W A) : M W A :=
  fun w =>
    match c w with
    | (w', Return a) => (w', Return a)
    | (w', Raise e) => h e w'
    end.

Definition gets {W A} (f : W -> A) : M W A := fun w => (w, Return (f w)).

Definition modify {W} (f : W -> W) : M W unit :=
  fun w => (f w, Return tt).

(** [for x in xs: body x], each round returning what it collects. *)
Fixpoint for_ {W A B} (xs : list A) (body : A -> M W (list B))
    : M W (list B) :=
  match xs with
  | [] => ret []
  | x :: rest =>
      bind (body x) (fun out =>
      bind (for_ rest body) (fun outs => ret (out ++ outs)))
  end.

(** The call leaves the part [f] of the world as it was, whether it
    returns or raises. *)
Definition keeps {W A X} (f : W -> X) (c : M W A) : Prop :=
  forall w, f (fst (c w)) = f w.

(** The call keeps the property [P] of the world, whether it returns
    or raises. *)
Definition preserves {W A} (P : W -> Prop) (c : M W A) : Prop :=
  forall w, P w -> P (fst (c w)).

End Eff.

Notation "x <- c ;; k" := (Eff.bind c (fun x => k))
  (at level 61, c at next level, right associativity).
Notation "c ;;; k" := (Eff.bind c (fun _ => k))
  (at level 61, right associativity).

(** ** Python strings and dictionaries *)

Module Py.

(** [str.upper()] on ASCII letters *)
Definition upper_ascii (c : Ascii.ascii) : Ascii.ascii :=
  let n := Ascii.nat_of_ascii c in
  if Nat.leb 97 n && Nat.leb n 122 then Ascii.ascii_of_nat (n - 32)
  else c.

Fixpoint upper (s : string) : string :=
  match s with
  | EmptyString => EmptyString
  | String c rest => String (upper_ascii c) (upper rest)
  end.

(** [needle in hay] *)
Fixpoint contains (needle hay : string) : bool :=
  String.prefix needle hay ||
  match hay with
  | EmptyString => false
  | String _ rest => contains needle rest
  end.

(** [str(n)] for a count *)
Definition str_nat (n : nat) : string :=
  DecimalString.NilZero.string_of_uint (Nat.to_uint n).

(** [str(n)] for an integer *)
Definition str_int (n : Z) : string :=
  DecimalString.NilZero.string_of_int (Z.to_int n).

(** The nearest integer, ties to even *)
Definition round_half_even (y : Q) : Z :=
  let f := Qfloor y in
  let r := y - inject_Z f in
  if Qltb r (1 # 2) then f
  else if Qltb (1 # 2) r then (f + 1)%Z
  else if Z.even f then f else (f + 1)%Z.

(** [f"{x:.1f}"] *)
Definition fmt_1f (x : Q) : string :=
  let n := round_half_even (x * 10) in
  ((if (n <? 0)%Z then "-" else "")
   ++ str_nat (Z.to_nat (Z.abs n / 10)) ++ "."
   ++ str_nat (Z.to_nat (Z.abs n mod 10)))%string.

(** [sep.join(l)] *)
Fixpoint join (sep : string) (l : list string) : string :=
  match l with
  | [] => ""
  | [x] => x
  | x :: rest => (x ++ sep ++ join sep rest)%string
  end.

(** [round(x, 2)], to the nearest hundredth, ties to even *)
Definition round2 (x : Q) : Q :=
  inject_Z (round_half_even (x * 100)) / 100.

(** A [dict] with string keys, in insertion order. *)
Definition dict (V : Type) := list (string * V).

Definition has_key {V} (k : string) (kv : string * V) : bool :=
  String.eqb (fst kv) k.

Definition get {V} (k : string) (d : dict V) : option V :=
  option_map snd (find (has_key k) d).

(** [d[k] = v] *)
Fixpoint set {V} (k : string) (v : V) (d : dict V) : dict V :=
  match d with
  | [] => [(k, v)]
  | (k', v') :: rest =>
      if String.eqb k' k then (k', v) :: rest
      else (k', v') :: set k v rest
  end.

(** [del d[k]] *)
Definition del {V} (k : string) (d : dict V) : dict V :=
  filter (fun kv => negb (has_key k kv)) d.

Definition keys {V} (d : dict V) : list string := map fst d.

End Py.

(** ** The broker, the market data and the random source *)

Module Broker.

Inductive Side := BUY | SELL.

Inductive Kind :=
| Market
| Limit (limit_price : Q).

(** [MarketOrderRequest] and [LimitOrderRequest], day orders both *)
Record OrderRequest := {
  symbol : string;
  qty : Q;
  side : Side;
  kind : Kind
}.

Record Order := {
  id : string;
  filled_at : option Time.datetime;
  filled_avg_price : option Q;
  filled_qty : option Q;
  canceled_at : option Time.datetime;
  rejected_at : option Time.datetime
}.

(** A position as the broker lists it *)
Record Held := {
  held_symbol : string;
  held_qty : Q;
  avg_entry_price : Q;
  held_current_price : Q;
  unrealized_pl : Q
}.

(** What lies outside the repository, over a state [E] of its own.
    A call that raises answers [None]. *)
Class Outside (E : Type) := {
  submit_order : OrderRequest -> E -> E * option Order;
  get_order_by_id : string -> E -> E * option Order;
  get_all_positions : E -> E * option (list Held);
  uuid4_hex8 : E -> E * string
}.

End Broker.

(** ** core/execution/slippage.py and core/execution/executor.py *)

Module Executor.
Import Broker.

(** An entry of [Executor.pending_orders] *)
Record Pending := {
  p_ticket_id : string;
  p_ticker : string;
  p_strategy : option string;
  p_expected_price : Q;
  p_quantity : Q;
  p_order_type : string;
  p_reason : option string;
  p_submitted_at : Time.datetime
}.

(** The database, the outside, and the pending map of one executor. *)
Record World (E : Type) := {
  db : DB;
  outside : E;
  pending_orders : Py.dict Pending
}.
Arguments db {E} w.
Arguments outside {E} w.
Arguments pending_orders {E} w.

(** The three shapes of the dictionary an execution returns. *)
Inductive ExecResult :=
| FILLED (ticket_id order_id : string) (quantity fill_price : Q)
| PENDING (ticket_id order_id : string) (quantity limit_price : Q)
| FAILED (ticket_id error : string).

Definition result_status (r : ExecResult) : string :=
  match r with
  | FILLED _ _ _ _ => "FILLED"
  | PENDING _ _ _ _ => "PENDING"
  | FAILED _ _ => "FAILED"
  end.

(** An element of the list [filled] of [check_pending_orders] *)
Record Fill := {
  f_ticket_id : string;
  f_ticker : string;
  f_fill_price : Q;
  f_quantity : Q;
  f_order_id : string
}.

Record Checked := {
  checked : nat;
  filled : list Fill;
  still_pending : option nat
}.



(** The tables other than [execution_quality] *)
Definition ledger {E} (w : World E)
    : Signals.table * Positions.table * list History.Trade
      * list Health.Row * list Ignore.Entry :=
  (signals (db w), positions (db w), trade_history (db w),
   health_state (db w), ignore_list (db w)).

Section WithOutside.
Context {E : Type} `{Outside E}.

Definition with_db (f : DB -> DB) (w : World E) : World E :=
  {| db := f (db w); outside := outside w;
     pending_orders := pending_orders w |}.

Definition with_pending (f : Py.dict Pending -> Py.dict Pending)
    (w : World E) : World E :=
  {| db := db w; outside := outside w;
     pending_orders := f (pending_orders w) |}.

(** A call on the outside; [exn] is raised when it answers [None]. *)
Definition ask {A} (f : E -> E * option A) (exn : string)
    : Eff.M (World E) A :=
  fun w =>
    let '(e', r) := f (outside w) in
    let w' := {| db := db w; outside := e';
                 pending_orders := pending_orders w |} in
    match r with
    | Some a => (w', Eff.Return a)
    | None => (w', Eff.Raise exn)
    end.

(** [float(x)]: a [None] raises [TypeError]. *)
Definition float (x : option Q) : Eff.M (World E) Q :=
  match x with
  | Some v => Eff.ret v
  | None => Eff.raise "TypeError"
  end.

(** [SlippageTracker.record_execution], an [INSERT OR REPLACE] on
    the key [ticket_id] *)
Definition record_execution (now : Time.datetime)
    (ticket_id ticker : string) (expected_price actual_price
       expected_quantity actual_quantity : Q)
    (order_type side : string) : Eff.M (World E) unit :=
  let price_slippage := actual_price - expected_price in
  let price_slippage_pct :=
    if truthy expected_price
    then price_slippage / expected_price * 100 else 0 in
  let fill_ratio :=
    if truthy expected_quantity
    then actual_quantity / expected_quantity else 0 in
  let row :=
    {| Quality.ticket_id := ticket_id; Quality.ticker := ticker;
       Quality.timestamp := now;
       Quality.expected_price := expected_price;
       Quality.actual_price := actual_price;
       Quality.price_slippage := price_slippage;
       Quality.price_slippage_pct := price_slippage_pct;
       Quality.expected_quantity := expected_quantity;
       Quality.actual_quantity := actual_quantity;
       Quality.fill_ratio := fill_ratio;
       Quality.partial_fill := Qltb fill_ratio (99 # 100);
       Quality.order_type := order_type; Quality.side := side |} in
  Eff.modify (with_db (fun d =>
    with_execution_quality
      (filter (fun r => negb (String.eqb (Quality.ticket_id r)
                                         ticket_id))
              (execution_quality d) ++ [row]) d)).

Definition _generate_ticket_id : Eff.M (World E) string :=
  h <- ask (fun e => let '(e', x) := uuid4_hex8 e in (e', Some x))
         "uuid4" ;;
  Eff.ret ("TKT-" ++ h)%string.

Definition execute_entry (now : Time.datetime) (ticker strategy : string)
    (price quantity : Q) (order_type : string)
    : Eff.M (World E) ExecResult :=
  ticket_id <- _generate_ticket_id ;;
  Eff.try_
    (let done (order : Order) (fill_price : Q) :=
       record_execution now ticket_id ticker price fill_price
         quantity quantity order_type "BUY" ;;;
       Eff.ret (FILLED ticket_id (id order) quantity fill_price) in
     if String.eqb (Py.upper order_type) "MARKET" then
       order <- ask (submit_order
                       {| symbol := ticker; qty := quantity;
                          side := BUY; kind := Market |})
                  "submit_order" ;;
       done order
         (if truthy_opt (filled_avg_price order)
          then match filled_avg_price order with
               | Some p => p
               | None => price
               end
          else price)
     else
       order <- ask (submit_order
                       {| symbol := ticker; qty := quantity;
                          side := BUY;
                          kind := Limit (Py.round2 price) |})
                  "submit_order" ;;
       match filled_at order with
       | Some _ =>
           fill_price <- float (filled_avg_price order) ;;
           done order fill_price
       | None =>
           Eff.modify (with_pending (Py.set (id order)
             {| p_ticket_id := ticket_id; p_ticker := ticker;
                p_strategy := Some strategy;
                p_expected_price := price; p_quantity := quantity;
                p_order_type := order_type; p_reason := None;
                p_submitted_at := now |})) ;;;
           Eff.ret (PENDING ticket_id (id order) quantity price)
       end)
    (fun e => Eff.ret (FAILED ticket_id e)).

Definition execute_exit (now : Time.datetime) (ticker : string)
    (quantity : Q) (order_type : string) (limit_price : option Q)
    (reason : string) : Eff.M (World E) ExecResult :=
  ticket_id <- _generate_ticket_id ;;
  Eff.try_
    (let done (order : Order) (fill_price : Q) :=
       record_execution now ticket_id ticker
         (if truthy_opt limit_price
          then match limit_price with
               | Some l => l
               | None => fill_price
               end
          else fill_price)
         fill_price quantity quantity order_type "SELL" ;;;
       Eff.ret (FILLED ticket_id (id order) quantity fill_price) in
     if String.eqb (Py.upper order_type) "MARKET"
        || String.eqb reason "STOP_LOSS" then
       order <- ask (submit_order
                       {| symbol := ticker; qty := quantity;
                          side := SELL; kind := Market |})
                  "submit_order" ;;
       done order
         (if truthy_opt (filled_avg_price order)
          then match filled_avg_price order with
               | Some p => p
               | None => 0
               end
          else 0)
     else
       match limit_price with
       | Some l =>
           if truthy l then
             order <- ask (submit_order
                             {| symbol := ticker; qty := quantity;
                                side := SELL;
                                kind := Limit (Py.round2 l) |})
                        "submit_order" ;;
             match filled_at order with
             | Some _ =>
                 fill_price <- float (filled_avg_price order) ;;
                 done order fill_price
             | None =>
                 Eff.modify (with_pending (Py.set (id order)
                   {| p_ticket_id := ticket_id; p_ticker := ticker;
                      p_strategy := None;
                      p_expected_price := l; p_quantity := quantity;
                      p_order_type := "LIMIT_EXIT";
                      p_reason := Some reason;
                      p_submitted_at := now |})) ;;;
                 Eff.ret (PENDING ticket_id (id order) quantity l)
             end
           else Eff.raise "Limit price required for LIMIT exit"
       | None => Eff.raise "Limit price required for LIMIT exit"
       end)
    (fun e => Eff.ret (FAILED ticket_id e)).

(** One round of the loop of [check_pending_orders]: the fill it
    appends to [filled], if any. *)
Definition poll (now : Time.datetime) (item : string * Pending)
    : Eff.M (World E) (list Fill) :=
  let '(order_id, order_info) := item in
  Eff.try_
    (order <- ask (get_order_by_id order_id) "get_order_by_id" ;;
     match filled_at order with
     | Some _ =>
         fill_price <- float (filled_avg_price order) ;;
         filled_qty <- float (filled_qty order) ;;
         record_execution now (p_ticket_id order_info)
           (p_ticker order_info) (p_expected_price order_info)
           fill_price (p_quantity order_info) filled_qty
           (p_order_type order_info)
           (if negb (Py.contains "EXIT" (p_order_type order_info))
            then "BUY" else "SELL") ;;;
         Eff.modify (with_pending (Py.del order_id)) ;;;
         Eff.ret [ {| f_ticket_id := p_ticket_id order_info;
                      f_ticker := p_ticker order_info;
                      f_fill_price := fill_price;
                      f_quantity := filled_qty;
                      f_order_id := order_id |} ]
     | None =>
         match canceled_at order, rejected_at order with
         | None, None => Eff.ret []
         | _, _ =>
             Eff.modify (with_pending (Py.del order_id)) ;;;
             Eff.ret []
         end
     end)
    (fun _ => Eff.ret []).


Definition check_pending_orders (now : Time.datetime)
    : Eff.M (World E) Checked :=
  items <- Eff.gets pending_orders ;;
  match items with
  | [] => Eff.ret {| checked := 0; filled := [];
                     still_pending := None |}
  | _ =>
      filled <- Eff.for_ items (poll now) ;;
      left <- Eff.gets pending_orders ;;
      Eff.ret {| checked := List.length left + List.length filled;
                 filled := filled;
                 still_pending := Some (List.length left) |}
  end.

End WithOutside.

End Executor.

(** ** core/execution/monitor.py *)

Module Monitor.
Import Broker Executor.

Record ExitMonitor := {
  pre_close_warning_minutes : Q;
  force_close_minutes : Q
}.

(** [ExitMonitor()] : a warning at 15 minutes, forced exits at 5 *)
Definition default : ExitMonitor :=
  {| pre_close_warning_minutes := 15; force_close_minutes := 5 |}.

(** An element of the lists the three checks return *)
Record Exit := {
  x_ticket_id : string;
  x_ticker : string;
  x_exit_price : Q;
  x_reason : string;
  x_pnl_pct : option Q
}.

Section WithOutside.
Context {E : Type} `{Outside E}.

(** The table where the cooldowns are stored *)
Definition stored_signals (w : World E) : Signals.table := signals (db w).

(** The monitor's own [_get_current_price].  It calls
    [_get_cached_price] on the slippage tracker, a method that
    slippage.py does not define (nor does executor.py define the
    [_get_current_price] of the fall-back): the [AttributeError] is
    caught by the [except] clause, which returns [None]. *)
Definition _get_current_price (ticker : string)
    : Eff.M (World E) (option Q) :=
  Eff.try_ (Eff.raise "AttributeError") (fun _ => Eff.ret None).

Definition _mark_position_closed (now : Time.datetime)
    (ticket_id : string) (exit_price : Q) (exit_reason : string)
    : Eff.M (World E) bool :=
  rows <- Eff.gets (fun w => positions (db w)) ;;
  match find (Positions.has_ticket ticket_id) rows with
  | None => Eff.ret false
  | Some pos =>
      let entry_price := Positions.entry_price pos in
      let quantity := Positions.quantity pos in
      let pnl_dollar := (exit_price - entry_price) * quantity in
      if Qeq_bool entry_price 0 then Eff.raise "ZeroDivisionError"
      else
        let pnl_percent := (exit_price - entry_price) / entry_price in
        let win_loss := if Qgtb pnl_dollar 0 then "WIN" else "LOSS" in
        Eff.modify (with_db (fun d =>
          with_positions
            (filter (fun r => negb (Positions.has_ticket ticket_id r))
                    (positions d))
            (with_trade_history
               (trade_history d ++
                [ {| History.exit_time := now;
                     History.ticker := Positions.ticker pos;
                     History.strategy := Positions.strategy pos;
                     History.entry_price := entry_price;
                     History.exit_price := exit_price;
                     History.quantity := quantity;
                     History.pnl_percent := pnl_percent;
                     History.win_loss := win_loss;
                     History.exit_reason := exit_reason;
                     History.ticket_id := ticket_id |} ])
               d))) ;;;
        Eff.ret true
  end.

(** What the three loops do with the result of [execute_exit]. *)
Definition close_if_filled (now : Time.datetime)
    (pos : Positions.Position) (reason : string) (pnl : option Q)
    (exit_result : ExecResult) : Eff.M (World E) (list Exit) :=
  match exit_result with
  | FILLED _ _ _ fill_price =>
      _mark_position_closed now (Positions.ticket_id pos) fill_price
        reason ;;;
      Eff.ret [ {| x_ticket_id := Positions.ticket_id pos;
                   x_ticker := Positions.ticker pos;
                   x_exit_price := fill_price;
                   x_reason := reason; x_pnl_pct := pnl |} ]
  | _ => Eff.ret []
  end.

(** [check_stop_losses]: its SELECT names the column [stop_loss],
    which the [positions] table of init_db.py does not have;
    [cursor.execute] raises [sqlite3.OperationalError] before a row is
    read, and nothing in the method catches it.  The loop over the
    rows is never entered. *)
Definition check_stop_losses (now : Time.datetime)
    : Eff.M (World E) (list Exit) :=
  Eff.raise "OperationalError".

(** [exit_signal or 'STRATEGY'] *)
Definition exit_reason_of (pos : Positions.Position) : string :=
  match Positions.exit_signal pos with
  | Some s => if String.eqb s "" then "STRATEGY" else s
  | None => "STRATEGY"
  end.

Definition strategy_exit_round (now : Time.datetime)
    (pos : Positions.Position) : Eff.M (World E) (list Exit) :=
  exit_result <-
    execute_exit now (Positions.ticker pos) (Positions.quantity pos)
      "LIMIT" None (exit_reason_of pos) ;;
  close_if_filled now pos (exit_reason_of pos) None exit_result.

Definition check_strategy_exits (now : Time.datetime)
    : Eff.M (World E) (list Exit) :=
  rows <- Eff.gets (fun w => filter Positions.is_closing
                                    (positions (db w))) ;;
  Eff.for_ rows (strategy_exit_round now).

Definition force_close_round (now : Time.datetime)
    (pos : Positions.Position) : Eff.M (World E) (list Exit) :=
  exit_result <-
    execute_exit now (Positions.ticker pos) (Positions.quantity pos)
      "MARKET" None "FORCE_CLOSE" ;;
  close_if_filled now pos "FORCE_CLOSE" None exit_result.

(** [signal_exit]: the OPEN row of the ticket becomes CLOSING and
    bears the signal; the answer is [affected > 0]. *)
Definition signal_exit (ticket_id ticker exit_signal : string)
    : Eff.M (World E) bool :=
  let hit r := Positions.has_ticket ticket_id r && Positions.is_open r in
  rows <- Eff.gets (fun w => positions (db w)) ;;
  Eff.modify (with_db (fun d =>
    with_positions
      (map (fun r => if hit r
                     then Positions.mark_closing exit_signal r else r)
           (positions d)) d)) ;;;
  Eff.ret (Nat.ltb 0 (List.length (filter hit rows))).

(** [minutes_until_market_close(now, self.session.calendar)] as
    [check_pre_close] calls it: [now] is the naive [datetime.utcnow()]
    and the calendar of the monitor's own session is the empty
    dictionary, so no day is a holiday, a closing time with its time
    zone is found, and subtracting the naive [now] from it raises
    [TypeError]. *)
Definition minutes_until_market_close_naive : Eff.M (World E) Q :=
  Eff.raise "TypeError".

Definition check_pre_close (self : ExitMonitor) (now : Time.datetime)
    : Eff.M (World E) (list Exit) :=
  mins_to_close <- minutes_until_market_close_naive ;;
  if Qle_bool mins_to_close 0 then Eff.ret []
  else if Qle_bool mins_to_close (force_close_minutes self) then
    rows <- Eff.gets (fun w => filter Positions.is_open
                                      (positions (db w))) ;;
    Eff.for_ rows (force_close_round now)
  else Eff.ret [].

(** The books of the monitor: distinct tickets, a constant number of
    rows in [positions] and [trade_history] together, no position that
    was not there, and a trade history that only grows at its end. *)
Definition books (n : nat) (p0 : Positions.table)
    (h0 : list History.Trade) (w : World E) : Prop :=
  NoDup (map Positions.ticket_id (positions (db w))) /\
  (List.length (positions (db w)) + List.length (trade_history (db w))
   = n)%nat /\
  incl (positions (db w)) p0 /\
  exists added, trade_history (db w) = h0 ++ added.

End WithOutside.

End Monitor.

(** ** core/execution/reconciler.py *)

Module Reconciler.
Import Broker Executor.

Record Reconciler := {
  price_tolerance_pct : Q;
  quantity_tolerance : Q
}.

(** [Reconciler()] : a price tolerance of 2 percent, exact quantities *)
Definition default : Reconciler :=
  {| price_tolerance_pct := 2; quantity_tolerance := 0 |}.

Record PriceItem := {
  mp_ticker : string;
  local_price : Q;
  mp_alpaca_price : Q;
  diff_pct : Q;
  mp_local_id : string
}.

Record QuantityItem := {
  mq_ticker : string;
  local_qty : Q;
  mq_alpaca_qty : Q;
  mq_local_id : string
}.

Record MissingItem := {
  ml_ticker : string;
  alpaca_qty : Q;
  alpaca_price : Q
}.

(** The dictionary [results] of [reconcile_all] *)
Record Results := {
  matched : list string;
  mismatch_price : list PriceItem;
  mismatch_quantity : list QuantityItem;
  missing_in_alpaca : list Positions.Position;
  missing_in_local : list MissingItem
}.

Definition empty : Results :=
  {| matched := []; mismatch_price := []; mismatch_quantity := [];
     missing_in_alpaca := []; missing_in_local := [] |}.

(** What one local position adds to [results]. *)
Inductive Class :=
| Matched (ticker : string)
| MismatchPrice (item : PriceItem)
| MismatchQuantity (item : QuantityItem)
| MissingInAlpaca (local : Positions.Position).

Definition add (c : Class) (r : Results) : Results :=
  match c with
  | Matched tk =>
      {| matched := matched r ++ [tk];
         mismatch_price := mismatch_price r;
         mismatch_quantity := mismatch_quantity r;
         missing_in_alpaca := missing_in_alpaca r;
         missing_in_local := missing_in_local r |}
  | MismatchPrice it =>
      {| matched := matched r;
         mismatch_price := mismatch_price r ++ [it];
         mismatch_quantity := mismatch_quantity r;
         missing_in_alpaca := missing_in_alpaca r;
         missing_in_local := missing_in_local r |}
  | MismatchQuantity it =>
      {| matched := matched r;
         mismatch_price := mismatch_price r;
         mismatch_quantity := mismatch_quantity r ++ [it];
         missing_in_alpaca := missing_in_alpaca r;
         missing_in_local := missing_in_local r |}
  | MissingInAlpaca l =>
      {| matched := matched r;
         mismatch_price := mismatch_price r;
         mismatch_quantity := mismatch_quantity r;
         missing_in_alpaca := missing_in_alpaca r ++ [l];
         missing_in_local := missing_in_local r |}
  end.

Definition with_missing_in_local (m : list MissingItem) (r : Results)
    : Results :=
  {| matched := matched r; mismatch_price := mismatch_price r;
     mismatch_quantity := mismatch_quantity r;
     missing_in_alpaca := missing_in_alpaca r;
     missing_in_local := m |}.

(** The body of the loop over the local positions; a zero local
    [entry_price] raises [ZeroDivisionError] ([None]) when the
    prices are compared. *)
Definition classify (self : Reconciler) (alpaca_positions : Py.dict Held)
    (local : Positions.Position) : option Class :=
  match Py.get (Positions.ticker local) alpaca_positions with
  | None => Some (MissingInAlpaca local)
  | Some alpaca =>
      if Qgtb (py_abs (Positions.quantity local - held_qty alpaca))
              (quantity_tolerance self) then
        Some (MismatchQuantity
                {| mq_ticker := Positions.ticker local;
                   local_qty := Positions.quantity local;
                   mq_alpaca_qty := held_qty alpaca;
                   mq_local_id := Positions.ticket_id local |})
      else if Qeq_bool (Positions.entry_price local) 0 then None
      else
        let price_diff_pct :=
          py_abs (Positions.entry_price local - avg_entry_price alpaca)
          / Positions.entry_price local * 100 in
        if Qgtb price_diff_pct (price_tolerance_pct self) then
          Some (MismatchPrice
                  {| mp_ticker := Positions.ticker local;
                     local_price := Positions.entry_price local;
                     mp_alpaca_price := avg_entry_price alpaca;
                     diff_pct := price_diff_pct;
                     mp_local_id := Positions.ticket_id local |})
        else Some (Matched (Positions.ticker local))
  end.

Fixpoint classify_all (self : Reconciler)
    (alpaca_positions : Py.dict Held)
    (local_positions : list Positions.Position) (r : Results)
    : option Results :=
  match local_positions with
  | [] => Some r
  | local :: rest =>
      match classify self alpaca_positions local with
      | None => None
      | Some c => classify_all self alpaca_positions rest (add c r)
      end
  end.

(** The loop over the broker's positions *)
Definition find_missing_in_local (alpaca_positions : Py.dict Held)
    (local_positions : list Positions.Position) : list MissingItem :=
  flat_map
    (fun kv =>
       if existsb (fun l => String.eqb (Positions.ticker l) (fst kv))
                  local_positions
       then []
       else [ {| ml_ticker := fst kv;
                 alpaca_qty := held_qty (snd kv);
                 alpaca_price := avg_entry_price (snd kv) |} ])
    alpaca_positions.

(** The dictionary [results] for given positions of the two sides; a
    [ZeroDivisionError] is [None]. *)
Definition survey (self : Reconciler) (alpaca_positions : Py.dict Held)
    (local_positions : list Positions.Position) : option Results :=
  match classify_all self alpaca_positions local_positions empty with
  | None => None
  | Some r =>
      Some (with_missing_in_local
              (find_missing_in_local alpaca_positions local_positions) r)
  end.

(** The dictionary of the broker's positions, by symbol; a failure of
    the broker ([None]) gives the empty dictionary. *)
Definition alpaca_dict (held : option (list Held)) : Py.dict Held :=
  match held with
  | Some l => fold_left (fun d pos => Py.set (held_symbol pos) pos d) l []
  | None => []
  end.

(** The local row of a price item *)
Definition mismatched (self : Reconciler) (alpaca_positions : Py.dict Held)
    (local : Positions.Position) : bool :=
  match classify self alpaca_positions local with
  | Some (MismatchPrice _) => true
  | _ => false
  end.

Definition nonempty {A} (l : list A) : bool :=
  match l with [] => false | _ => true end.

Definition _determine_status (results : Results) : string * string :=
  if nonempty (mismatch_quantity results) then
    ("CRITICAL",
     "Quantity mismatch for "
     ++ Py.str_nat (List.length (mismatch_quantity results))
     ++ " symbols")%string
  else if nonempty (missing_in_alpaca results) then
    ("CRITICAL",
     "Positions in local but not in Alpaca: "
     ++ Py.str_nat (List.length (missing_in_alpaca results)))%string
  else if nonempty (missing_in_local results) then
    ("WARNING",
     "Positions in Alpaca but not in local: "
     ++ Py.str_nat (List.length (missing_in_local results)))%string
  else if nonempty (mismatch_price results) then
    ("DEGRADED",
     "Price mismatch for "
     ++ Py.str_nat (List.length (mismatch_price results))
     ++ " symbols (within tolerance)")%string
  else
    ("OK",
     "All positions reconciled: "
     ++ Py.str_nat (List.length (matched results))
     ++ " matches")%string.

(** The row [_auto_reconcile] inserts for a position the broker holds *)
Definition reconciled_row (now : Time.datetime) (item : MissingItem)
    : Positions.Position :=
  {| Positions.ticket_id :=
       ("RCL-" ++ ml_ticker item ++ "-"
        ++ Time.strftime_YmdHMS now)%string;
     Positions.ticker := ml_ticker item;
     Positions.strategy := "RECONCILED";
     Positions.entry_time := now;
     Positions.entry_price := alpaca_price item;
     Positions.quantity := alpaca_qty item;
     Positions.current_price := None;
     Positions.status := Positions.OPEN;
     Positions.exit_signal := None |}.

Definition fix_prices (items : list PriceItem) (t : Positions.table)
    : Positions.table :=
  fold_left
    (fun t item =>
       map (fun r => if Positions.has_ticket (mp_local_id item) r
                     then Positions.set_entry_price
                            (mp_alpaca_price item) r
                     else r) t)
    items t.

(** What the price updates make of one row *)
Definition heal_row (items : list PriceItem) (r : Positions.Position)
    : Positions.Position :=
  fold_left
    (fun r item =>
       if Positions.has_ticket (mp_local_id item) r
       then Positions.set_entry_price (mp_alpaca_price item) r
       else r)
    items r.

Fixpoint add_missing (now : Time.datetime) (items : list MissingItem)
    (t : Positions.table) : option Positions.table :=
  match items with
  | [] => Some t
  | item :: rest =>
      match Positions.insert (reconciled_row now item) t with
      | None => None
      | Some t' => add_missing now rest t'
      end
  end.

(** The row [_log_reconciliation] appends to [health_state] *)
Definition logged (now : Time.datetime) (status message : string)
    (d : DB) : DB :=
  with_health_state
    (health_state d ++
     [ {| Health.timestamp := now; Health.state := status;
          Health.reason := message |} ]) d.

(** The statuses [reconcile_all] heals *)
Definition heals (status : string) : bool :=
  String.eqb status "WARNING" || String.eqb status "DEGRADED".

(** The dictionary [reconcile_all] returns *)
Record Report := {
  status : string;
  message : string;
  results : Results
}.

Section WithOutside.
Context {E : Type} `{Outside E}.

(** The world once the broker has listed its positions *)
Definition answered (w : World E) : World E :=
  {| db := db w; outside := fst (get_all_positions (outside w));
     pending_orders := pending_orders w |}.

Definition _get_local_positions
    : Eff.M (World E) (list Positions.Position) :=
  Eff.gets (fun w => filter Positions.is_open (positions (db w))).

(** A failure of the broker gives the empty dictionary. *)
Definition _get_alpaca_positions : Eff.M (World E) (Py.dict Held) :=
  Eff.try_
    (held <- ask get_all_positions "get_all_positions" ;;
     Eff.ret (alpaca_dict (Some held)))
    (fun _ => Eff.ret (alpaca_dict None)).

(** The writes are committed together at the end: a refused insert
    raises and leaves the table as it was. *)
Definition _auto_reconcile (now : Time.datetime) (results : Results)
    : Eff.M (World E) unit :=
  t <- Eff.gets (fun w => positions (db w)) ;;
  match add_missing now (missing_in_local results)
          (fix_prices (mismatch_price results) t) with
  | None => Eff.raise "IntegrityError"
  | Some t' => Eff.modify (with_db (with_positions t'))
  end.

Definition _log_reconciliation (now : Time.datetime)
    (status message : string) : Eff.M (World E) unit :=
  Eff.modify (with_db (logged now status message)).

Definition reconcile_all (self : Reconciler) (now : Time.datetime)
    : Eff.M (World E) Report :=
  local_positions <- _get_local_positions ;;
  alpaca_positions <- _get_alpaca_positions ;;
  match survey self alpaca_positions local_positions with
  | None => Eff.raise "ZeroDivisionError"
  | Some results =>
      let '(status, message) := _determine_status results in
      (if heals status
       then _auto_reconcile now results else Eff.ret tt) ;;;
      _log_reconciliation now status message ;;;
      Eff.ret {| status := status; message := message;
                 results := results |}
  end.

Definition quick_check : Eff.M (World E) bool :=
  local <- _get_local_positions ;;
  alpaca <- _get_alpaca_positions ;;
  Eff.ret (Nat.eqb (List.length local) (List.length alpaca)).

End WithOutside.

End Reconciler.

(** ** core/market/sentinel.py *)

Module Sentinel.

Inductive CheckStatus := OK | WARNING | CRITICAL | ERROR.

Definition is_critical (c : CheckStatus) : bool :=
  match c with CRITICAL => true | _ => false end.

Definition is_warning (c : CheckStatus) : bool :=
  match c with WARNING => true | _ => false end.

Inductive State := GREEN | YELLOW | RED.

Definition state_name (s : State) : string :=
  match s with GREEN => "GREEN" | YELLOW => "YELLOW" | RED => "RED" end.

Definition is_red (s : State) : bool :=
  match s with RED => true | _ => false end.

(** The thresholds and the mutable fields of a [Sentinel] *)
Record Sentinel := {
  max_api_calls_per_min : Z;
  max_data_errors_per_day : Z;
  max_consecutive_failures : Z;
  consecutive_failures : Z;
  api_calls_this_minute : Z;
  minute_start : Time.datetime;
  kill_switch_engaged : bool;
  kill_reason : string
}.

(** [Sentinel()] created at [now] *)
Definition init (now : Time.datetime) : Sentinel :=
  {| max_api_calls_per_min := 180; max_data_errors_per_day := 10;
     max_consecutive_failures := 3; consecutive_failures := 0;
     api_calls_this_minute := 0; minute_start := now;
     kill_switch_engaged := false; kill_reason := "" |}.

Definition with_consecutive_failures (n : Z) (s : Sentinel) : Sentinel :=
  {| max_api_calls_per_min := max_api_calls_per_min s;
     max_data_errors_per_day := max_data_errors_per_day s;
     max_consecutive_failures := max_consecutive_failures s;
     consecutive_failures := n;
     api_calls_this_minute := api_calls_this_minute s;
     minute_start := minute_start s;
     kill_switch_engaged := kill_switch_engaged s;
     kill_reason := kill_reason s |}.

Definition with_minute (calls : Z) (start : Time.datetime)
    (s : Sentinel) : Sentinel :=
  {| max_api_calls_per_min := max_api_calls_per_min s;
     max_data_errors_per_day := max_data_errors_per_day s;
     max_consecutive_failures := max_consecutive_failures s;
     consecutive_failures := consecutive_failures s;
     api_calls_this_minute := calls;
     minute_start := start;
     kill_switch_engaged := kill_switch_engaged s;
     kill_reason := kill_reason s |}.

Definition with_kill_switch (on : bool) (why : string) (s : Sentinel)
    : Sentinel :=
  {| max_api_calls_per_min := max_api_calls_per_min s;
     max_data_errors_per_day := max_data_errors_per_day s;
     max_consecutive_failures := max_consecutive_failures s;
     consecutive_failures := consecutive_failures s;
     api_calls_this_minute := api_calls_this_minute s;
     minute_start := minute_start s;
     kill_switch_engaged := on;
     kill_reason := why |}.

Record ApiUsage := {
  calls : Z;
  limit : Z;
  usage_pct : Q;
  api_status : CheckStatus
}.

Record DataQuality := {
  errors_today : Z;
  dq_limit : Z;
  dq_status : CheckStatus
}.

(** The dictionary [checks] of [check_health]; of the three other
    sub-checks only the [status] is read. *)
Record Checks := {
  api_usage : ApiUsage;
  data_quality : DataQuality;
  reconciliation : CheckStatus;
  market_conditions : CheckStatus;
  kill_switch : CheckStatus;
  failures : Z
}.

(** What the collaborators answer during one [check_health]: the count
    of today's rows of [error_log], the result of
    [reconciler.quick_check()] ([None] when it raises) and the regime
    of [regime.detect_regime()]. *)
Record Observed := {
  errors_seen : Z;
  quick_check : option bool;
  regime : string
}.

(** [timedelta.seconds]: the seconds within the day *)
Definition seconds (d : Time.timedelta) : Z :=
  ((d / Time.second) mod 86400)%Z.

Definition _check_api_usage (self : Sentinel) (now : Time.datetime)
    : Sentinel * ApiUsage :=
  let self :=
    if (60 <? seconds (now - minute_start self))%Z
    then with_minute 0 now self else self in
  let usage_pct :=
    inject_Z (api_calls_this_minute self)
    / inject_Z (max_api_calls_per_min self) * 100 in
  (self,
   {| calls := api_calls_this_minute self;
      limit := max_api_calls_per_min self;
      usage_pct := usage_pct;
      api_status :=
        if Qgtb usage_pct 90 then CRITICAL
        else if Qgtb usage_pct 75 then WARNING else OK |}).

Definition _check_data_quality (self : Sentinel) (errors_today : Z)
    : DataQuality :=
  {| errors_today := errors_today;
     dq_limit := max_data_errors_per_day self;
     dq_status :=
       if (max_data_errors_per_day self <? errors_today)%Z then CRITICAL
       else if Qgtb (inject_Z errors_today)
                    (inject_Z (max_data_errors_per_day self) * (7 # 10))
       then WARNING else OK |}.

Definition _check_reconciliation (self : Sentinel)
    (quick : option bool) : Sentinel * CheckStatus :=
  match quick with
  | Some true => (self, OK)
  | Some false =>
      (with_consecutive_failures (consecutive_failures self + 1) self,
       CRITICAL)
  | None =>
      (with_consecutive_failures (consecutive_failures self + 1) self,
       ERROR)
  end.

Definition _check_market_conditions (regime : string) : CheckStatus :=
  if String.eqb regime "CRASH" then CRITICAL
  else if String.eqb regime "BEAR" then WARNING else OK.

Definition _check_kill_switch (self : Sentinel) : CheckStatus :=
  if kill_switch_engaged self then CRITICAL else OK.

(** The sub-checks that are dictionaries, in the order of [checks] *)
Definition named (checks : Checks) : list (string * CheckStatus) :=
  [ ("api_usage", api_status (api_usage checks));
    ("data_quality", dq_status (data_quality checks));
    ("reconciliation", reconciliation checks);
    ("market_conditions", market_conditions checks);
    ("kill_switch", kill_switch checks) ].

Definition names_with (p : CheckStatus -> bool) (checks : Checks)
    : list string :=
  map fst (filter (fun kv => p (snd kv)) (named checks)).

Definition _determine_health_state (self : Sentinel) (checks : Checks)
    : State * string :=
  let critical := names_with is_critical checks in
  if Reconciler.nonempty critical then
    (RED, ("Critical issues: " ++ Py.join ", " critical)%string)
  else if (max_consecutive_failures self <=? failures checks)%Z then
    (RED, (Py.str_int (failures checks)
           ++ " consecutive failures")%string)
  else
    let warnings := names_with is_warning checks in
    if Reconciler.nonempty warnings then
      (YELLOW, ("Warnings: " ++ Py.join ", " warnings)%string)
    else if Qgtb (usage_pct (api_usage checks)) 70 then
      (YELLOW,
       ("High API usage: "
        ++ Py.fmt_1f (usage_pct (api_usage checks)) ++ "%")%string)
    else if Qgtb (inject_Z (errors_today (data_quality checks)))
                 (inject_Z (max_data_errors_per_day self) * (5 # 10))
    then
      (YELLOW,
       ("Elevated errors: "
        ++ Py.str_int (errors_today (data_quality checks)))%string)
    else (GREEN, "All systems nominal").

(** *** The roll-up as the specification words it

    A check is Critical when its status is CRITICAL, and so is the
    counter of consecutive failures when it reaches its bound; a check
    is in Warning when its status is WARNING. *)

Definition any_critical (self : Sentinel) (checks : Checks) : bool :=
  existsb is_critical (map snd (named checks))
  || (max_consecutive_failures self <=? failures checks)%Z.

Definition any_warning (checks : Checks) : bool :=
  existsb is_warning (map snd (named checks)).

Definition spec_state (self : Sentinel) (checks : Checks) : State :=
  if any_critical self checks then RED
  else if any_warning checks then YELLOW
  else GREEN.

(** The two tests [_determine_health_state] adds below the warnings *)
Definition near_limits (self : Sentinel) (checks : Checks) : bool :=
  Qgtb (usage_pct (api_usage checks)) 70
  || Qgtb (inject_Z (errors_today (data_quality checks)))
          (inject_Z (max_data_errors_per_day self) * (5 # 10)).

(** The dictionary [check_health] returns *)
Record HealthReport := {
  state : State;
  reason : string;
  checks : Checks
}.

(** [check_health], with the table [health_state] it appends to *)
Definition check_health (self : Sentinel) (now : Time.datetime)
    (seen : Observed) (log : list Health.Row)
    : Sentinel * list Health.Row * HealthReport :=
  let '(self, api) := _check_api_usage self now in
  let dq := _check_data_quality self (errors_seen seen) in
  let '(self, recon) := _check_reconciliation self (quick_check seen) in
  let market := _check_market_conditions (regime seen) in
  let kill := _check_kill_switch self in
  let checks :=
    {| api_usage := api; data_quality := dq; reconciliation := recon;
       market_conditions := market; kill_switch := kill;
       failures := consecutive_failures self |} in
  let '(state, reason) := _determine_health_state self checks in
  (self,
   log ++ [ {| Health.timestamp := now;
               Health.state := state_name state;
               Health.reason := reason |} ],
   {| state := state; reason := reason; checks := checks |}).

Definition record_api_call (count : Z) (self : Sentinel) : Sentinel :=
  with_minute (api_calls_this_minute self + count) (minute_start self)
    self.

Definition engage_kill_switch (why : string) (self : Sentinel)
    : Sentinel :=
  with_kill_switch true why self.

Definition release_kill_switch (self : Sentinel) : Sentinel :=
  with_kill_switch false "" self.

(** [should_trade]: the pair [(should_trade, reason)], after the
    health check it runs *)
Definition should_trade (self : Sentinel) (now : Time.datetime)
    (seen : Observed) (log : list Health.Row)
    : Sentinel * list Health.Row * (bool * string) :=
  let '(self, log, health) := check_health self now seen log in
  (self, log,
   if kill_switch_engaged self then
     (false, ("Kill switch: " ++ kill_reason self)%string)
   else if is_red (state health) then
     (false, ("System RED: " ++ reason health)%string)
   else
     match state health with
     | YELLOW => (true, ("Limited trading: " ++ reason health)%string)
     | _ => (true, "Normal operations")
     end).

(** Successive health checks on one [Sentinel], each at its clock
    reading and with what it observes; the reports, in order. *)
Fixpoint health_run (self : Sentinel)
    (steps : list (Time.datetime * Observed)) (log : list Health.Row)
    : Sentinel * list Health.Row * list HealthReport :=
  match steps with
  | [] => (self, log, [])
  | (now, seen) :: rest =>
      let '(self, log, report) := check_health self now seen log in
      let '(self, log, reports) := health_run self rest log in
      (self, log, report :: reports)
  end.

(** The quick check of a step did not answer [True]. *)
Definition failed (step : Time.datetime * Observed) : bool :=
  match quick_check (snd step) with
  | Some true => false
  | _ => true
  end.

End Sentinel.

(** ** scripts/main.py *)

Module Main.

(** The calls the orchestrator makes on its collaborators, each with
    the type of what it returns. *)
Inductive Call : Type -> Type :=
| is_market_hours : Call bool
| lock_acquire (timeout : Z) : Call bool
| lock_release : Call unit
| sentinel_should_trade : Call (bool * string)
| sentinel_check_health : Call Sentinel.HealthReport
| monitor_check_stop_losses : Call (list Monitor.Exit)
| monitor_check_strategy_exits : Call (list Monitor.Exit)
| monitor_check_pre_close : Call (list Monitor.Exit)
| reconciler_reconcile_all : Call Reconciler.Report
| executor_check_pending_orders : Call Executor.Checked
| ignore_is_ignored (symbol : string) : Call (option Ignore.Info)
| ignore_add (symbol reason scope : string) : Call bool
| fetcher_get_current_price (symbol : string) : Call (option Q)
| validator_stage_a_validate (symbol : string) (price_data : option Q)
    : Call (bool * string)
| processor_get_confirmed_signals (min_confidence : Q)
    : Call (list Signals.Signal)
| processor_reject_signal (signal_id reason : string) : Call bool
| processor_mark_executed (signal_id ticket_id : string) : Call bool
| risk_manager_can_trade_symbol (ticker strategy : string)
    : Call (bool * string)
| risk_manager_approve_trade (ticker : string) (price confidence : option Q)
    (strategy : string) : Call Manager.Approval
| executor_execute_entry (ticker strategy : string) (price : option Q)
    (quantity : Z) : Call Executor.ExecResult
| minutes_until_market_close : Call Q.

(** A method of [TradingBot]: the calls it makes, each continued with
    the value the call returns. *)
Inductive Prog (A : Type) : Type :=
| Done (a : A)
| Do (X : Type) (c : Call X) (k : X -> Prog A).
Arguments Done {A} a.
Arguments Do {A X} c k.

Fixpoint seq {A B} (p : Prog A) (k : A -> Prog B) : Prog B :=
  match p with
  | Done a => k a
  | Do c k' => Do c (fun x => seq (k' x) k)
  end.

Fixpoint each {A} (xs : list A) (body : A -> Prog unit) : Prog unit :=
  match xs with
  | [] => Done tt
  | x :: rest => seq (body x) (fun _ => each rest body)
  end.

Definition _check_exits : Prog unit :=
  Do monitor_check_stop_losses (fun stop_losses =>
  Do monitor_check_strategy_exits (fun strategy_exits =>
  Do monitor_check_pre_close (fun forced =>
  Done tt))).

Definition _scan_tier1 : Prog unit :=
  each ["SPY"; "QQQ"; "AAPL"; "MSFT"; "GOOGL"] (fun symbol =>
    Do (ignore_is_ignored symbol) (fun ignored =>
    match ignored with
    | Some _ => Done tt
    | None =>
        Do (fetcher_get_current_price symbol) (fun price_data =>
        Do (validator_stage_a_validate symbol price_data)
           (fun '(valid, reason) =>
        if negb valid then
          if Py.contains "STALE" reason || Py.contains "INVALID" reason
          then Do (ignore_add symbol reason "ALL") (fun _ => Done tt)
          else Done tt
        else Done tt))
    end)).

Definition _scan_tier2 : Prog unit :=
  each ["NVDA"; "AMD"; "TSLA"; "META"; "NFLX"] (fun symbol =>
    Do (fetcher_get_current_price symbol) (fun _ => Done tt)).

Definition entry_round (signal : Signals.Signal) : Prog unit :=
  Do (risk_manager_can_trade_symbol (Signals.ticker signal)
        (Signals.strategy signal)) (fun '(can_trade, reason) =>
  if negb can_trade then
    Do (processor_reject_signal (Signals.signal_id signal) reason)
       (fun _ => Done tt)
  else
    Do (risk_manager_approve_trade (Signals.ticker signal)
          (Signals.go_in_price signal) (Signals.confidence_score signal)
          (Signals.strategy signal)) (fun approval =>
    match approval with
    | Manager.Approved shares _ _ _ _ =>
        Do (executor_execute_entry (Signals.ticker signal)
              (Signals.strategy signal) (Signals.go_in_price signal)
              shares) (fun result =>
        match result with
        | Executor.FILLED ticket_id _ _ _ =>
            Do (processor_mark_executed (Signals.signal_id signal)
                  ticket_id) (fun _ => Done tt)
        | _ => Done tt
        end)
    | Manager.Denied _ _ => Done tt
    end)).

Definition _process_entries (health_state : Sentinel.State)
    : Prog unit :=
  let green :=
    match health_state with Sentinel.GREEN => true | _ => false end in
  let min_confidence : Q := if green then 60 else 70 in
  Do (processor_get_confirmed_signals min_confidence) (fun signals =>
  match signals with
  | [] => Done tt
  | _ =>
      let signals := Processor.order_by_confidence_desc signals in
      let max_entries := if green then 3%nat else 1%nat in
      each (firstn max_entries signals) entry_round
  end).

Definition run_cycle : Prog unit :=
  Do sentinel_should_trade (fun '(should_trade, trade_reason) =>
  if negb should_trade then Done tt
  else
    Do sentinel_check_health (fun health =>
    seq _check_exits (fun _ =>
    Do reconciler_reconcile_all (fun recon_result =>
    if String.eqb (Reconciler.status recon_result) "CRITICAL"
       || String.eqb (Reconciler.status recon_result) "RED"
    then Done tt
    else
      match Sentinel.state health with
      | Sentinel.RED => Done tt
      | Sentinel.YELLOW =>
          seq _scan_tier1 (fun _ =>
          seq (_process_entries Sentinel.YELLOW) (fun _ =>
          Do minutes_until_market_close (fun _ => Done tt)))
      | Sentinel.GREEN =>
          seq _scan_tier1 (fun _ =>
          seq _scan_tier2 (fun _ =>
          seq (_process_entries Sentinel.GREEN) (fun _ =>
          Do minutes_until_market_close (fun _ => Done tt))))
      end)))).

(** [main()], the lock released by its [finally] *)
Definition main : Prog unit :=
  Do is_market_hours (fun open =>
  if negb open then Done tt
  else
    Do (lock_acquire 30) (fun locked =>
    if negb locked then Done tt
    else seq run_cycle (fun _ => Do lock_release (fun _ => Done tt)))).

(** A call that was made *)
Definition Event : Type := { X : Type & Call X }.

Definition event {X} (c : Call X) : Event := existT _ X c.

Definition is_check_pending_orders (e : Event) : bool :=
  match projT2 e with
  | executor_check_pending_orders => true
  | _ => false
  end.

Definition is_reconcile_all (e : Event) : bool :=
  match projT2 e with
  | reconciler_reconcile_all => true
  | _ => false
  end.


(** The collaborators, over a state [S] of their own; a call that
    raises answers [None] and ends the run. *)
Definition Handler (S : Type) : Type :=
  forall X, Call X -> S -> S * option X.

(** The calls a run makes, in order. *)
Fixpoint trace {A S} (h : Handler S) (p : Prog A) (s : S) : list Event :=
  match p with
  | Done _ => []
  | Do c k =>
      event c ::
      match h _ c s with
      | (s', Some x) => trace h (k x) s'
      | (_, None) => []
      end
  end.

(** The state of the collaborators when a run ends, by returning or
    with the call that raised. *)
Fixpoint after {A S} (h : Handler S) (p : Prog A) (s : S) : S :=
  match p with
  | Done _ => s
  | Do c k =>
      match h _ c s with
      | (s', Some x) => after h (k x) s'
      | (s', None) => s'
      end
  end.

Definition is_mark_executed (e : Event) : bool :=
  match projT2 e with
  | processor_mark_executed _ _ => true
  | _ => false
  end.

(** No call of the program satisfies [bad], whatever the calls return. *)
Inductive never (bad : Event -> bool) {A} : Prog A -> Prop :=
| never_Done (a : A) : never bad (Done a)
| never_Do {X} (c : Call X) (k : X -> Prog A) :
    bad (event c) = false ->
    (forall x, never bad (k x)) ->
    never bad (Do c k).

(** What [run_cycle] does once the health gate, the exits and the
    reconciliation have let it through. *)
Definition trading_part (health_state : Sentinel.State) : Prog unit :=
  match health_state with
  | Sentinel.RED => Done tt
  | Sentinel.YELLOW =>
      seq _scan_tier1 (fun _ =>
      seq (_process_entries Sentinel.YELLOW) (fun _ =>
      Do minutes_until_market_close (fun _ => Done tt)))
  | Sentinel.GREEN =>
      seq _scan_tier1 (fun _ =>
      seq _scan_tier2 (fun _ =>
      seq (_process_entries Sentinel.GREEN) (fun _ =>
      Do minutes_until_market_close (fun _ => Done tt))))
  end.

(** A call that was made, with what it returned; [None] where it
    raised. *)
Definition Step : Type := { X : Type & (Call X * option X)%type }.

Definition step {X} (c : Call X) (a : option X) : Step :=
  existT _ X (c, a).

Definition call_of (st : Step) : Event :=
  existT _ (projT1 st) (fst (projT2 st)).

(** The calls a run makes and their answers, in order. *)
Fixpoint log {A S} (h : Handler S) (p : Prog A) (s : S) : list Step :=
  match p with
  | Done _ => []
  | Do c k =>
      match h _ c s with
      | (s', Some x) => step c (Some x) :: log h (k x) s'
      | (_, None) => [step c None]
      end
  end.

Definition is_execute_entry (e : Event) : bool :=
  match projT2 e with
  | executor_execute_entry _ _ _ _ => true
  | _ => false
  end.

(** The three calls whose answers gate the entries *)
Definition is_gate (e : Event) : bool :=
  match projT2 e with
  | sentinel_should_trade | sentinel_check_health
  | reconciler_reconcile_all => true
  | _ => false
  end.

(** The number of entry orders of a run *)
Definition entries (l : list Step) : nat :=
  List.length (filter (fun st => is_execute_entry (call_of st)) l).

(** The state a health check answered *)
Definition health_of (st : Step) : option Sentinel.State :=
  match projT2 st with
  | (c, a) =>
      match c in Call X return option X -> option Sentinel.State with
      | sentinel_check_health => option_map Sentinel.state
      | _ => fun _ => None
      end a
  end.

(** An answer that ends the tick before the entries: [should_trade]
    answered [False], the health check answered RED, or the
    reconciliation answered CRITICAL or RED. *)
Definition gate_closed (st : Step) : bool :=
  match projT2 st with
  | (c, a) =>
      match c in Call X return option X -> bool with
      | sentinel_should_trade =>
          fun a => match a with
                   | Some (should_trade, _) => negb should_trade
                   | None => false
                   end
      | sentinel_check_health =>
          fun a => match a with
                   | Some health => Sentinel.is_red (Sentinel.state health)
                   | None => false
                   end
      | reconciler_reconcile_all =>
          fun a => match a with
                   | Some r =>
                       String.eqb (Reconciler.status r) "CRITICAL"
                       || String.eqb (Reconciler.status r) "RED"
                   | None => false
                   end
      | _ => fun _ => false
      end a
  end.

(** At most [n] calls of the program satisfy [bad], whatever the calls
    return. *)
Inductive at_most (bad : Event -> bool) {A} : nat -> Prog A -> Prop :=
| at_most_Done (n : nat) (a : A) : at_most bad n (Done a)
| at_most_skip (n : nat) {X} (c : Call X) (k : X -> Prog A) :
    bad (event c) = false ->
    (forall x, at_most bad n (k x)) ->
    at_most bad n (Do c k)
| at_most_hit (n : nat) {X} (c : Call X) (k : X -> Prog A) :
    (forall x, at_most bad n (k x)) ->
    at_most bad (S n) (Do c k).

End Main.

(** ** Concrete data for the examples *)

Module Scenario.

(** 2026-11-03 20:00:00 UTC *)
Definition t0 : Time.datetime := (1793736000 * 1000000)%Z.

(** ACME is held in an OPEN position, its earlier RSI signal carries a
    cooldown that is still running, and a CONFIRMED signal with a far
    stop is up for entry. *)
Definition busy_db : DB :=
  {| signals :=
       [ {| Signals.signal_id := "ACME_RSI_2026110318";
            Signals.ticker := "ACME"; Signals.strategy := "RSI";
            Signals.trigger_time := (t0 - Time.hours 2)%Z;
            Signals.trigger_price := Some (10 # 1);
            Signals.rebound_bottom := Some (10 # 1);
            Signals.go_in_price := Some (102 # 10);
            Signals.profit_target := Some (105 # 10);
            Signals.stop_loss := Some (98 # 10);
            Signals.confidence_score := Some 75;
            Signals.status := Signals.EXECUTED;
            Signals.cooldown_until := Some (t0 + Time.minutes 30)%Z |};
         {| Signals.signal_id := "ACME_RSI_2026110319";
            Signals.ticker := "ACME"; Signals.strategy := "RSI";
            Signals.trigger_time := (t0 - Time.hours 1)%Z;
            Signals.trigger_price := Some (10 # 1);
            Signals.rebound_bottom := Some (10 # 1);
            Signals.go_in_price := Some (102 # 10);
            Signals.profit_target := Some (105 # 10);
            Signals.stop_loss := Some 5;
            Signals.confidence_score := Some 75;
            Signals.status := Signals.CONFIRMED;
            Signals.cooldown_until := None |} ];
     positions :=
       [ {| Positions.ticket_id := "TKT-0A1B2C3D";
            Positions.ticker := "ACME"; Positions.strategy := "RSI";
            Positions.entry_time := (t0 - Time.hours 1)%Z;
            Positions.entry_price := 1021 # 100;
            Positions.quantity := 19;
            Positions.current_price := Some (1021 # 100);
            Positions.status := Positions.OPEN;
            Positions.exit_signal := None |} ];
     trade_history := []; health_state := [];
     execution_quality := []; ignore_list := [] |}.

(** A signal row of the pair (ACME, RSI) *)
Definition acme (sid : string) (trigger : Time.datetime)
    (st : Signals.Status) : Signals.Signal :=
  {| Signals.signal_id := sid;
     Signals.ticker := "ACME"; Signals.strategy := "RSI";
     Signals.trigger_time := trigger;
     Signals.trigger_price := Some (10 # 1);
     Signals.rebound_bottom := Some (10 # 1);
     Signals.go_in_price := Some (102 # 10);
     Signals.profit_target := Some (105 # 10);
     Signals.stop_loss := Some (98 # 10);
     Signals.confidence_score := Some 75;
     Signals.status := st;
     Signals.cooldown_until := None |}.

(** A paper broker: it logs every order it is sent and fills it at once
    at the quote; it holds the positions [held], answers the polls from
    its [book], and every price lookup gives the quote. *)
Record Paper := {
  submitted : list Broker.OrderRequest;
  held : list Broker.Held;
  book : list Broker.Order;
  quote : Q
}.

Definition paper_submit (req : Broker.OrderRequest) (e : Paper)
    : Paper * option Broker.Order :=
  ({| submitted := submitted e ++ [req]; held := held e; book := book e;
      quote := quote e |},
   Some {| Broker.id := "order-1"; Broker.filled_at := Some t0;
           Broker.filled_avg_price := Some (quote e);
           Broker.filled_qty := Some (Broker.qty req);
           Broker.canceled_at := None; Broker.rejected_at := None |}).

#[export] Instance paper : Broker.Outside Paper := {
  Broker.submit_order := paper_submit;
  Broker.get_order_by_id oid e :=
    (e, find (fun o => String.eqb (Broker.id o) oid) (book e));
  Broker.get_all_positions e := (e, Some (held e));
  Broker.uuid4_hex8 e := (e, "0A1B2C3D")
}.

Definition empty_db : DB :=
  {| signals := []; positions := []; trade_history := [];
     health_state := []; execution_quality := []; ignore_list := [] |}.

(** 130 calls in the running minute are 72 percent of the limit: no
    sub-check is in Warning, and the state is YELLOW. *)
Definition busy_sentinel : Sentinel.Sentinel :=
  Sentinel.record_api_call 130 (Sentinel.init t0).

Definition calm : Sentinel.Observed :=
  {| Sentinel.errors_seen := 0; Sentinel.quick_check := Some true;
     Sentinel.regime := "BULL" |}.

(** Collaborators of a quiet tick: the health is GREEN, nothing is to
    exit, the ledgers agree, the prices are valid and no signal is
    CONFIRMED. *)
Definition quiet : Main.Handler unit :=
  fun X c s =>
    (s,
     match c in Main.Call X return option X with
     | Main.is_market_hours => Some true
     | Main.lock_acquire _ => Some true
     | Main.lock_release => Some tt
     | Main.sentinel_should_trade => Some (true, "Normal operations")
     | Main.sentinel_check_health =>
         Some (snd (Sentinel.check_health (Sentinel.init t0) t0 calm []))
     | Main.monitor_check_stop_losses => Some []
     | Main.monitor_check_strategy_exits => Some []
     | Main.monitor_check_pre_close => Some []
     | Main.reconciler_reconcile_all =>
         Some {| Reconciler.status := "OK";
                 Reconciler.message := "All positions reconciled: 0 matches";
                 Reconciler.results := Reconciler.empty |}
     | Main.executor_check_pending_orders =>
         Some {| Executor.checked := 0; Executor.filled := [];
                 Executor.still_pending := None |}
     | Main.ignore_is_ignored _ => Some None
     | Main.ignore_add _ _ _ => Some true
     | Main.fetcher_get_current_price _ => Some (Some 100)
     | Main.validator_stage_a_validate _ _ => Some (true, "OK")
     | Main.processor_get_confirmed_signals _ => Some []
     | Main.processor_reject_signal _ _ => Some true
     | Main.processor_mark_executed _ _ => Some true
     | Main.risk_manager_can_trade_symbol _ _ => Some (true, "OK")
     | Main.risk_manager_approve_trade _ _ _ _ =>
         Some (Manager.Denied "Position size zero" None)
     | Main.executor_execute_entry _ _ _ _ =>
         Some (Executor.FAILED "TKT-0A1B2C3D" "submit_order")
     | Main.minutes_until_market_close => Some 120
     end).

(** The world after the entry of the happy path: 19 ACME bought at
    10.21 for the RSI signal, now EXECUTED; the quote has fallen to
    9.80, below the stop of 3.9 percent. *)
Definition after_entry : Executor.World Paper :=
  {| Executor.db :=
       {| signals :=
            [ acme "ACME_RSI_2026110319" (t0 - Time.hours 1)%Z
                Signals.EXECUTED ];
          positions :=
            [ {| Positions.ticket_id := "TKT-0A1B2C3D";
                 Positions.ticker := "ACME"; Positions.strategy := "RSI";
                 Positions.entry_time := (t0 - Time.minutes 30)%Z;
                 Positions.entry_price := 1021 # 100;
                 Positions.quantity := 19;
                 Positions.current_price := Some (1021 # 100);
                 Positions.status := Positions.OPEN;
                 Positions.exit_signal := None |} ];
          trade_history := []; health_state := [];
          execution_quality := []; ignore_list := [] |};
     Executor.outside :=
       {| submitted := []; held := []; book := []; quote := 98 # 10 |};
     Executor.pending_orders := [] |}.

(** The same world once a strategy has marked the position for exit
    with [signal_exit(ticket_id, ticker, "STOP_LOSS")]. *)
Definition marked_for_exit : Executor.World Paper :=
  {| Executor.db :=
       with_positions
         [ {| Positions.ticket_id := "TKT-0A1B2C3D";
              Positions.ticker := "ACME"; Positions.strategy := "RSI";
              Positions.entry_time := (t0 - Time.minutes 30)%Z;
              Positions.entry_price := 1021 # 100;
              Positions.quantity := 19;
              Positions.current_price := Some (1021 # 100);
              Positions.status := Positions.CLOSING;
              Positions.exit_signal := Some "STOP_LOSS" |} ]
         (Executor.db after_entry);
     Executor.outside := Executor.outside after_entry;
     Executor.pending_orders := [] |}.

(** Six rows of today in [error_log]: above half of the bound of 10,
    below the Warning of the data-quality check. *)
Definition six_errors : Sentinel.Observed :=
  {| Sentinel.errors_seen := 6; Sentinel.quick_check := Some true;
     Sentinel.regime := "BULL" |}.

(** 40 ZETA at 25.00, as the broker lists them *)
Definition zeta : Broker.Held :=
  {| Broker.held_symbol := "ZETA"; Broker.held_qty := 40;
     Broker.avg_entry_price := 25; Broker.held_current_price := 26;
     Broker.unrealized_pl := 40 |}.

(** The local ledger holds ACME, which the broker does not list, and
    the broker lists ZETA, which the ledger does not hold. *)
Definition drifted : Executor.World Paper :=
  {| Executor.db := Executor.db after_entry;
     Executor.outside :=
       {| submitted := []; held := [zeta]; book := []; quote := 10 |};
     Executor.pending_orders := [] |}.

(** The local ledger is empty and the broker lists ZETA. *)
Definition behind : Executor.World Paper :=
  {| Executor.db := empty_db;
     Executor.outside :=
       {| submitted := []; held := [zeta]; book := []; quote := 10 |};
     Executor.pending_orders := [] |}.

(** A broker where an order rests: it is accepted unfilled under the
    id order-7, and a later poll reports it filled, in full, at the
    quote. *)
Record Resting := { resting_quote : Q; accepted : list Broker.OrderRequest }.

#[export] Instance resting : Broker.Outside Resting := {
  Broker.submit_order req e :=
    ({| resting_quote := resting_quote e;
        accepted := accepted e ++ [req] |},
     Some {| Broker.id := "order-7"; Broker.filled_at := None;
             Broker.filled_avg_price := None; Broker.filled_qty := None;
             Broker.canceled_at := None; Broker.rejected_at := None |});
  Broker.get_order_by_id oid e :=
    (e,
     match find (fun _ => String.eqb oid "order-7") (accepted e) with
     | Some req =>
         Some {| Broker.id := oid; Broker.filled_at := Some t0;
                 Broker.filled_avg_price := Some (resting_quote e);
                 Broker.filled_qty := Some (Broker.qty req);
                 Broker.canceled_at := None; Broker.rejected_at := None |}
     | None => None
     end);
  Broker.get_all_positions e := (e, Some []);
  Broker.uuid4_hex8 e := (e, "0A1B2C3D")
}.

(** Collaborators of a busy tick: the health check answers what
    [check_health] makes of [seen], the ledgers agree, and two signals
    are CONFIRMED, approved for 147 shares and filled. *)
Definition busy (seen : Sentinel.Observed) : Main.Handler unit :=
  fun X c s =>
    (s,
     match c in Main.Call X return option X with
     | Main.sentinel_check_health =>
         Some (snd (Sentinel.check_health (Sentinel.init t0) t0 seen []))
     | Main.processor_get_confirmed_signals _ =>
         Some [ acme "ACME_RSI_2026110319" (t0 - Time.hours 1)%Z
                  Signals.CONFIRMED;
                acme "ACME_RSI_2026110318" (t0 - Time.hours 1)%Z
                  Signals.CONFIRMED ]
     | Main.risk_manager_approve_trade _ _ _ _ =>
         Manager.approve_trade (Manager.make 10000 2000) t0 "ACME"
           (102 # 10) 75 None "RSI" empty_db
     | Main.executor_execute_entry _ _ _ _ =>
         Some (Executor.FILLED "TKT-0A1B2C3D" "order-1" 147 (102 # 10))
     | c => snd (quiet _ c s)
     end).

(** An executor with nothing pending, at the broker where orders
    rest. *)
Definition resting_world : Executor.World Resting :=
  {| Executor.db := empty_db;
     Executor.outside :=
       {| resting_quote := 1019 # 100; accepted := [] |};
     Executor.pending_orders := [] |}.

(** What a call of the executor answers to the orchestrator: its
    result, or the exception it raises. *)
Definition reply {W A} (run : W * Eff.outcome A) : W * option A :=
  match run with
  | (w, Eff.Return a) => (w, Some a)
  | (w, Eff.Raise _) => (w, None)
  end.

(** Collaborators of a tick whose entry rests: the health is GREEN,
    one signal is CONFIRMED and approved, and the entry and the poll
    are those of the executor itself, at the broker where orders rest;
    the executor keeps its pending map from one tick to the next. *)
Definition waiting : Main.Handler (Executor.World Resting) :=
  fun X c w =>
    match c in Main.Call X return Executor.World Resting * option X with
    | Main.processor_get_confirmed_signals _ =>
        (w, Some [ acme "ACME_RSI_2026110319" (t0 - Time.hours 1)%Z
                     Signals.CONFIRMED ])
    | Main.risk_manager_approve_trade _ _ _ _ =>
        (w, Manager.approve_trade (Manager.make 10000 2000) t0 "ACME"
              (102 # 10) 75 None "RSI" empty_db)
    | Main.executor_execute_entry ticker strategy price quantity =>
        match price with
        | Some price =>
            reply (Executor.execute_entry t0 ticker strategy price
                        (inject_Z quantity) "LIMIT" w)
        | None => (w, None)
        end
    | Main.executor_check_pending_orders =>
        reply (Executor.check_pending_orders t0 w)
    | c => (w, snd (quiet _ c tt))
    end.

End Scenario.

(** * Properties *)

(** ** Comparisons on [Q] *)

Lemma Qltb_lt (a b : Q) : Qltb a b = true <-> a < b.
Proof.
  unfold Qltb. rewrite negb_true_iff.
  split; intro H.
  - apply Qnot_le_lt. intro Hle. apply Qle_bool_iff in Hle. congruence.
  - destruct (Qle_bool b a) eqn:E; [|reflexivity].
    apply Qle_bool_iff in E. exfalso. exact (Qlt_not_le _ _ H E).
Qed.

Lemma Qltb_ge (a b : Q) : Qltb a b = false <-> b <= a.
Proof.
  unfold Qltb. rewrite negb_false_iff. apply Qle_bool_iff.
Qed.

Lemma truthy_false_iff (x : Q) : truthy x = false <-> x == 0.
Proof.
  unfold truthy. rewrite negb_false_iff. apply Qeq_bool_iff.
Qed.

Lemma py_min_Qmin (a b : Q) : py_min a b = Qmin a b.
Proof.
  unfold py_min, Qmin, GenericMinMax.gmin.
  destruct (Qltb b a) eqn:E.
  - apply Qltb_lt in E. apply Qgt_alt in E. now rewrite E.
  - apply Qltb_ge in E. apply Qle_alt in E.
    destruct (a ?= b) eqn:C; try reflexivity. now elim E.
Qed.

Lemma Qgtb_lt (a b : Q) : Qgtb a b = true <-> b < a.
Proof. apply Qltb_lt. Qed.

Lemma Qgeb_le (a b : Q) : Qgeb a b = true <-> b <= a.
Proof. apply Qle_bool_iff. Qed.

(** ** The arithmetic of floats *)

Module FloatFacts.
Import Float.

(** The rounding, checked on values whose nearest float is known: the
    literals of the code, a tie, the largest float and the overflow
    threshold, and the smallest float. *)
Example round_known_values :
  round (1 # 10) = finite (3602879701896397 # 36028797018963968) /\
  round (2 # 10) = finite (3602879701896397 # 18014398509481984) /\
  round (101 # 100) = finite (4548635623644201 # 4503599627370496) /\
  round (inject_Z (2 ^ 53 + 1)) = finite (inject_Z (2 ^ 53)) /\
  round (inject_Z (2 ^ 53 + 3)) = finite (inject_Z (2 ^ 53 + 4)) /\
  round (inject_Z (2 ^ 1024 - 2 ^ 971)) = finite (inject_Z (2 ^ 1024 - 2 ^ 971)) /\
  round (inject_Z (2 ^ 1024 - 2 ^ 970 - 1)) = finite (inject_Z (2 ^ 1024 - 2 ^ 971)) /\
  round (inject_Z (2 ^ 1024 - 2 ^ 970)) = infinity false /\
  round (- inject_Z (2 ^ 1024)) = infinity true /\
  round (1 # (2 ^ 1074)) = finite (1 # (2 ^ 1074)) /\
  round (1 # (2 ^ 1075)) = finite 0 /\
  round (3 # (2 ^ 1075)) = finite (1 # (2 ^ 1073)).
Proof. vm_compute. repeat split; reflexivity. Qed.

Lemma pow2_pos (e : Z) : 0 < pow2 e.
Proof. unfold pow2. now apply Qpower_0_lt. Qed.

Lemma pow2_le (e1 e2 : Z) : (e1 <= e2)%Z -> pow2 e1 <= pow2 e2.
Proof.
  intros H. unfold pow2. apply Qpower_le_compat_l; [exact H|discriminate].
Qed.

Lemma pow2_lt_inv (e1 e2 : Z) : pow2 e1 < pow2 e2 -> (e1 < e2)%Z.
Proof.
  intros H. unfold pow2 in H.
  apply (Qpower_lt_compat_l_inv 2); [exact H|reflexivity].
Qed.

Lemma pow2_add (e1 e2 : Z) : pow2 (e1 + e2) == pow2 e1 * pow2 e2.
Proof. unfold pow2. apply Qpower_plus. discriminate. Qed.

Lemma pow2_Z (n : Z) : (0 <= n)%Z -> pow2 n == inject_Z (2 ^ n).
Proof. intros H. unfold pow2. now rewrite Zpower_Qpower. Qed.

(** [ilog2] is the exponent of the power of two at or below [x]. *)
Lemma ilog2_spec (x : Q) :
  0 < x -> pow2 (ilog2 x) <= x /\ x < pow2 (ilog2 x + 1).
Proof.
  intros Hx. destruct x as [n d].
  assert (Hn : (0 < n)%Z) by (unfold Qlt in Hx; cbn in Hx; lia).
  unfold ilog2. cbn [Qnum Qden].
  set (a := Z.log2 n). set (b := Z.log2 (Zpos d)).
  destruct (Z.log2_spec n Hn) as [Ha1 Ha2]. fold a in Ha1, Ha2.
  destruct (Z.log2_spec (Zpos d) eq_refl) as [Hb1 Hb2].
  fold b in Hb1, Hb2.
  assert (Ha0 : (0 <= a)%Z) by apply Z.log2_nonneg.
  assert (Hb0 : (0 <= b)%Z) by apply Z.log2_nonneg.
  assert (Hx' : n # d == inject_Z n / inject_Z (Zpos d))
    by apply Qmake_Qdiv.
  assert (Hd : 0 < inject_Z (Zpos d)) by reflexivity.
  (* the two bounds that hold whatever the test says *)
  assert (Hup : n # d < pow2 (a - b + 1)).
  { rewrite Hx'. apply Qlt_shift_div_r; [exact Hd|].
    apply Qlt_le_trans with (pow2 (a + 1)).
    - rewrite pow2_Z by lia. rewrite <- Zlt_Qlt. exact Ha2.
    - replace (a + 1)%Z with ((a - b + 1) + b)%Z by lia.
      rewrite pow2_add.
      apply Qmult_le_l; [apply pow2_pos|].
      rewrite pow2_Z by lia. rewrite <- Zle_Qle. exact Hb1. }
  assert (Hlow : pow2 (a - b - 1) <= n # d).
  { rewrite Hx'. apply Qle_shift_div_l; [exact Hd|].
    apply Qle_trans with (pow2 a).
    - replace a with ((a - b - 1) + (b + 1))%Z at 2 by lia.
      rewrite pow2_add.
      apply Qmult_le_l; [apply pow2_pos|].
      rewrite pow2_Z by lia. rewrite <- Zle_Qle. lia.
    - rewrite pow2_Z by lia. rewrite <- Zle_Qle. exact Ha1. }
  destruct (Qle_bool (pow2 (a - b)) (n # d)) eqn:Htest.
  - apply Qle_bool_iff in Htest. split; assumption.
  - replace (a - b - 1 + 1)%Z with (a - b)%Z by lia.
    split; [exact Hlow|].
    apply Qnot_le_lt. intros Hle. apply Qle_bool_iff in Hle. congruence.
Qed.

Lemma ilog2_mono (x y : Q) : 0 < x -> x <= y -> (ilog2 x <= ilog2 y)%Z.
Proof.
  intros Hx Hxy.
  destruct (ilog2_spec x Hx) as [Hlx _].
  destruct (ilog2_spec y (Qlt_le_trans _ _ _ Hx Hxy)) as [_ Huy].
  assert (H : pow2 (ilog2 x) < pow2 (ilog2 y + 1)).
  { apply Qle_lt_trans with x; [exact Hlx|].
    apply Qle_lt_trans with y; assumption. }
  apply pow2_lt_inv in H. lia.
Qed.

(** *** The nearest integer *)

Lemma rint_cases (x : Q) :
  (rint x = Qfloor x /\ x - inject_Z (Qfloor x) <= 1 # 2) \/
  (rint x = (Qfloor x + 1)%Z /\ 1 # 2 <= x - inject_Z (Qfloor x)).
Proof.
  unfold rint.
  destruct (Qcompare_spec (x - inject_Z (Qfloor x)) (1 # 2)) as [E|E|E].
  - destruct (Z.even (Qfloor x)); [left|right]; split;
      try reflexivity; rewrite E; apply Qle_refl.
  - left. split; [reflexivity|now apply Qlt_le_weak].
  - right. split; [reflexivity|now apply Qlt_le_weak].
Qed.

Lemma rint_mono (x y : Q) : x <= y -> (rint x <= rint y)%Z.
Proof.
  intros Hxy.
  pose proof (Qfloor_resp_le x y Hxy) as Hf.
  destruct (Z.eq_dec (Qfloor x) (Qfloor y)) as [Heq|Hne].
  - unfold rint. rewrite <- Heq.
    destruct (Qcompare_spec (x - inject_Z (Qfloor x)) (1 # 2)) as [E|E|E];
      destruct (Qcompare_spec (y - inject_Z (Qfloor x)) (1 # 2))
        as [F|F|F];
      try (destruct (Z.even (Qfloor x))); try lia; exfalso; lra.
  - destruct (rint_cases x) as [[-> _]|[-> _]],
             (rint_cases y) as [[-> _]|[-> _]]; lia.
Qed.

Lemma rint_Z (n : Z) : rint (inject_Z n) = n.
Proof.
  unfold rint. rewrite Qfloor_Z.
  replace (inject_Z n - inject_Z n ?= 1 # 2) with Lt; [reflexivity|].
  symmetry. apply Qlt_alt.
  assert (H : inject_Z n - inject_Z n == 0) by ring.
  rewrite H. reflexivity.
Qed.

Lemma rint_le_Z (x : Q) (n : Z) : x <= inject_Z n -> (rint x <= n)%Z.
Proof. intros H. rewrite <- (rint_Z n). now apply rint_mono. Qed.

Lemma rint_ge_Z (x : Q) (n : Z) : inject_Z n <= x -> (n <= rint x)%Z.
Proof. intros H. rewrite <- (rint_Z n). now apply rint_mono. Qed.

Lemma rint_near (x : Q) : inject_Z (rint x) <= x + (1 # 2).
Proof.
  destruct (rint_cases x) as [[-> _]|[-> H]].
  - pose proof (Qfloor_le x). lra.
  - rewrite inject_Z_plus. change (inject_Z 1) with 1. lra.
Qed.

Lemma rint_near_below (x : Q) : x - (1 # 2) <= inject_Z (rint x).
Proof.
  destruct (rint_cases x) as [[-> H]|[-> _]].
  - lra.
  - pose proof (Qlt_floor x) as Hlt. lra.
Qed.

(** *** The rounding *)

Lemma Qabs_of_pos (x : Q) : 0 < x -> Qabs x = x.
Proof.
  destruct x as [n d]. unfold Qlt. cbn. intros H.
  f_equal. apply Z.abs_eq. lia.
Qed.

Lemma round_of_pos (x a : Q) :
  0 < x -> round x = finite a ->
  a == inject_Z (rint (x / pow2 (last_place x))) * pow2 (last_place x).
Proof.
  intros Hx. unfold round.
  destruct (Qeq_bool x 0) eqn:Hz.
  - apply Qeq_bool_iff in Hz. lra.
  - cbv zeta. destruct (Qle_bool _ _); [discriminate|].
    intros Heq.
    match type of Heq with
    | finite ?r = _ => assert (E : r = a) by congruence
    end.
    rewrite <- E. apply Qred_correct.
Qed.

(** A float of at least 1 exceeds the number it is nearest to by at
    most one part in [2 ^ 53]. *)
Lemma round_excess (x a : Q) :
  0 < x -> round x = finite a -> 1 <= a -> a <= x * (1 + pow2 (-53)).
Proof.
  intros Hx Hr Ha.
  pose proof (round_of_pos x a Hx Hr) as Hval.
  unfold last_place in Hval. rewrite (Qabs_of_pos x Hx) in Hval.
  destruct (ilog2_spec x Hx) as [Hlow Hup].
  set (e := Z.max (ilog2 x - 52) (-1074)) in *.
  pose proof (pow2_pos e) as He.
  pose proof (rint_near (x / pow2 e)) as Hnear.
  assert (Hsum : a <= x + pow2 e * (1 # 2)).
  { rewrite Hval.
    apply Qle_trans with ((x / pow2 e + (1 # 2)) * pow2 e).
    - apply Qmult_le_compat_r; [exact Hnear|now apply Qlt_le_weak].
    - apply Qle_lteq. right. field. lra. }
  destruct (Z.max_spec (ilog2 x - 52) (-1074)) as [[Hcmp Hmax]|[Hcmp Hmax]];
    fold e in Hmax.
  - (* below the normal range: the float is below 1 *)
    exfalso.
    assert (H1 : x < pow2 (-1022)).
    { apply Qlt_le_trans with (pow2 (ilog2 x + 1)); [exact Hup|].
      apply pow2_le. lia. }
    pose proof (pow2_le (-1022) (-2) ltac:(lia)) as H2.
    rewrite Hmax in Hsum.
    pose proof (pow2_le (-1074) (-2) ltac:(lia)) as H3.
    assert (H4 : pow2 (-2) == 1 # 4) by reflexivity.
    lra.
  - (* in the normal range *)
    assert (Hp : pow2 e == pow2 (ilog2 x) * pow2 (-52)).
    { rewrite Hmax, <- pow2_add. reflexivity. }
    assert (H53 : pow2 (-53) == pow2 (-52) * (1 # 2)) by reflexivity.
    pose proof (pow2_pos (-52)) as H52.
    assert (Hle : pow2 e <= x * pow2 (-52)).
    { rewrite Hp. apply Qmult_le_compat_r; [exact Hlow|].
      now apply Qlt_le_weak. }
    nra.
Qed.

(** In the normal range a float falls short of the number it is
    nearest to by at most one part in [2 ^ 53]. *)
Lemma round_shortfall (x a : Q) :
  pow2 (-1022) <= x -> round x = finite a -> x * (1 - pow2 (-53)) <= a.
Proof.
  intros Hn Hr.
  assert (Hx : 0 < x)
    by (apply Qlt_le_trans with (pow2 (-1022)); [apply pow2_pos|exact Hn]).
  pose proof (round_of_pos x a Hx Hr) as Hval.
  unfold last_place in Hval. rewrite (Qabs_of_pos x Hx) in Hval.
  destruct (ilog2_spec x Hx) as [Hlow Hup].
  assert (Hlog : (-1022 <= ilog2 x)%Z).
  { assert (H : pow2 (-1022) < pow2 (ilog2 x + 1))
      by (apply Qle_lt_trans with x; assumption).
    apply pow2_lt_inv in H. lia. }
  replace (Z.max (ilog2 x - 52) (-1074)) with (ilog2 x - 52)%Z in Hval
    by lia.
  set (e := (ilog2 x - 52)%Z) in *.
  pose proof (pow2_pos e) as He.
  pose proof (rint_near_below (x / pow2 e)) as Hnear.
  assert (Hsum : x - pow2 e * (1 # 2) <= a).
  { rewrite Hval.
    apply Qle_trans with ((x / pow2 e - (1 # 2)) * pow2 e).
    - apply Qle_lteq. right. field. lra.
    - apply Qmult_le_compat_r; [exact Hnear|now apply Qlt_le_weak]. }
  assert (Hp : pow2 e == pow2 (ilog2 x) * pow2 (-52)).
  { unfold e. rewrite <- pow2_add. reflexivity. }
  assert (H53 : pow2 (-53) == pow2 (-52) * (1 # 2)) by reflexivity.
  pose proof (pow2_pos (-52)) as H52.
  assert (Hle : pow2 e <= x * pow2 (-52)).
  { rewrite Hp. apply Qmult_le_compat_r; [exact Hlow|].
    now apply Qlt_le_weak. }
  nra.
Qed.


Lemma rint_nonneg (x : Q) : 0 <= x -> (0 <= rint x)%Z.
Proof.
  intros Hx. unfold rint.
  assert (Hf : (0 <= Qfloor x)%Z)
    by (change 0%Z with (Qfloor 0); now apply Qfloor_resp_le).
  destruct (Qcompare _ _); [destruct (Z.even _)|..]; lia.
Qed.

Lemma round_not_negative (x : Q) : 0 <= x -> not_negative (round x).
Proof.
  intros Hx. unfold round.
  destruct (Qeq_bool x 0); [apply Qle_refl|]. cbv zeta.
  destruct (Qle_bool _ _); cbn [not_negative].
  - now apply Qltb_ge.
  - rewrite Qred_correct. apply Qmult_le_0_compat.
    + change 0 with (inject_Z 0). rewrite <- Zle_Qle. apply rint_nonneg.
      apply Qle_shift_div_l; [apply pow2_pos|]. now rewrite Qmult_0_l.
    + apply Qlt_le_weak, pow2_pos.
Qed.

Lemma not_negative_sign (a : float) : not_negative a -> negative a = false.
Proof.
  destruct a as [x|s|]; cbn; intros H; [now apply Qltb_ge|exact H|reflexivity].
Qed.

Lemma mul_not_negative (a b : float) :
  not_negative a -> not_negative b -> not_negative (mul a b).
Proof.
  intros Ha Hb.
  pose proof (not_negative_sign a Ha) as Sa.
  pose proof (not_negative_sign b Hb) as Sb.
  destruct a as [x|s|], b as [y|t|]; cbn [mul]; try exact I.
  - apply round_not_negative. now apply Qmult_le_0_compat.
  - destruct (is_zero _ || is_zero _); [exact I|]. now rewrite Sa, Sb.
  - destruct (is_zero _ || is_zero _); [exact I|]. now rewrite Sa, Sb.
  - destruct (is_zero _ || is_zero _); [exact I|]. now rewrite Sa, Sb.
Qed.

Lemma quot_not_negative (a : float) (y : Q) :
  not_negative a -> 0 < y -> not_negative (quot a (finite y)).
Proof.
  intros Ha Hy. destruct a as [x|s|]; cbn [quot]; [| |exact I].
  - apply round_not_negative. apply Qle_shift_div_l; [exact Hy|].
    now rewrite Qmult_0_l.
  - cbn in Ha. subst s. cbn.
    apply Qltb_ge. now apply Qlt_le_weak.
Qed.

Lemma min_not_negative (a b : float) :
  not_negative a -> not_negative b -> not_negative (min a b).
Proof. intros Ha Hb. unfold min. now destruct (ltb b a). Qed.

Lemma floor_not_negative (a : float) (z : Z) :
  not_negative a -> floor a = Some z -> (0 <= z)%Z.
Proof.
  destruct a as [x|s|]; cbn; intros Ha [= <-].
  change 0%Z with (Qfloor 0). now apply Qfloor_resp_le.
Qed.

Lemma lit_hundred : lit 100 = finite 100.
Proof. vm_compute. reflexivity. Qed.

(** [min] gives one of its arguments, and one that is not above the
    second. *)
Lemma min_le_r (a b : float) : b <> nan -> a <> nan -> le (min a b) b.
Proof.
  unfold min, le. intros Hb Ha.
  destruct a as [x|s|], b as [y|t|]; try congruence; cbn.
  - unfold Qltb. destruct (Qle_bool x y) eqn:E; cbn; [exact E|].
    apply Qle_bool_iff, Qle_refl.
  - destruct t; cbn; first [reflexivity|apply Qle_bool_iff, Qle_refl].
  - destruct s; cbn; first [reflexivity|apply Qle_bool_iff, Qle_refl].
  - destruct s, t; reflexivity.
Qed.

End FloatFacts.

(** ** The clock of SQLite *)

Lemma whole_second_eq (now : Time.datetime) :
  Time.whole_second now = (Time.second * (now / Time.second))%Z.
Proof.
  unfold Time.whole_second.
  pose proof (Z.div_mod now Time.second) as H.
  unfold Time.second in *. lia.
Qed.



Lemma whole_second_mono (now1 now2 : Time.datetime) :
  (now1 <= now2)%Z ->
  (Time.whole_second now1 <= Time.whole_second now2)%Z.
Proof.
  intros Hle. rewrite !whole_second_eq.
  apply Z.mul_le_mono_nonneg_l; [unfold Time.second; lia|].
  apply Z.div_le_mono; [unfold Time.second; lia|exact Hle].
Qed.

(** A stored instant that [datetime('now')] has passed stays passed. *)
Lemma after_sql_now_passes (stored now1 now2 : Time.datetime) :
  (now1 <= now2)%Z ->
  Time.after_sql_now stored now1 = false ->
  Time.after_sql_now stored now2 = false.
Proof.
  unfold Time.after_sql_now. intros Hle H1.
  apply Z.ltb_ge in H1. apply Z.ltb_ge.
  pose proof (whole_second_mono _ _ Hle). lia.
Qed.

(** ** The clock model, checked against known dates *)

Example strftime_leap_day :
  Time.strftime_YmdH (1709251199 * 1000000 + 5)%Z = "2024022923".
Proof. vm_compute. reflexivity. Qed.

Example strftime_new_year :
  Time.strftime_YmdHMS (1767225600 * 1000000)%Z = "20260101000000".
Proof. vm_compute. reflexivity. Qed.

Example strftime_century_leap :
  Time.strftime_YmdHMS (951782400 * 1000000)%Z = "20000229000000".
Proof. vm_compute. reflexivity. Qed.

Example strftime_end_of_year :
  Time.strftime_YmdHMS (4102444799 * 1000000)%Z = "20991231235959".
Proof. vm_compute. reflexivity. Qed.

(** The comparisons of the queries are comparisons of texts; the two
    definitions by instants agree with them where the texts differ in
    length only, and on either side of it. *)
Example text_of_an_instant :
  Time.adapter_text (1793736000 * 1000000 + 500000)%Z
  = "2026-11-03 20:00:00.500000" /\
  Time.sql_now_text (1793736000 * 1000000 + 500000)%Z
  = "2026-11-03 20:00:00" /\
  Time.aware_text (Time.utc_midnight (1793736000 * 1000000 + 500000))%Z
  = "2026-11-03 00:00:00+00:00".
Proof. vm_compute. repeat split; reflexivity. Qed.

Example after_sql_now_is_text_order :
  let second_of := (1793736000 * 1000000)%Z in
  forallb
    (fun '(stored, now) =>
       Bool.eqb (Time.after_sql_now stored now)
         (String.ltb (Time.sql_now_text now) (Time.adapter_text stored)))
    [ (second_of, second_of); (second_of + 1, second_of + 999999);
      (second_of + 500000, second_of + 400000);
      (second_of + 500000, second_of + 600000);
      (second_of + 500000, second_of + 1000000);
      (second_of, second_of + 1); (second_of, second_of - 1);
      (second_of + 1000000, second_of + 999999);
      (second_of - 1, second_of); (second_of + 86400000000, second_of);
      (second_of, second_of + 86400000000) ]%Z
  = true.
Proof. vm_compute. reflexivity. Qed.

Example aware_midnight_is_text_order :
  let midnight := Time.utc_midnight (1793736000 * 1000000)%Z in
  forallb
    (fun stored =>
       Bool.eqb (Time.at_or_after_aware_midnight stored midnight)
         (String.leb (Time.aware_text midnight)
            (Time.adapter_text stored)))
    [ midnight; midnight + 1; midnight - 1; midnight + 1000000;
      midnight - 1000000; midnight + 999999; midnight + 86400000000;
      midnight - 86400000000; midnight + 72000000000 ]%Z
  = true.
Proof. vm_compute. reflexivity. Qed.

(** ** Position sizer *)

Module SizerFacts.
Import Float Sizer.


Example shares_scenario :
  option_map shares
    (calculate_shares default (102 # 10) 75 None (Some 10000))
  = Some 147%Z.
Proof. vm_compute. reflexivity. Qed.

(** The count is the floor of the rounded quotient, which can be the
    next integer above the exact one: a cap of 2000 buys 7 shares at a
    price just above 2000 / 7. *)
Example shares_of_a_rounded_quotient :
  let price := 5026338869833143 # 2 ^ 44 in
  inject_Z 7 * price > 2000 /\
  option_map shares
    (calculate_shares default price 100 None (Some 1000000))
  = Some 7%Z.
Proof. vm_compute. split; reflexivity. Qed.




End SizerFacts.

(** ** Risk gate *)

Module ManagerFacts.
Import Manager Scenario.

Lemma volatility_not_negative (price : Q) (atr : option Q) :
  Float.not_negative (Sizer.volatility price atr).
Proof.
  unfold Sizer.volatility, Float.lit.
  destruct (truthy_opt atr && Qgtb price 0);
    [|now apply FloatFacts.round_not_negative].
  destruct atr as [a|]; [|now apply FloatFacts.round_not_negative].
  destruct (Float.gtb _ _); [now apply FloatFacts.round_not_negative|].
  destruct (Float.ltb _ _); now apply FloatFacts.round_not_negative.
Qed.

Lemma shares_nonneg (self : Sizer.PositionSizer) (price confidence : Q)
    (atr : option Q) (capital : Q) (sizing : Sizer.Sizing) :
  0 <= confidence -> 0 <= Sizer.max_per_trade self -> 0 <= capital ->
  Sizer.calculate_shares self price confidence atr (Some capital)
  = Some sizing ->
  (0 <= Sizer.shares sizing)%Z.
Proof.
  intros Hc Hm Hk. unfold Sizer.calculate_shares.
  destruct (Qgtb price 0) eqn:Hp; [|intros [= <-]; cbn; lia].
  apply Qgtb_lt in Hp.
  destruct (Float.floor _) as [z|] eqn:Hz; [|discriminate].
  intros [= <-]. cbn [Sizer.shares].
  refine (FloatFacts.floor_not_negative _ z _ Hz).
  apply FloatFacts.quot_not_negative; [|exact Hp].
  apply FloatFacts.min_not_negative; [|exact Hm].
  apply FloatFacts.mul_not_negative; [|apply volatility_not_negative].
  apply FloatFacts.mul_not_negative.
  - apply FloatFacts.min_not_negative; [exact Hm|].
    apply FloatFacts.mul_not_negative; [exact Hk|].
    now apply FloatFacts.round_not_negative.
  - rewrite FloatFacts.lit_hundred.
    apply FloatFacts.quot_not_negative; [exact Hc|reflexivity].
Qed.

Lemma can_trade_symbol_true (self : RiskManager) (now : Time.datetime)
    (tk st : string) (d : DB) :
  fst (can_trade_symbol self now tk st d) = true ->
  ignored_for now tk st (ignore_list d) = false /\
  fst (Limits.can_trade (limits self) now d) = true.
Proof.
  unfold can_trade_symbol, ignored_for.
  destruct (Ignore.is_ignored now tk (ignore_list d)) as [info|].
  - destruct (String.eqb (Ignore.info_scope info) st
              || String.eqb (Ignore.info_scope info) "ALL");
      [discriminate|].
    destruct (Limits.can_trade (limits self) now d) as [[|] r];
      simpl; intuition discriminate.
  - destruct (Limits.can_trade (limits self) now d) as [[|] r];
      simpl; intuition discriminate.
Qed.

(** C1, as the claim words it, fails: a trade is approved for a ticker
    that is held in an OPEN position, whose pair is on cooldown, and
    whose share count does not pass [validate_risk] for the signal's
    entry and stop. *)
Lemma approve_trade_counterexample :
  let self := make 10000 2000 in
  option_map approved
    (approve_trade self t0 "ACME" (102 # 10) 75 None "RSI" busy_db)
  = Some true /\
  Positions.holds "ACME" (positions busy_db) = true /\
  Cooldown.is_on_cooldown t0 "ACME" "RSI" (signals busy_db)
  = Some (t0 + Time.minutes 30)%Z /\
  Sizer.validate_risk (sizer self) (102 # 10) 5 147 10000 = Some false /\
  exists sizing,
    Sizer.calculate_shares (sizer self) (102 # 10) 75 None (Some 10000)
    = Some sizing /\
    approve_trade self t0 "ACME" (102 # 10) 75 None "RSI" busy_db
    = Some (Approved 147 (Sizer.notional_value sizing) (102 # 10) 75
              sizing).
Proof.
  vm_compute. repeat split; try reflexivity.
  eexists. split; reflexivity.
Qed.

(** C1 (amended): [approve_trade] returns APPROVED only if the ticker
    is not on the ignore list for this strategy or for ALL, the daily
    limits allow trading, and the position sizer yields a share count
    that is not zero (at least 1 when the confidence, the capital and
    the cap per trade are not negative); the approval carries that
    share count. *)
Theorem approve_trade_gate (self : RiskManager) (now : Time.datetime)
    (tk : string) (price confidence : Q) (atr : option Q) (st : string)
    (d : DB) (approval : Approval) :
  approve_trade self now tk price confidence atr st d = Some approval ->
  approved approval = true ->
  exists sizing,
    Sizer.calculate_shares (sizer self) price confidence atr
      (Some (total_capital self)) = Some sizing /\
    ignored_for now tk st (ignore_list d) = false /\
    fst (Limits.can_trade (limits self) now d) = true /\
    Sizer.shares sizing <> 0%Z /\
    approval
    = Approved (Sizer.shares sizing) (Sizer.notional_value sizing) price
        confidence sizing /\
    (0 <= confidence -> 0 <= Sizer.max_per_trade (sizer self) ->
     0 <= total_capital self -> (1 <= Sizer.shares sizing)%Z).
Proof.
  intros Hrun Happ.
  unfold approve_trade, get_available_capital in *.
  pose proof (can_trade_symbol_true self now tk st d) as Hgate.
  destruct (can_trade_symbol self now tk st d) as [[|] why];
    cbn [negb fst] in *; [|injection Hrun as <-; discriminate].
  destruct (Hgate eq_refl) as [Hi Hl].
  destruct (Sizer.calculate_shares (sizer self) price confidence atr
              (Some (total_capital self))) as [sizing|] eqn:Hsizing;
    [|discriminate].
  exists sizing. split; [reflexivity|].
  destruct (Z.eqb_spec (Sizer.shares sizing) 0) as [E|E];
    injection Hrun as <-; [discriminate|].
  repeat split; try assumption.
  intros Hc Hm Hk.
  pose proof (shares_nonneg (sizer self) price confidence atr
                (total_capital self) sizing Hc Hm Hk Hsizing).
  lia.
Qed.

Lemma approve_trade_gate_witness :
  let self := make 10000 2000 in
  exists approval sizing,
    approve_trade self t0 "ACME" (102 # 10) 75 None "RSI" busy_db
    = Some approval /\
    approved approval = true /\
    ignored_for t0 "ACME" "RSI" (ignore_list busy_db) = false /\
    Sizer.calculate_shares (sizer self) (102 # 10) 75 None
      (Some (total_capital self)) = Some sizing /\
    (1 <= Sizer.shares sizing)%Z.
Proof.
  intro self.
  destruct (approve_trade self t0 "ACME" (102 # 10) 75 None "RSI"
              busy_db) as [approval|] eqn:Hrun;
    [|vm_compute in Hrun; discriminate].
  assert (Happ : approved approval = true)
    by (vm_compute in Hrun; injection Hrun as <-; reflexivity).
  destruct (approve_trade_gate self t0 "ACME" (102 # 10) 75 None "RSI"
              busy_db approval Hrun Happ)
    as (sizing & Hsizing & Hi & _ & _ & _ & Hone).
  exists approval, sizing.
  split; [reflexivity|]. split; [exact Happ|]. split; [exact Hi|].
  split; [exact Hsizing|].
  apply Hone; unfold Qle; simpl; lia.
Defined.

End ManagerFacts.

(** ** Signal engine *)

Module ProcessorFacts.
Import Signals Processor Scenario.

Lemma engine_legal (a b : Status) : engine a b = true -> legal a b = true.
Proof. destruct a, b; simpl; congruence. Qed.

Lemma legal_refl (a : Status) : legal a a = true.
Proof. now destruct a. Qed.

Lemma engine_refl (a : Status) : engine a a = true.
Proof. now destruct a. Qed.

Lemma set_status_same (r : Signal) : r = set_status (status r) r.
Proof. now destruct r. Qed.

Lemma status_eqb_eq (a b : Status) : status_eqb a b = true <-> a = b.
Proof. destruct a, b; simpl; split; congruence. Qed.

(** An [UPDATE] that sets a status [b] on rows whose status [a] allows
    it is an evolution of the table. *)
Lemma update_evolves (ok : Status -> Status -> bool) (where_ : Signal -> bool)
    (b : Status) (t : table) :
  (forall a, ok a a = true) ->
  (forall r, In r t -> where_ r = true -> ok (status r) b = true) ->
  evolves ok t (update where_ (set_status b) t).
Proof.
  intros Hrefl Hok. exists (update where_ (set_status b) t), [].
  split; [now rewrite app_nil_r|].
  unfold update. induction t as [|r t IH]; simpl; constructor.
  - destruct (where_ r) eqn:E.
    + split; [reflexivity|]. simpl. apply Hok; [now left|assumption].
    + split; [apply set_status_same|apply Hrefl].
  - apply IH. intros r' Hin. apply Hok. now right.
Qed.

Lemma evolves_refl (ok : Status -> Status -> bool) (t : table) :
  (forall a, ok a a = true) -> evolves ok t t.
Proof.
  intros Hrefl. exists t, []. split; [now rewrite app_nil_r|].
  induction t; constructor; auto using set_status_same.
Qed.

Lemma evolves_trans (ok : Status -> Status -> bool) (t1 t2 t3 : table) :
  (forall a b c, ok a b = true -> ok b c = true -> ok a c = true) ->
  evolves ok t1 t2 -> evolves ok t2 t3 -> evolves ok t1 t3.
Proof.
  intros Htr (k1 & a1 & -> & H1) (k2 & a2 & -> & H2).
  apply Forall2_app_inv_l in H2 as (k2a & k2b & Ha & Hb & ->).
  exists k2a, (k2b ++ a2). split; [now rewrite app_assoc|].
  clear Hb. revert k2a Ha.
  induction H1 as [|r r' t k [Hr Hs] _ IH]; intros k2a Ha;
    inversion Ha as [|? r'' ? k' [Hr' Hs'] Hrest]; subst; constructor.
  - split.
    + rewrite Hr', Hr. now destruct r.
    + eauto.
  - now apply IH.
Qed.

Lemma engine_trans (a b c : Status) :
  engine a b = true -> engine b c = true -> engine a c = true.
Proof. destruct a, b, c; simpl; congruence. Qed.

Lemma newest_In (rows : list Signal) (r : Signal) :
  newest rows = Some r -> In r rows.
Proof.
  revert r. induction rows as [|x rows IH]; simpl; intros r; [discriminate|].
  destruct (newest rows) as [r'|].
  - destruct (trigger_time x <? trigger_time r')%Z; intros [= <-]; auto.
  - intros [= <-]. now left.
Qed.

(** The newest KIV row of a pair is a KIV row. *)
Lemma newest_kiv (tk st : string) (t : table) (row : Signal) :
  newest (filter (fun r => of_pair tk st r && status_eqb (status r) KIV) t)
  = Some row ->
  of_pair tk st row = true /\ status row = KIV.
Proof.
  intros H. apply newest_In, filter_In in H as [_ H].
  apply andb_true_iff in H as [Hp Hs]. now apply status_eqb_eq in Hs.
Qed.

(** The primary key of [signals]: two rows with one id are one row. *)
Lemma key_unique (t : table) (r r' : Signal) :
  NoDup (map signal_id t) -> In r t -> In r' t ->
  signal_id r = signal_id r' -> r = r'.
Proof.
  induction t as [|x t IH]; simpl; intros Hnd Hr Hr' Heq; [contradiction|].
  inversion Hnd as [|? ? Hnotin Hnd']; subst.
  destruct Hr as [<-|Hr], Hr' as [<-|Hr']; auto.
  - exfalso. apply Hnotin. rewrite Heq. now apply in_map.
  - exfalso. apply Hnotin. rewrite <- Heq. now apply in_map.
Qed.

Lemma has_id_eq (sid : string) (r : Signal) :
  has_id sid r = true <-> signal_id r = sid.
Proof. unfold has_id. apply String.eqb_eq. Qed.

Lemma check_confirmation_evolves (self : SignalProcessor)
    (now : Time.datetime) (tk st : string) (price : Q) (t : table) :
  NoDup (map signal_id t) ->
  evolves engine t (fst (check_confirmation self now tk st price t)).
Proof.
  intros Hnd. unfold check_confirmation.
  destruct (newest _) as [row|] eqn:Hnew;
    [|apply evolves_refl, engine_refl].
  pose proof (newest_kiv _ _ _ _ Hnew) as [_ Hkiv].
  apply newest_In, filter_In in Hnew as [Hin _].
  assert (Hrow : forall b, engine KIV b = true ->
            forall r, In r t -> has_id (signal_id row) r = true ->
                      engine (status r) b = true).
  { intros b Hb r Hr Hid. apply has_id_eq in Hid.
    now rewrite (key_unique t r row Hnd Hr Hin Hid), Hkiv. }
  destruct (Qgtb _ _); simpl.
  - apply update_evolves; [apply engine_refl|now apply Hrow].
  - destruct (bounced _ _); simpl.
    + apply update_evolves; [apply engine_refl|now apply Hrow].
    + apply evolves_refl, engine_refl.
Qed.

Lemma cleanup_expired_evolves (self : SignalProcessor)
    (now : Time.datetime) (t : table) :
  evolves engine t (fst (cleanup_expired self now t)).
Proof.
  unfold cleanup_expired. simpl.
  eapply evolves_trans; [exact engine_trans| |];
    (apply update_evolves; [apply engine_refl|]);
    intros r _ Hw; unfold stale_kiv, stale_confirmed in Hw;
    apply andb_true_iff in Hw as [Hs _];
    apply status_eqb_eq in Hs; now rewrite Hs.
Qed.

Lemma add_to_kiv_appends (now : Time.datetime) (tk st : string)
    (p1 p2 p3 p4 p5 c : Q) (t : table) :
  exists added,
    fst (add_to_kiv now tk st p1 p2 p3 p4 p5 c t) = t ++ added /\
    Forall (fun r => status r = KIV) added.
Proof.
  unfold add_to_kiv.
  destruct (Cooldown.is_on_cooldown now tk st t);
    [exists []; now rewrite app_nil_r|].
  destruct (find _ t).
  - exists []. now rewrite app_nil_r.
  - eexists. split; [reflexivity|]. now repeat constructor.
Qed.

(** What an unguarded [UPDATE .. WHERE signal_id = ?] does to each row. *)
Lemma update_pointwise (sid : string) (b : Status) (t : table) :
  Forall2 (fun r r' => r' = if String.eqb (signal_id r) sid
                            then set_status b r else r)
          t (update (has_id sid) (set_status b) t).
Proof.
  unfold update, has_id. induction t; simpl; constructor; auto.
Qed.

(** C2, as the claim words it, fails: [mark_executed] moves an EXPIRED
    row to EXECUTED, and [reject_signal] then moves it to REJECTED; both
    rows were in a terminal state. *)
Lemma terminal_overwritten_counterexample :
  let t := [acme "ACME_RSI_2026110316" (t0 - Time.hours 4 - 1)%Z EXPIRED] in
  let t' := fst (mark_executed "ACME_RSI_2026110316" "TKT-0A1B2C3D" t) in
  let t'' := fst (reject_signal "ACME_RSI_2026110316" "late" t') in
  map status t = [EXPIRED] /\ terminal EXPIRED = true /\
  map status t' = [EXECUTED] /\ legal EXPIRED EXECUTED = false /\
  map status t'' = [REJECTED] /\ legal EXECUTED REJECTED = false.
Proof. vm_compute. repeat split; reflexivity. Qed.

(** C2 (amended): on a table whose [signal_id]s are distinct,
    [check_confirmation] and [cleanup_expired] only perform KIV to
    CONFIRMED, KIV to EXPIRED and CONFIRMED to EXPIRED; [add_to_kiv]
    only appends KIV rows and [get_confirmed_signals] leaves the stored
    rows as they are; [mark_executed] and [reject_signal] set EXECUTED
    and REJECTED on the row with the given id whatever its status is,
    which is CONFIRMED to EXECUTED and CONFIRMED to REJECTED when that
    row is CONFIRMED. *)
Theorem signal_transitions (self : SignalProcessor) (now : Time.datetime)
    (t : table) :
  NoDup (map signal_id t) ->
  (forall tk st price,
     evolves engine t (fst (check_confirmation self now tk st price t))) /\
  evolves engine t (fst (cleanup_expired self now t)) /\
  (forall min_confidence,
     fst (get_confirmed_signals self now min_confidence t) = t) /\
  (forall tk st p1 p2 p3 p4 p5 c,
     exists added,
       fst (add_to_kiv now tk st p1 p2 p3 p4 p5 c t) = t ++ added /\
       Forall (fun r => status r = KIV) added) /\
  (forall sid ticket_id,
     Forall2 (fun r r' => r' = if String.eqb (signal_id r) sid
                               then set_status EXECUTED r else r)
             t (fst (mark_executed sid ticket_id t)) /\
     ((forall r, In r t -> signal_id r = sid -> status r = CONFIRMED) ->
      evolves legal t (fst (mark_executed sid ticket_id t)))) /\
  (forall sid reason,
     Forall2 (fun r r' => r' = if String.eqb (signal_id r) sid
                               then set_status REJECTED r else r)
             t (fst (reject_signal sid reason t)) /\
     ((forall r, In r t -> signal_id r = sid -> status r = CONFIRMED) ->
      evolves legal t (fst (reject_signal sid reason t)))).
Proof.
  intros Hnd. repeat split.
  - intros. now apply check_confirmation_evolves.
  - apply cleanup_expired_evolves.
  - intros. apply add_to_kiv_appends.
  - apply update_pointwise.
  - intros Hc. apply update_evolves; [apply legal_refl|].
    intros r Hr Hid. apply has_id_eq in Hid. now rewrite (Hc r Hr Hid).
  - apply update_pointwise.
  - intros Hc. apply update_evolves; [apply legal_refl|].
    intros r Hr Hid. apply has_id_eq in Hid. now rewrite (Hc r Hr Hid).
Qed.

Lemma signal_transitions_witness :
  let t := [acme "ACME_RSI_2026110319" (t0 - Time.hours 1)%Z CONFIRMED] in
  NoDup (map signal_id t) /\
  evolves legal t (fst (mark_executed "ACME_RSI_2026110319" "TKT-1" t)) /\
  evolves engine t (fst (cleanup_expired default t0 t)).
Proof.
  intro t.
  assert (Hnd : NoDup (map signal_id t))
    by (repeat constructor; simpl; tauto).
  split; [exact Hnd|].
  destruct (signal_transitions default t0 t Hnd)
    as (_ & Hclean & _ & _ & Hexec & _).
  split; [|exact Hclean].
  apply (Hexec "ACME_RSI_2026110319" "TKT-1").
  intros r [<-|[]] _. reflexivity.
Defined.

(** *** The KIV timeout *)

(** The age test of [check_confirmation], on the clock values. *)
Lemma age_exceeds (now trigger : Time.datetime) (h : Z) :
  Qgtb (age_hours now trigger) (inject_Z h)
  = (Time.hours h <? now - trigger)%Z.
Proof.
  unfold age_hours, Time.total_seconds, Time.hours, Time.second.
  destruct (Z.ltb_spec (h * 3600 * 1000000) (now - trigger)) as [L|L].
  - apply Qgtb_lt. unfold Qlt, Qdiv. simpl. lia.
  - apply Qltb_ge. unfold Qle, Qdiv. simpl. lia.
Qed.

(** C9, as the claim words it, fails: a KIV signal that is exactly four
    hours old is not expired; below the bounce it stays KIV and the
    answer is NOT_CONFIRMED. *)
Lemma kiv_boundary_counterexample :
  let t := [acme "ACME_RSI_2026110316" (t0 - Time.hours 4)%Z KIV] in
  age_hours t0 (t0 - Time.hours 4)%Z == inject_Z (kiv_timeout_hours default)
  /\
  check_confirmation default t0 "ACME" "RSI" (1005 # 100) t
  = (t, NotConfirmed "NOT_CONFIRMED") /\
  map status (fst (check_confirmation default t0 "ACME" "RSI"
                     (1005 # 100) t)) = [KIV].
Proof. vm_compute. repeat split; reflexivity. Qed.

(** C9 (amended): [check_confirmation] expires the newest KIV signal of
    the pair, and answers EXPIRED, only when its age is strictly greater
    than [kiv_timeout]; a signal whose age is [kiv_timeout] or less,
    the boundary included, goes through the bounce test: CONFIRMED
    above the threshold, NOT_CONFIRMED and still KIV below it. *)
Theorem check_confirmation_kiv_timeout (self : SignalProcessor)
    (now : Time.datetime) (tk st : string) (price : Q) (t : table)
    (row : Signal) :
  newest (filter (fun r => of_pair tk st r && status_eqb (status r) KIV) t)
  = Some row ->
  ((now - trigger_time row <= Time.hours (kiv_timeout_hours self))%Z ->
   check_confirmation self now tk st price t
   = if bounced (rebound_bottom row) price
     then (update (has_id (signal_id row)) (set_status CONFIRMED) t,
           Confirmed (signal_id row) (go_in_price row) (profit_target row)
             (stop_loss row) (confidence_score row))
     else (t, NotConfirmed "NOT_CONFIRMED")) /\
  ((Time.hours (kiv_timeout_hours self) < now - trigger_time row)%Z ->
   check_confirmation self now tk st price t
   = (update (has_id (signal_id row)) (set_status EXPIRED) t,
      NotConfirmed "EXPIRED")).
Proof.
  intros Hnew. unfold check_confirmation. rewrite Hnew, age_exceeds.
  split; intros Hage.
  - apply Z.ltb_ge in Hage. now rewrite Hage.
  - apply Z.ltb_lt in Hage. now rewrite Hage.
Qed.

Lemma check_confirmation_kiv_timeout_witness :
  let row := acme "ACME_RSI_2026110316" (t0 - Time.hours 4)%Z KIV in
  (t0 - trigger_time row <= Time.hours (kiv_timeout_hours default))%Z /\
  check_confirmation default t0 "ACME" "RSI" (1011 # 100) [row]
  = (update (has_id (signal_id row)) (set_status CONFIRMED) [row],
     Confirmed (signal_id row) (go_in_price row) (profit_target row)
       (stop_loss row) (confidence_score row)) /\
  check_confirmation default (t0 + 1)%Z "ACME" "RSI" (1011 # 100) [row]
  = (update (has_id (signal_id row)) (set_status EXPIRED) [row],
     NotConfirmed "EXPIRED").
Proof.
  intro row.
  assert (Hage : (t0 - trigger_time row
                  <= Time.hours (kiv_timeout_hours default))%Z)
    by (vm_compute; discriminate).
  split; [exact Hage|]. split.
  - exact (proj1 (check_confirmation_kiv_timeout default t0 "ACME" "RSI"
                    (1011 # 100) [row] row eq_refl) Hage).
  - apply (proj2 (check_confirmation_kiv_timeout default (t0 + 1)%Z "ACME"
                    "RSI" (1011 # 100) [row] row eq_refl)).
    vm_compute. reflexivity.
Defined.

(** *** Idempotence of the KIV insertion *)

Lemma strftime_bucket (now1 now2 : Time.datetime) :
  (now1 / Time.hours 1 = now2 / Time.hours 1)%Z ->
  Time.strftime_YmdH now1 = Time.strftime_YmdH now2.
Proof. intros H. unfold Time.strftime_YmdH. now rewrite H. Qed.

Lemma latest_none (rows : list Signal) :
  Cooldown.latest rows = None ->
  forall r, In r rows -> cooldown_until r = None.
Proof.
  induction rows as [|x rows IH]; simpl; intros H r Hin; [contradiction|].
  destruct (cooldown_until x) eqn:Ex.
  - destruct (Cooldown.latest rows); discriminate.
  - destruct Hin as [<-|Hin]; auto.
Qed.

(** No cooldown is active: no row of the pair expires in the future. *)
Lemma not_cooling (now : Time.datetime) (tk st : string) (t : table) :
  Cooldown.is_on_cooldown now tk st t = None <->
  forall r, In r t -> Cooldown.cooling now tk st r = false.
Proof.
  unfold Cooldown.is_on_cooldown. split.
  - intros H r Hin. destruct (Cooldown.cooling now tk st r) eqn:E; auto.
    assert (Hf : In r (filter (Cooldown.cooling now tk st) t))
      by (apply filter_In; auto).
    pose proof (latest_none _ H r Hf) as Hn.
    unfold Cooldown.cooling in E. rewrite Hn in E.
    now rewrite andb_false_r in E.
  - intros H.
    replace (filter (Cooldown.cooling now tk st) t) with (@nil Signal);
      [reflexivity|].
    symmetry. induction t as [|x t IH]; simpl; [reflexivity|].
    rewrite (H x (or_introl eq_refl)). apply IH.
    intros r Hin. apply H. now right.
Qed.

Lemma cooldown_passes (now1 now2 : Time.datetime) (tk st : string)
    (t : table) :
  (now1 <= now2)%Z ->
  Cooldown.is_on_cooldown now1 tk st t = None ->
  Cooldown.is_on_cooldown now2 tk st t = None.
Proof.
  intros Hle H1. apply not_cooling. intros r Hin.
  pose proof (proj1 (not_cooling now1 tk st t) H1 r Hin) as Hc.
  unfold Cooldown.cooling in *.
  destruct (of_pair tk st r); simpl in *; [|reflexivity].
  destruct (cooldown_until r) as [u|]; [|reflexivity].
  exact (after_sql_now_passes u now1 now2 Hle Hc).
Qed.

Lemma find_app_none {A} (p : A -> bool) (l : list A) (x : A) :
  find p l = None -> find p (l ++ [x]) = if p x then Some x else None.
Proof.
  induction l as [|y l IH]; simpl; [reflexivity|].
  destruct (p y); [discriminate|exact IH].
Qed.

Lemma count_kiv_app (tk st : string) (t u : table) :
  count_kiv tk st (t ++ u) = (count_kiv tk st t + count_kiv tk st u)%nat.
Proof. unfold count_kiv. now rewrite filter_app, length_app. Qed.

Lemma add_to_kiv_exists (now : Time.datetime) (tk st : string)
    (p1 p2 p3 p4 p5 c : Q) (t : table) (existing : Signal) :
  Cooldown.is_on_cooldown now tk st t = None ->
  find (duplicate (_generate_signal_id now tk st) tk st) t = Some existing ->
  add_to_kiv now tk st p1 p2 p3 p4 p5 c t = (t, Exists_ (status existing)).
Proof. intros Hc Hf. unfold add_to_kiv. now rewrite Hc, Hf. Qed.

Lemma add_to_kiv_added (now : Time.datetime) (tk st : string)
    (p1 p2 p3 p4 p5 c : Q) (t : table) :
  Cooldown.is_on_cooldown now tk st t = None ->
  find (duplicate (_generate_signal_id now tk st) tk st) t = None ->
  add_to_kiv now tk st p1 p2 p3 p4 p5 c t
  = (t ++ [kiv_row (_generate_signal_id now tk st) now tk st
             p1 p2 p3 p4 p5 c],
     Added (_generate_signal_id now tk st) c).
Proof. intros Hc Hf. unfold add_to_kiv. now rewrite Hc, Hf. Qed.

(** Where the duplicate test finds nothing, the pair has no KIV row. *)
Lemma count_kiv_none (sid tk st : string) (t : table) :
  find (duplicate sid tk st) t = None -> count_kiv tk st t = 0%nat.
Proof.
  intros Hfind. unfold count_kiv.
  replace (filter _ t) with (@nil Signal); [reflexivity|].
  symmetry. induction t as [|x t IH]; simpl in *; [reflexivity|].
  destruct (duplicate sid tk st x) eqn:E; [discriminate|].
  unfold duplicate, active in E. apply orb_false_iff in E as [_ E].
  destruct (of_pair tk st x); cbn in *.
  - apply orb_false_iff in E as [-> _]. now apply IH.
  - now apply IH.
Qed.

(** C7, as the claim words it, fails when the pair already has a
    CONFIRMED row: both calls answer EXISTS and no KIV row exists
    afterwards. *)
Lemma add_to_kiv_twice_counterexample :
  let t := [acme "ACME_RSI_2026110319" (t0 - Time.hours 1)%Z CONFIRMED] in
  let now1 := (t0 + Time.minutes 5)%Z in
  let now2 := (t0 + Time.minutes 6)%Z in
  let first := add_to_kiv now1 "ACME" "RSI" 10 10 (102 # 10) (105 # 10)
                 (98 # 10) 75 t in
  let second := add_to_kiv now2 "ACME" "RSI" 10 10 (102 # 10) (105 # 10)
                  (98 # 10) 75 (fst first) in
  (now1 / Time.hours 1 = now2 / Time.hours 1)%Z /\
  Cooldown.is_on_cooldown now1 "ACME" "RSI" t = None /\
  Cooldown.is_on_cooldown now2 "ACME" "RSI" (fst first) = None /\
  add_status (snd first) = "EXISTS" /\
  add_status (snd second) = "EXISTS" /\
  count_kiv "ACME" "RSI" (fst second) = 0%nat.
Proof. vm_compute. repeat split; reflexivity. Qed.

(** C7 (amended): two calls of [add_to_kiv] with identical inputs in
    one hourly bucket, with no cooldown active, compute the same
    [signal_id]; the second call answers EXISTS and adds no row; and
    when the first call inserted the signal (answered ADDED, with that
    id), exactly one KIV row of the pair exists afterwards. *)
Theorem add_to_kiv_idempotent (now1 now2 : Time.datetime) (tk st : string)
    (p1 p2 p3 p4 p5 c : Q) (t : table) :
  (now1 <= now2)%Z ->
  (now1 / Time.hours 1 = now2 / Time.hours 1)%Z ->
  Cooldown.is_on_cooldown now1 tk st t = None ->
  let first := add_to_kiv now1 tk st p1 p2 p3 p4 p5 c t in
  let second := add_to_kiv now2 tk st p1 p2 p3 p4 p5 c (fst first) in
  _generate_signal_id now1 tk st = _generate_signal_id now2 tk st /\
  add_status (snd second) = "EXISTS" /\
  fst second = fst first /\
  (add_status (snd first) = "ADDED" ->
   snd first = Added (_generate_signal_id now1 tk st) c /\
   count_kiv tk st (fst second) = 1%nat).
Proof.
  intros Hle Hbucket Hcool first second.
  assert (Hid : _generate_signal_id now1 tk st
                = _generate_signal_id now2 tk st)
    by (unfold _generate_signal_id; now rewrite (strftime_bucket _ _ Hbucket)).
  pose proof (cooldown_passes now1 now2 tk st t Hle Hcool) as Hcool2.
  split; [exact Hid|].
  subst first second.
  destruct (find (duplicate (_generate_signal_id now1 tk st) tk st) t)
    as [existing|] eqn:Hfind.
  - (* the pair was active, or the id was taken *)
    rewrite (add_to_kiv_exists now1 tk st p1 p2 p3 p4 p5 c t existing
               Hcool Hfind).
    cbn [fst snd].
    rewrite Hid in Hfind.
    rewrite (add_to_kiv_exists now2 tk st p1 p2 p3 p4 p5 c t existing
               Hcool2 Hfind).
    cbn. repeat split; discriminate.
  - (* the first call inserts *)
    rewrite (add_to_kiv_added now1 tk st p1 p2 p3 p4 p5 c t Hcool Hfind).
    cbn [fst snd].
    set (row := kiv_row _ now1 tk st p1 p2 p3 p4 p5 c).
    assert (Hc2 : Cooldown.is_on_cooldown now2 tk st (t ++ [row]) = None).
    { apply not_cooling. intros r Hin. apply in_app_or in Hin as [Hin|Hin].
      - exact (proj1 (not_cooling now2 tk st t) Hcool2 r Hin).
      - destruct Hin as [<-|[]]. unfold Cooldown.cooling. cbn.
        apply andb_false_r. }
    assert (Hdup : find (duplicate (_generate_signal_id now2 tk st) tk st)
                        (t ++ [row]) = Some row).
    { rewrite <- Hid, (find_app_none _ t row Hfind).
      unfold duplicate. cbn. now rewrite String.eqb_refl. }
    rewrite (add_to_kiv_exists now2 tk st p1 p2 p3 p4 p5 c (t ++ [row]) row
               Hc2 Hdup).
    cbn [fst snd add_status]. repeat split.
    rewrite count_kiv_app, (count_kiv_none _ _ _ _ Hfind).
    unfold count_kiv, of_pair. cbn. now rewrite !String.eqb_refl.
Qed.

Lemma add_to_kiv_idempotent_witness :
  let now1 := (t0 + Time.minutes 5)%Z in
  let now2 := (t0 + Time.minutes 6)%Z in
  let first := add_to_kiv now1 "ACME" "RSI" 10 10 (102 # 10) (105 # 10)
                 (98 # 10) 75 [] in
  let second := add_to_kiv now2 "ACME" "RSI" 10 10 (102 # 10) (105 # 10)
                  (98 # 10) 75 (fst first) in
  (now1 <= now2)%Z /\
  (now1 / Time.hours 1 = now2 / Time.hours 1)%Z /\
  Cooldown.is_on_cooldown now1 "ACME" "RSI" [] = None /\
  add_status (snd first) = "ADDED" /\
  add_status (snd second) = "EXISTS" /\
  count_kiv "ACME" "RSI" (fst second) = 1%nat.
Proof.
  intros now1 now2 first second.
  assert (Hle : (now1 <= now2)%Z) by (vm_compute; discriminate).
  assert (Hb : (now1 / Time.hours 1 = now2 / Time.hours 1)%Z)
    by (vm_compute; reflexivity).
  assert (Hadded : add_status (snd first) = "ADDED")
    by (vm_compute; reflexivity).
  destruct (add_to_kiv_idempotent now1 now2 "ACME" "RSI" 10 10 (102 # 10)
              (105 # 10) (98 # 10) 75 [] Hle Hb eq_refl)
    as (_ & Hexists & _ & Hone).
  split; [exact Hle|]. split; [exact Hb|]. split; [reflexivity|].
  split; [exact Hadded|]. split; [exact Hexists|].
  exact (proj2 (Hone Hadded)).
Defined.

End ProcessorFacts.

(** ** Executor *)

Module ExecutorFacts.
Import Broker Executor Scenario.

Section WithOutside.
Context {E : Type} `{Outside E}.

(** C10: [execute_exit] with a type that is not MARKET (LIMIT), a reason
    other than STOP_LOSS and no limit price returns FAILED with the
    message of the guard; nothing is sent to the broker (the outside has
    only given the ticket id), and the pending map and the database,
    [execution_quality] included, are as before. *)
Theorem execute_exit_limit_needs_price (now : Time.datetime)
    (ticker : string) (quantity : Q) (order_type : string)
    (limit_price : option Q) (reason : string) (w : World E) :
  Py.upper order_type <> "MARKET" ->
  reason <> "STOP_LOSS" ->
  truthy_opt limit_price = false ->
  execute_exit now ticker quantity order_type limit_price reason w
  = ({| db := db w; outside := fst (uuid4_hex8 (outside w));
        pending_orders := pending_orders w |},
     Eff.Return
       (FAILED ("TKT-" ++ snd (uuid4_hex8 (outside w)))
          "Limit price required for LIMIT exit")).
Proof.
  intros Htype Hreason Hprice.
  apply String.eqb_neq in Htype, Hreason.
  unfold execute_exit, _generate_ticket_id, ask, Eff.bind, Eff.try_,
    Eff.ret, Eff.raise.
  destruct (uuid4_hex8 (outside w)) as [e' h]. cbn [fst snd outside].
  rewrite Htype, Hreason. cbn [orb].
  destruct limit_price as [l|]; [|reflexivity].
  cbn in Hprice. now rewrite Hprice.
Qed.

End WithOutside.

Lemma execute_exit_limit_needs_price_witness :
  let w := {| db := empty_db;
              outside := {| submitted := []; held := []; book := [];
                            quote := 98 # 10 |};
              pending_orders := [] |} in
  Py.upper "LIMIT" <> "MARKET" /\ "STRATEGY" <> "STOP_LOSS" /\
  result_status
    (match snd (execute_exit t0 "ACME" 19 "LIMIT" None "STRATEGY" w) with
     | Eff.Return r => r
     | Eff.Raise e => FILLED "" "" 0 0
     end) = "FAILED" /\
  submitted (outside (fst (execute_exit t0 "ACME" 19 "LIMIT" None
                             "STRATEGY" w))) = [] /\
  pending_orders (fst (execute_exit t0 "ACME" 19 "LIMIT" None
                         "STRATEGY" w)) = [] /\
  execution_quality (db (fst (execute_exit t0 "ACME" 19 "LIMIT" None
                                "STRATEGY" w))) = [].
Proof.
  intro w.
  assert (H1 : Py.upper "LIMIT" <> "MARKET") by (vm_compute; discriminate).
  assert (H2 : "STRATEGY" <> "STOP_LOSS") by discriminate.
  split; [exact H1|]. split; [exact H2|].
  rewrite (execute_exit_limit_needs_price t0 "ACME" 19 "LIMIT" None
             "STRATEGY" w H1 H2 eq_refl).
  repeat split.
Defined.

(** With a limit price the same call reaches the broker. *)
Example execute_exit_limit_with_price :
  let w := {| db := empty_db;
              outside := {| submitted := []; held := []; book := [];
                            quote := 105 # 10 |};
              pending_orders := [] |} in
  List.length
    (submitted (outside (fst (execute_exit t0 "ACME" 19 "LIMIT"
                               (Some (105 # 10)) "TAKE_PROFIT" w))))
  = 1%nat.
Proof. vm_compute. reflexivity. Qed.

End ExecutorFacts.

(** ** Sentinel *)

Module SentinelFacts.
Import Sentinel Scenario.

Lemma nonempty_names {A B} (p : B -> bool) (l : list (A * B)) :
  Reconciler.nonempty (map fst (filter (fun kv => p (snd kv)) l))
  = existsb p (map snd l).
Proof.
  induction l as [|[a b] l IH]; simpl; [reflexivity|].
  destruct (p b); simpl; [reflexivity|exact IH].
Qed.

Lemma check_health_keeps_kill_switch (self : Sentinel) (now : Time.datetime)
    (seen : Observed) (log : list Health.Row) :
  kill_switch_engaged (fst (fst (check_health self now seen log)))
  = kill_switch_engaged self.
Proof.
  unfold check_health, _check_api_usage, _check_reconciliation.
  destruct (60 <? seconds (now - minute_start self))%Z;
    destruct (quick_check seen) as [[|]|];
    cbn; destruct (_determine_health_state _ _); reflexivity.
Qed.

Lemma should_trade_denies (self : Sentinel) (now : Time.datetime)
    (seen : Observed) (log : list Health.Row) :
  fst (snd (should_trade self now seen log))
  = negb (is_red (state (snd (check_health self now seen log)))
          || kill_switch_engaged self).
Proof.
  unfold should_trade.
  pose proof (check_health_keeps_kill_switch self now seen log) as Hk.
  destruct (check_health self now seen log) as [[self' log'] health].
  cbn [fst snd] in *. rewrite Hk.
  destruct (kill_switch_engaged self); [now rewrite orb_true_r|].
  rewrite orb_false_r.
  destruct (state health); reflexivity.
Qed.

(** Once engaged, the kill switch denies whatever is observed. *)
Example kill_switch_denies (seen : Observed) :
  fst (snd (should_trade (engage_kill_switch "Manual override" (init t0))
              t0 seen [])) = false.
Proof. rewrite should_trade_denies. cbn. now rewrite orb_true_r. Qed.

(** C5, as the claim words it, fails: with six errors today every
    sub-check is OK and no failure is counted, yet the roll-up is
    YELLOW, where the stated rule gives GREEN; an API usage of 72
    percent does the same. *)
Lemma rollup_counterexample :
  let health := snd (check_health (init t0) (t0 + 1)%Z six_errors []) in
  let busy := snd (check_health busy_sentinel (t0 + 1)%Z calm []) in
  map snd (named (checks health)) = [OK; OK; OK; OK; OK] /\
  failures (checks health) = 0%Z /\
  spec_state (init t0) (checks health) = GREEN /\
  fst (_determine_health_state (init t0) (checks health)) = YELLOW /\
  state health = YELLOW /\
  map snd (named (checks busy)) = [OK; OK; OK; OK; OK] /\
  state busy = YELLOW.
Proof. vm_compute. repeat split; reflexivity. Qed.

(** C5 (amended): the roll-up is RED if a check is Critical or the
    consecutive failures have reached their bound; otherwise YELLOW if
    a check is in Warning, or the API usage is above 70 percent, or
    today's errors are above half of their bound; otherwise GREEN.
    [should_trade] denies exactly when the state of the health check it
    runs is RED or the kill switch is engaged. *)
Theorem health_rollup (self : Sentinel) (checks : Checks)
    (now : Time.datetime) (seen : Observed) (log : list Health.Row) :
  fst (_determine_health_state self checks)
  = (if any_critical self checks then RED
     else if any_warning checks || near_limits self checks then YELLOW
     else GREEN) /\
  fst (snd (should_trade self now seen log))
  = negb (is_red (state (snd (check_health self now seen log)))
          || kill_switch_engaged self).
Proof.
  split.
  - unfold _determine_health_state, any_critical, any_warning, near_limits,
      names_with.
    rewrite !nonempty_names.
    destruct (existsb is_critical _); [reflexivity|].
    destruct (_ <=? _)%Z; [reflexivity|].
    destruct (existsb is_warning _); [reflexivity|]. cbn [orb fst].
    destruct (Qgtb (usage_pct _) 70); [reflexivity|].
    destruct (Qgtb (inject_Z _) _); reflexivity.
  - apply should_trade_denies.
Qed.

End SentinelFacts.

(** ** Pending orders and the tick *)

Module PendingFacts.
Import Broker Executor Scenario.

Section WithOutside.
Context {E : Type} `{Outside E}.







End WithOutside.

End PendingFacts.

Module MainFacts.
Import Main Scenario.

Lemma never_seq (bad : Event -> bool) {A B} (p : Prog A)
    (k : A -> Prog B) :
  never bad p -> (forall a, never bad (k a)) -> never bad (seq p k).
Proof.
  intros Hp Hk. induction Hp as [a|X c k' Hc _ IH]; simpl.
  - apply Hk.
  - now constructor.
Qed.

Lemma never_each (bad : Event -> bool) {A} (xs : list A)
    (body : A -> Prog unit) :
  (forall x, never bad (body x)) -> never bad (each xs body).
Proof.
  intros Hb. induction xs as [|x xs IH]; simpl.
  - constructor.
  - apply never_seq; auto.
Qed.

(** A call the program never makes is in no trace of it. *)
Lemma never_trace (bad : Event -> bool) {A S} (h : Handler S)
    (p : Prog A) :
  never bad p -> forall s, existsb bad (trace h p s) = false.
Proof.
  intros Hp. induction Hp as [a|X c k Hc _ IH]; intros s; simpl.
  - reflexivity.
  - rewrite Hc. simpl. destruct (h X c s) as [s' [x|]]; auto.
Qed.

(** One step through the text of a method. *)
Ltac walk :=
  repeat first
    [ apply never_Done
    | apply never_Do; [reflexivity|intros]
    | apply never_seq; [|intros]
    | apply never_each; intros
    | match goal with
      | |- never _ (match ?x with _ => _ end) => destruct x
      end ].

Lemma check_exits_never_polls :
  never is_check_pending_orders _check_exits.
Proof. unfold _check_exits. walk. Qed.

Lemma scan_tier1_never_polls :
  never is_check_pending_orders _scan_tier1.
Proof. unfold _scan_tier1. walk. Qed.

Lemma scan_tier2_never_polls :
  never is_check_pending_orders _scan_tier2.
Proof. unfold _scan_tier2. walk. Qed.

Lemma process_entries_never_polls (health_state : Sentinel.State) :
  never is_check_pending_orders (_process_entries health_state).
Proof. unfold _process_entries, entry_round. walk. Qed.

Lemma run_cycle_never_polls : never is_check_pending_orders run_cycle.
Proof.
  unfold run_cycle.
  apply never_Do; [reflexivity|]. intros [should_trade trade_reason].
  destruct (negb should_trade); [constructor|].
  apply never_Do; [reflexivity|]. intros health.
  apply never_seq; [apply check_exits_never_polls|]. intros _.
  apply never_Do; [reflexivity|]. intros recon_result.
  destruct (_ || _); [constructor|].
  destruct (Sentinel.state health); [| |constructor];
    repeat first
      [ apply never_seq; [first [ apply scan_tier1_never_polls
                                | apply scan_tier2_never_polls
                                | apply process_entries_never_polls ]|];
        intros _
      | apply never_Do; [reflexivity|]; intros
      | constructor ].
Qed.



(** C6: the claim holds of no tick.  [run_cycle], whose docstring says
    it follows the priority pyramid, makes no call of
    [check_pending_orders], whatever its collaborators return.  On a
    tick whose limit entry the broker accepts without filling it,
    [execute_entry] stores the order in the pending map, "for
    monitoring", and answers PENDING; the orchestrator treats that as
    a failed entry: it does not mark the signal executed and polls
    nothing, so the order is still pending after the tick and no
    execution is recorded.  On the next tick the signal, still
    CONFIRMED, is entered once more.  The poll the claim asks for,
    made after the first tick, drops the filled order from the pending
    map and records its execution. *)
Theorem pending_entry_is_never_polled :
  let tick1 := after waiting run_cycle resting_world in
  let tick2 := after waiting run_cycle tick1 in
  let calls := trace waiting run_cycle resting_world in
  let polled := Executor.check_pending_orders (t0 + Time.minutes 5)%Z
                  tick1 in
  (forall (S : Type) (h : Handler S) (s : S),
     existsb is_check_pending_orders (trace h run_cycle s) = false) /\
  existsb is_reconcile_all calls = true /\
  List.length (filter is_execute_entry calls) = 1%nat /\
  existsb is_mark_executed calls = false /\
  existsb is_check_pending_orders calls = false /\
  Py.keys (Executor.pending_orders tick1) = ["order-7"] /\
  execution_quality (Executor.db tick1) = [] /\
  List.length (accepted (Executor.outside tick1)) = 1%nat /\
  List.length (accepted (Executor.outside tick2)) = 2%nat /\
  execution_quality (Executor.db tick2) = [] /\
  option_map Executor.checked
    (snd (Scenario.reply polled)) = Some 1%nat /\
  Executor.pending_orders (fst polled) = [] /\
  map Quality.ticket_id (execution_quality (Executor.db (fst polled)))
  = ["TKT-0A1B2C3D"].
Proof.
  split.
  - intros S h s. apply never_trace, run_cycle_never_polls.
  - vm_compute. repeat split; reflexivity.
Qed.

(** A pending order the broker has filled leaves the map, one that is
    still open stays. *)
Example pending_orders_polled :
  let slot oid :=
    (oid, {| Executor.p_ticket_id := "TKT-0A1B2C3D";
             Executor.p_ticker := "ACME";
             Executor.p_strategy := Some "RSI";
             Executor.p_expected_price := 102 # 10;
             Executor.p_quantity := 19;
             Executor.p_order_type := "LIMIT";
             Executor.p_reason := None;
             Executor.p_submitted_at := t0 |}) in
  let answer oid filled :=
    {| Broker.id := oid; Broker.filled_at := filled;
       Broker.filled_avg_price := Some (1021 # 100);
       Broker.filled_qty := Some 19;
       Broker.canceled_at := None; Broker.rejected_at := None |} in
  let w := {| Executor.db := empty_db;
              Executor.outside :=
                {| submitted := []; held := [];
                   book := [answer "a" (Some t0); answer "b" None];
                   quote := 10 |};
              Executor.pending_orders := [slot "a"; slot "b"; slot "c"] |} in
  Py.keys (Executor.pending_orders
             (fst (Executor.check_pending_orders t0 w))) = ["b"; "c"] /\
  map Quality.ticket_id
    (execution_quality
       (Executor.db (fst (Executor.check_pending_orders t0 w))))
  = ["TKT-0A1B2C3D"].
Proof. vm_compute. split; reflexivity. Qed.

End MainFacts.

(** ** Exit monitor *)

Module MonitorFacts.
Import Broker Executor Monitor Scenario.

Section Keeps.
Context {W X : Type} (f : W -> X).

Lemma keeps_ret {A} (a : A) : Eff.keeps f (Eff.ret a).
Proof. intros w. reflexivity. Qed.

Lemma keeps_raise {A} (e : string) : Eff.keeps f (@Eff.raise W A e).
Proof. intros w. reflexivity. Qed.

Lemma keeps_gets {A} (g : W -> A) : Eff.keeps f (Eff.gets g).
Proof. intros w. reflexivity. Qed.

Lemma keeps_modify (g : W -> W) :
  (forall w, f (g w) = f w) -> Eff.keeps f (Eff.modify g).
Proof. intros Hg w. apply Hg. Qed.

Lemma keeps_bind {A B} (c : Eff.M W A) (k : A -> Eff.M W B) :
  Eff.keeps f c -> (forall a, Eff.keeps f (k a)) ->
  Eff.keeps f (Eff.bind c k).
Proof.
  intros Hc Hk w. unfold Eff.bind. specialize (Hc w).
  destruct (c w) as [w' [a|e]]; cbn [fst] in *.
  - now rewrite Hk.
  - exact Hc.
Qed.

Lemma keeps_try {A} (c : Eff.M W A) (h : string -> Eff.M W A) :
  Eff.keeps f c -> (forall e, Eff.keeps f (h e)) ->
  Eff.keeps f (Eff.try_ c h).
Proof.
  intros Hc Hh w. unfold Eff.try_. specialize (Hc w).
  destruct (c w) as [w' [a|e]]; cbn [fst] in *.
  - exact Hc.
  - now rewrite Hh.
Qed.

Lemma keeps_for {A B} (xs : list A) (body : A -> Eff.M W (list B)) :
  (forall x, Eff.keeps f (body x)) -> Eff.keeps f (Eff.for_ xs body).
Proof.
  intros Hb. induction xs as [|x xs IH]; cbn [Eff.for_].
  - apply keeps_ret.
  - apply keeps_bind; [apply Hb|]. intros out.
    apply keeps_bind; [exact IH|]. intros outs. apply keeps_ret.
Qed.

End Keeps.

Section WithOutside.
Context {E : Type} `{Outside E}.

Lemma keeps_ask {A} (q : E -> E * option A) (exn : string) :
  Eff.keeps (@stored_signals E) (ask q exn).
Proof.
  intros w. unfold ask. destruct (q (outside w)) as [e' [a|]]; reflexivity.
Qed.

Create HintDb keeps.

Ltac keep :=
  repeat
    (cbv zeta;
     lazymatch goal with
     | |- Eff.keeps _ (Eff.ret _) => apply keeps_ret
     | |- Eff.keeps _ (Eff.raise _) => apply keeps_raise
     | |- Eff.keeps _ (Eff.gets _) => apply keeps_gets
     | |- Eff.keeps _ (ask _ _) => apply keeps_ask
     | |- Eff.keeps _ (Eff.modify _) =>
         apply keeps_modify; intros; reflexivity
     | |- Eff.keeps _ (Eff.bind _ _) => apply keeps_bind; [|intros]
     | |- Eff.keeps _ (Eff.try_ _ _) => apply keeps_try; [|intros]
     | |- Eff.keeps _ (Eff.for_ _ _) => apply keeps_for; intros
     | |- Eff.keeps _ (match ?x with _ => _ end) => destruct x
     | |- Eff.keeps _ _ => solve [auto with keeps]
     end).

Lemma execute_exit_keeps_signals (now : Time.datetime) (ticker : string)
    (quantity : Q) (order_type : string) (limit_price : option Q)
    (reason : string) :
  Eff.keeps (@stored_signals E)
    (execute_exit now ticker quantity order_type limit_price reason).
Proof.
  unfold execute_exit, _generate_ticket_id, float, record_execution.
  keep.
Qed.

Lemma mark_position_closed_keeps_signals (now : Time.datetime)
    (ticket_id : string) (exit_price : Q) (exit_reason : string) :
  Eff.keeps (@stored_signals E)
    (_mark_position_closed now ticket_id exit_price exit_reason).
Proof. unfold _mark_position_closed. keep. Qed.

#[local] Hint Resolve execute_exit_keeps_signals
  mark_position_closed_keeps_signals : keeps.

Lemma close_if_filled_keeps_signals (now : Time.datetime)
    (pos : Positions.Position) (reason : string) (pnl : option Q)
    (exit_result : ExecResult) :
  Eff.keeps (@stored_signals E)
    (close_if_filled now pos reason pnl exit_result).
Proof. unfold close_if_filled. keep. Qed.

#[local] Hint Resolve close_if_filled_keeps_signals : keeps.

(** The three exit paths leave the signals table, and with it every
    cooldown, as they found it. *)
Lemma exits_keep_signals (self : ExitMonitor) (now : Time.datetime) :
  Eff.keeps (@stored_signals E) (check_stop_losses now) /\
  Eff.keeps (@stored_signals E) (check_strategy_exits now) /\
  Eff.keeps (@stored_signals E) (check_pre_close self now).
Proof.
  split; [|split].
  - unfold check_stop_losses. keep.
  - unfold check_strategy_exits, strategy_exit_round. keep.
  - unfold check_pre_close, minutes_until_market_close_naive,
      force_close_round. keep.
Qed.

End WithOutside.

(** C3: an exit, run on the code.  The position was marked for exit
    with the signal STOP_LOSS; [check_strategy_exits] sells the 19 ACME
    at the market, archives the trade as a LOSS with the reason
    STOP_LOSS and removes the position.  The signals table, where
    cooldowns are stored, is as before: the pair (ACME, RSI) is on no
    cooldown and the same signal can be added to KIV at once, where
    [set_cooldown] with the reason STOP_LOSS would have locked the pair
    for 60 minutes. *)
Theorem exit_sets_no_cooldown :
  let run := check_strategy_exits t0 marked_for_exit in
  let after := db (fst run) in
  let later := (t0 + Time.second)%Z in
  match snd run with
  | Eff.Return exits =>
      map x_ticker exits = ["ACME"] /\ map x_reason exits = ["STOP_LOSS"]
  | Eff.Raise _ => False
  end /\
  map Broker.side (submitted (outside (fst run))) = [Broker.SELL] /\
  positions after = [] /\
  map History.win_loss (trade_history after) = ["LOSS"] /\
  map History.exit_reason (trade_history after) = ["STOP_LOSS"] /\
  signals after = signals (db marked_for_exit) /\
  Cooldown.is_on_cooldown later "ACME" "RSI" (signals after) = None /\
  Processor.add_status
    (snd (Processor.add_to_kiv later "ACME" "RSI" 10 10 (102 # 10)
            (105 # 10) (98 # 10) 75 (signals after))) = "ADDED" /\
  Cooldown.is_on_cooldown later "ACME" "RSI"
    (Cooldown.set_cooldown Cooldown.default "1793736000.0" t0 "ACME" "RSI"
       "STOP_LOSS" None (signals after))
  = Some (t0 + Time.minutes 60)%Z.
Proof. vm_compute. repeat split; reflexivity. Qed.

(** The two other paths sell nothing.  [check_stop_losses] raises at
    its query, which names a column the table does not have, and
    [check_pre_close] raises where it subtracts its naive clock reading
    from the closing time: the position, the trade history, the orders
    sent and the signals are as before. *)
Example stop_loss_and_pre_close_raise :
  check_stop_losses t0 after_entry
  = (after_entry, Eff.Raise "OperationalError") /\
  check_pre_close default t0 after_entry
  = (after_entry, Eff.Raise "TypeError").
Proof. vm_compute. split; reflexivity. Qed.

End MonitorFacts.

(** ** Reconciler *)

Module ReconcilerFacts.
Import Broker Executor Reconciler Scenario.

(** *** The two heals, on the table *)

Lemma fix_prices_map (items : list PriceItem) (t : Positions.table) :
  fix_prices items t = map (heal_row items) t.
Proof.
  unfold fix_prices, heal_row. revert t.
  induction items as [|item items IH]; intros t; simpl.
  - now rewrite map_id.
  - rewrite IH, map_map. reflexivity.
Qed.

Lemma heal_row_ticket (items : list PriceItem) (r : Positions.Position) :
  Positions.ticket_id (heal_row items r) = Positions.ticket_id r.
Proof.
  revert r. induction items as [|item items IH]; intros r; simpl;
    [reflexivity|].
  unfold heal_row in *. simpl. rewrite IH.
  now destruct (Positions.has_ticket (mp_local_id item) r).
Qed.

Lemma heal_row_other (items : list PriceItem) (r : Positions.Position) :
  (forall item, In item items ->
                mp_local_id item <> Positions.ticket_id r) ->
  heal_row items r = r.
Proof.
  revert r. induction items as [|item items IH]; intros r Hno;
    [reflexivity|].
  unfold heal_row in *. simpl.
  destruct (Positions.has_ticket (mp_local_id item) r) eqn:E.
  - apply String.eqb_eq in E. exfalso.
    apply (Hno item (or_introl eq_refl)). now symmetry.
  - apply IH. intros i Hi. apply Hno. now right.
Qed.

(** An item with a key of its own sets the price of its row. *)
Lemma heal_row_price (items : list PriceItem) (item : PriceItem)
    (r : Positions.Position) :
  NoDup (map mp_local_id items) -> In item items ->
  mp_local_id item = Positions.ticket_id r ->
  Positions.entry_price (heal_row items r) = mp_alpaca_price item.
Proof.
  revert r. induction items as [|i items IH]; intros r Hnd Hin Hid;
    [contradiction|].
  inversion Hnd as [|? ? Hnotin Hnd']; subst.
  unfold heal_row in *. simpl. destruct Hin as [->|Hin].
  - assert (Hhit : Positions.has_ticket (mp_local_id item) r = true)
      by (unfold Positions.has_ticket; rewrite Hid; apply String.eqb_refl).
    rewrite Hhit.
    fold (heal_row items (Positions.set_entry_price (mp_alpaca_price item) r)).
    rewrite heal_row_other; [reflexivity|].
    intros j Hj Heq. apply Hnotin. simpl in Heq.
    rewrite Hid, <- Heq. now apply in_map.
  - apply IH; [assumption|assumption|].
    now destruct (Positions.has_ticket (mp_local_id i) r).
Qed.

Lemma fix_prices_tickets (items : list PriceItem) (t : Positions.table) :
  map Positions.ticket_id (fix_prices items t) = map Positions.ticket_id t.
Proof.
  rewrite fix_prices_map, map_map. apply map_ext, heal_row_ticket.
Qed.

Lemma fix_prices_price (items : list PriceItem) (t : Positions.table)
    (item : PriceItem) (r : Positions.Position) :
  NoDup (map mp_local_id items) -> In item items ->
  In r (fix_prices items t) ->
  Positions.ticket_id r = mp_local_id item ->
  Positions.entry_price r = mp_alpaca_price item.
Proof.
  intros Hnd Hin Hr Hid. rewrite fix_prices_map in Hr.
  apply in_map_iff in Hr as (r0 & <- & _).
  apply heal_row_price; [assumption|assumption|].
  rewrite heal_row_ticket in Hid. now symmetry.
Qed.

Lemma add_missing_app (now : Time.datetime) (items : list MissingItem) :
  forall t t', add_missing now items t = Some t' ->
               t' = t ++ map (reconciled_row now) items.
Proof.
  induction items as [|item items IH]; intros t t'; simpl.
  - intros [= <-]. now rewrite app_nil_r.
  - unfold Positions.insert.
    destruct (existsb _ t); [discriminate|].
    destruct (_ && _); [discriminate|].
    intros Hrest. rewrite (IH _ _ Hrest), <- app_assoc. reflexivity.
Qed.

(** An accepted row bears a ticket id that no row had. *)
Lemma add_missing_fresh (now : Time.datetime) (items : list MissingItem) :
  forall t t', add_missing now items t = Some t' ->
  forall item, In item items ->
    ~ In (Positions.ticket_id (reconciled_row now item))
         (map Positions.ticket_id t).
Proof.
  induction items as [|i items IH]; intros t t' Hadd item Hin;
    [contradiction|].
  simpl in Hadd. unfold Positions.insert in Hadd.
  destruct (existsb (Positions.has_ticket _) t) eqn:Hex; [discriminate|].
  destruct (_ && _); [discriminate|].
  destruct Hin as [->|Hin].
  - intros Hmem. apply in_map_iff in Hmem as (r & Hr & Hrin).
    assert (Htrue : existsb
              (Positions.has_ticket
                 (Positions.ticket_id (reconciled_row now item))) t = true).
    { apply existsb_exists. exists r. split; [assumption|].
      unfold Positions.has_ticket. rewrite Hr. apply String.eqb_refl. }
    congruence.
  - intros Hmem. apply (IH _ _ Hadd item Hin).
    rewrite map_app. apply in_or_app. now left.
Qed.

(** *** The classification *)

(** A selection of rows with distinct ticket ids has distinct ids. *)
Lemma distinct_tickets_filter (keep : Positions.Position -> bool)
    (t : Positions.table) :
  NoDup (map Positions.ticket_id t) ->
  NoDup (map Positions.ticket_id (filter keep t)).
Proof.
  intros Hnd. induction t as [|row t IH]; simpl; [constructor|].
  inversion Hnd as [|? ? Hfresh Hrest]; subst.
  destruct (keep row); simpl; [|now apply IH].
  constructor; [|now apply IH].
  intros Hin. apply Hfresh. apply in_map_iff in Hin as (y & Hy & Hyin).
  apply filter_In in Hyin as [Hyin _]. rewrite <- Hy. now apply in_map.
Qed.

(** The price items are the local rows [mismatched] selects, in order,
    each with the average entry price the broker lists. *)
Lemma classify_all_price_items (self : Reconciler)
    (alpaca : Py.dict Held) (local : list Positions.Position) :
  forall r0 r, classify_all self alpaca local r0 = Some r ->
  map mp_local_id (mismatch_price r)
  = map mp_local_id (mismatch_price r0)
    ++ map Positions.ticket_id (filter (mismatched self alpaca) local).
Proof.
  induction local as [|l local IH]; intros r0 r; simpl.
  - intros [= <-]. now rewrite app_nil_r.
  - unfold mismatched at 1.
    destruct (classify self alpaca l) as [c|] eqn:Hc; [|discriminate].
    intros Hrest. rewrite (IH _ _ Hrest).
    destruct c; simpl; try reflexivity.
    rewrite map_app, <- app_assoc. simpl.
    unfold classify in Hc.
    destruct (Py.get _ alpaca); [|discriminate].
    destruct (Qgtb _ (quantity_tolerance self)); [discriminate|].
    destruct (Qeq_bool _ 0); [discriminate|].
    destruct (Qgtb _ (price_tolerance_pct self)); [|discriminate].
    now injection Hc as <-.
Qed.

Lemma classify_all_total (self : Reconciler) (alpaca : Py.dict Held)
    (local : list Positions.Position) :
  (forall l, In l local -> ~ Positions.entry_price l == 0) ->
  forall r0, exists r, classify_all self alpaca local r0 = Some r.
Proof.
  induction local as [|l local IH]; intros Hpos r0; simpl; [eauto|].
  assert (Hc : exists c, classify self alpaca l = Some c).
  { unfold classify. destruct (Py.get _ alpaca); [|eauto].
    destruct (Qgtb _ (quantity_tolerance self)); [eauto|].
    destruct (Qeq_bool (Positions.entry_price l) 0) eqn:Ez.
    - apply Qeq_bool_iff in Ez. now elim (Hpos l (or_introl eq_refl)).
    - destruct (Qgtb _ (price_tolerance_pct self)); eauto. }
  destruct Hc as [c ->]. apply IH. intros l' Hl'. apply Hpos. now right.
Qed.

(** The loop over the local rows leaves [missing_in_local] alone. *)
Lemma classify_all_missing (self : Reconciler) (alpaca : Py.dict Held)
    (local : list Positions.Position) :
  forall r0 r, classify_all self alpaca local r0 = Some r ->
               missing_in_local r = missing_in_local r0.
Proof.
  induction local as [|l local IH]; intros r0 r; simpl.
  - now intros [= <-].
  - destruct (classify self alpaca l) as [c|]; [|discriminate].
    intros Hrest. rewrite (IH _ _ Hrest). now destruct c.
Qed.

(** A missing item is a position the broker lists, with its quantity
    and price, for a ticker no local row trades. *)
Lemma find_missing_in_local_spec (alpaca : Py.dict Held)
    (local : list Positions.Position) (item : MissingItem) :
  In item (find_missing_in_local alpaca local) ->
  exists h,
    In (ml_ticker item, h) alpaca /\
    alpaca_qty item = held_qty h /\
    alpaca_price item = avg_entry_price h /\
    forall l, In l local -> Positions.ticker l <> ml_ticker item.
Proof.
  unfold find_missing_in_local. intros Hin.
  apply in_flat_map in Hin as ([tk h] & Hkv & Hitem). cbn [fst snd] in Hitem.
  destruct (existsb _ local) eqn:Hex; [contradiction|].
  destruct Hitem as [<-|[]]. exists h. cbn. repeat split; try assumption.
  intros l Hl Heq.
  assert (Htrue : existsb (fun l0 => String.eqb (Positions.ticker l0) tk) local
                  = true).
  { apply existsb_exists. exists l. split; [assumption|].
    now apply String.eqb_eq. }
  congruence.
Qed.

(** *** The run *)

Section WithOutside.
Context {E : Type} `{Outside E}.

(** [reconcile_all], step by step *)
Lemma reconcile_all_run (self : Reconciler) (now : Time.datetime)
    (w : World E) :
  reconcile_all self now w
  = match survey self
            (alpaca_dict (snd (get_all_positions (outside w))))
            (filter Positions.is_open (positions (db w))) with
    | None => (answered w, Eff.Raise "ZeroDivisionError")
    | Some results =>
        let status := fst (_determine_status results) in
        let message := snd (_determine_status results) in
        let report :=
          {| status := status; message := message; results := results |} in
        if heals status then
          match add_missing now (missing_in_local results)
                  (fix_prices (mismatch_price results) (positions (db w)))
          with
          | None => (answered w, Eff.Raise "IntegrityError")
          | Some t' =>
              (with_db (logged now status message)
                 (with_db (with_positions t') (answered w)),
               Eff.Return report)
          end
        else
          (with_db (logged now status message) (answered w),
           Eff.Return report)
    end.
Proof.
  unfold reconcile_all, _get_local_positions, _get_alpaca_positions,
    _auto_reconcile, _log_reconciliation, answered, ask,
    Eff.bind, Eff.try_, Eff.gets, Eff.modify, Eff.ret, Eff.raise.
  destruct (get_all_positions (outside w)) as [e' [held|]];
    cbn [fst snd db outside pending_orders];
    destruct (survey _ _ _) as [results|]; try reflexivity;
    destruct (_determine_status results) as [status message];
    cbn [fst snd]; destruct (heals status); try reflexivity;
    destruct (add_missing _ _ _); reflexivity.
Qed.

Lemma nonempty_true {A} (l : list A) : nonempty l = true <-> l <> [].
Proof. destruct l; simpl; split; congruence. Qed.

Lemma status_of (results : Results) :
  fst (_determine_status results)
  = if nonempty (mismatch_quantity results) then "CRITICAL"
    else if nonempty (missing_in_alpaca results) then "CRITICAL"
    else if nonempty (missing_in_local results) then "WARNING"
    else if nonempty (mismatch_price results) then "DEGRADED"
    else "OK".
Proof.
  unfold _determine_status.
  destruct (nonempty (mismatch_quantity results)); [reflexivity|].
  destruct (nonempty (missing_in_alpaca results)); [reflexivity|].
  destruct (nonempty (missing_in_local results)); [reflexivity|].
  destruct (nonempty (mismatch_price results)); reflexivity.
Qed.

(** C4 (amended): on a ledger whose ticket ids are distinct and whose
    OPEN positions have a non-zero entry price, [reconcile_all]
    classifies and then: if a quantity differs, or a local position is
    missing at the broker, it returns CRITICAL and leaves the positions
    as they were; otherwise, if a broker position is missing locally, it
    returns WARNING and the table is the price-healed table followed by
    one OPEN row per missing position, with the broker's quantity and
    price, the strategy RECONCILED and a ticket id no row had (a row
    the table refuses raises IntegrityError and nothing is written);
    otherwise, if a price differs beyond the tolerance, it returns
    DEGRADED and the table is the price-healed table; otherwise the
    status is OK and the table is unchanged.  In the price-healed table
    the row of each price item has the broker's price as entry price. *)
Theorem reconcile_all_ladder (self : Reconciler) (now : Time.datetime)
    (w : World E) :
  NoDup (map Positions.ticket_id (positions (db w))) ->
  (forall p, In p (positions (db w)) -> Positions.is_open p = true ->
             ~ Positions.entry_price p == 0) ->
  let before := positions (db w) in
  let alpaca := alpaca_dict (snd (get_all_positions (outside w))) in
  let run := reconcile_all self now w in
  let after := positions (db (fst run)) in
  let returns st results :=
    exists message,
      snd run = Eff.Return {| status := st; message := message;
                              results := results |} in
  exists results,
    survey self alpaca (filter Positions.is_open before) = Some results /\
    (mismatch_quantity results <> [] \/ missing_in_alpaca results <> [] ->
     returns "CRITICAL" results /\ after = before) /\
    (mismatch_quantity results = [] -> missing_in_alpaca results = [] ->
     missing_in_local results <> [] ->
     match add_missing now (missing_in_local results)
             (fix_prices (mismatch_price results) before) with
     | Some _ =>
         returns "WARNING" results /\
         after = fix_prices (mismatch_price results) before
                 ++ map (reconciled_row now) (missing_in_local results) /\
         forall item, In item (missing_in_local results) ->
           exists h,
             In (ml_ticker item, h) alpaca /\
             Positions.quantity (reconciled_row now item) = held_qty h /\
             Positions.entry_price (reconciled_row now item)
             = avg_entry_price h /\
             Positions.strategy (reconciled_row now item) = "RECONCILED" /\
             Positions.status (reconciled_row now item) = Positions.OPEN /\
             ~ In (Positions.ticket_id (reconciled_row now item))
                  (map Positions.ticket_id before)
     | None => snd run = Eff.Raise "IntegrityError" /\ after = before
     end) /\
    (mismatch_quantity results = [] -> missing_in_alpaca results = [] ->
     missing_in_local results = [] -> mismatch_price results <> [] ->
     returns "DEGRADED" results /\
     after = fix_prices (mismatch_price results) before) /\
    (mismatch_quantity results = [] -> missing_in_alpaca results = [] ->
     missing_in_local results = [] -> mismatch_price results = [] ->
     returns "OK" results /\ after = before) /\
    (forall item r,
       In item (mismatch_price results) ->
       In r (fix_prices (mismatch_price results) before) ->
       Positions.ticket_id r = mp_local_id item ->
       Positions.entry_price r = mp_alpaca_price item).
Proof.
  intros Hnd Hpos before alpaca run after returns.
  destruct (classify_all_total self alpaca (filter Positions.is_open before))
    with (r0 := empty) as [r Hr].
  { intros l Hl. apply filter_In in Hl as [Hl Ho]. now apply Hpos. }
  assert (Hs : survey self alpaca (filter Positions.is_open before)
               = Some (with_missing_in_local
                         (find_missing_in_local alpaca
                            (filter Positions.is_open before)) r))
    by (unfold survey; now rewrite Hr).
  eexists. split; [exact Hs|].
  set (results := with_missing_in_local _ r) in *.
  pose proof (reconcile_all_run self now w) as Hrun.
  fold before alpaca in Hrun. rewrite Hs in Hrun. cbv zeta in Hrun.
  pose proof (status_of results) as Hst.
  subst returns after run. cbv beta.
  assert (Hcalm : forall st, st <> "WARNING" -> st <> "DEGRADED" ->
                             heals st = false).
  { intros st H1 H2. unfold heals.
    apply String.eqb_neq in H1, H2. now rewrite H1, H2. }
  refine (conj _ (conj _ (conj _ (conj _ _)))).
  - (* CRITICAL *)
    intros Hcrit.
    assert (Hc : fst (_determine_status results) = "CRITICAL").
    { rewrite Hst. destruct Hcrit as [Hq|Ha].
      - apply nonempty_true in Hq. now rewrite Hq.
      - apply nonempty_true in Ha. rewrite Ha.
        now destruct (nonempty (mismatch_quantity results)). }
    rewrite Hc in Hrun. rewrite Hcalm in Hrun by discriminate.
    rewrite Hrun. cbn. eauto.
  - (* WARNING *)
    intros Hq Ha Hl. apply nonempty_true in Hl.
    rewrite Hq, Ha, Hl in Hst. cbn [nonempty] in Hst.
    rewrite Hst in Hrun. change (heals "WARNING") with true in Hrun.
    destruct (add_missing now (missing_in_local results)
                (fix_prices (mismatch_price results) before))
      as [t'|] eqn:Hadd; rewrite Hrun; cbn [fst snd].
    + split; [eauto|]. split.
      * cbn. now apply add_missing_app.
      * intros item Hin.
        destruct (find_missing_in_local_spec alpaca
                    (filter Positions.is_open before) item)
          as (h & Hh & Hqty & Hprice & _).
        { exact Hin. }
        exists h. repeat split; try assumption.
        rewrite <- (fix_prices_tickets (mismatch_price results) before).
        exact (add_missing_fresh now _ _ _ Hadd item Hin).
    + split; reflexivity.
  - (* DEGRADED *)
    intros Hq Ha Hl Hp. apply nonempty_true in Hp.
    rewrite Hq, Ha, Hl, Hp in Hst. cbn [nonempty] in Hst.
    rewrite Hst in Hrun. change (heals "DEGRADED") with true in Hrun.
    rewrite Hl in Hrun. cbn [add_missing] in Hrun. rewrite Hrun. cbn. eauto.
  - (* OK *)
    intros Hq Ha Hl Hp.
    rewrite Hq, Ha, Hl, Hp in Hst. cbn [nonempty] in Hst.
    rewrite Hst in Hrun. rewrite Hcalm in Hrun by discriminate.
    rewrite Hrun. cbn. eauto.
  - (* the healed prices *)
    intros item row Hin Hrow Hid.
    apply (fix_prices_price (mismatch_price results) before item row);
      try assumption.
    pose proof (classify_all_price_items self alpaca _ _ _ Hr) as Hids.
    cbn in Hids. subst results. cbn [mismatch_price with_missing_in_local].
    rewrite Hids. now apply distinct_tickets_filter, distinct_tickets_filter.
Qed.

End WithOutside.

(** C4, as the claim words it, fails: no quantity differs and the
    broker lists a position the ledger does not hold, yet the run is
    CRITICAL, because a local position is missing at the broker, and no
    row is inserted. *)
Lemma missing_both_ways_counterexample :
  let run := reconcile_all default t0 drifted in
  match snd run with
  | Eff.Return report =>
      status report = "CRITICAL" /\
      mismatch_quantity (results report) = [] /\
      map ml_ticker (missing_in_local (results report)) = ["ZETA"] /\
      map Positions.ticker (missing_in_alpaca (results report)) = ["ACME"]
  | Eff.Raise _ => False
  end /\
  positions (db (fst run)) = positions (db drifted).
Proof. vm_compute. repeat split; reflexivity. Qed.

Lemma reconcile_all_ladder_witness :
  NoDup (map Positions.ticket_id (positions (db behind))) /\
  (forall p, In p (positions (db behind)) -> Positions.is_open p = true ->
             ~ Positions.entry_price p == 0) /\
  map Positions.ticket_id
    (positions (db (fst (reconcile_all default t0 behind))))
  = ["RCL-ZETA-20261103200000"] /\
  map Positions.strategy
    (positions (db (fst (reconcile_all default t0 behind))))
  = ["RECONCILED"].
Proof.
  assert (Hnd : NoDup (map Positions.ticket_id (positions (db behind))))
    by constructor.
  assert (Hpos : forall p, In p (positions (db behind)) ->
                           Positions.is_open p = true ->
                           ~ Positions.entry_price p == 0)
    by (intros p []).
  split; [exact Hnd|]. split; [exact Hpos|].
  destruct (reconcile_all_ladder default t0 behind Hnd Hpos)
    as (results & Hs & _ & Hwarn & _).
  vm_compute in Hs. injection Hs as <-.
  specialize (Hwarn eq_refl eq_refl ltac:(discriminate)).
  cbn [add_missing missing_in_local mismatch_price fix_prices fold_left
       Positions.insert existsb andb] in Hwarn.
  destruct Hwarn as (_ & Hafter & _).
  rewrite Hafter. vm_compute. split; reflexivity.
Defined.

End ReconcilerFacts.

(** ** Cooldowns *)

Module CooldownFacts.
Import Signals Cooldown Processor Scenario.



Lemma of_pair_set_cooldown_until (tk st : string)
    (c : option Time.datetime) (r : Signal) :
  of_pair tk st (set_cooldown_until c r) = of_pair tk st r.
Proof. reflexivity. Qed.






(** What [clear_cooldown] does to a row. *)
Lemma clear_cooldown_rows (tk st : string) (t : table) (r : Signal) :
  In r (fst (clear_cooldown tk st t)) ->
  exists r0, In r0 t /\
    r = (if of_pair tk st r0 then set_cooldown_until None r0 else r0).
Proof.
  unfold clear_cooldown, update. cbn [fst]. intros Hin.
  apply in_map_iff in Hin as (r0 & <- & Hin). now exists r0.
Qed.

Lemma of_pair_other (tk st tk' st' : string) (r : Signal) :
  (tk', st') <> (tk, st) ->
  of_pair tk st r = true -> of_pair tk' st' r = false.
Proof.
  unfold of_pair. intros Hne Hp.
  apply andb_true_iff in Hp as [Ht Hs].
  apply String.eqb_eq in Ht, Hs.
  destruct (String.eqb_spec (ticker r) tk'),
           (String.eqb_spec (strategy r) st'); try reflexivity.
  exfalso. apply Hne. congruence.
Qed.

(** X2: [clear_cooldown] ends the cooldown of its pair at every instant,
    leaves the cooldown of every other pair and every status as they
    were, and answers [False] exactly when the pair has no row. *)
Theorem clear_cooldown_scope (tk st : string) (t : table) :
  let t' := fst (clear_cooldown tk st t) in
  (forall now, is_on_cooldown now tk st t' = None) /\
  (forall now tk' st', (tk', st') <> (tk, st) ->
     is_on_cooldown now tk' st' t' = is_on_cooldown now tk' st' t) /\
  map status t' = map status t /\
  snd (clear_cooldown tk st t) = existsb (of_pair tk st) t.
Proof.
  cbv zeta. repeat split.
  - intros now. apply ProcessorFacts.not_cooling. intros r Hin.
    apply clear_cooldown_rows in Hin as (r0 & _ & ->).
    unfold cooling. destruct (of_pair tk st r0) eqn:Hp.
    + rewrite of_pair_set_cooldown_until, Hp. reflexivity.
    + now rewrite Hp.
  - intros now tk' st' Hne. unfold is_on_cooldown, clear_cooldown, update.
    cbn [fst]. f_equal.
    induction t as [|x t IH]; [reflexivity|]. cbn [map filter].
    rewrite IH. destruct (of_pair tk st x) eqn:Hp; [|reflexivity].
    unfold cooling. rewrite of_pair_set_cooldown_until.
    now rewrite (of_pair_other tk st tk' st' x Hne Hp).
  - unfold clear_cooldown, update. cbn [fst]. rewrite map_map.
    apply map_ext. intros r. now destruct (of_pair tk st r).
  - unfold clear_cooldown, rowcount. cbn [snd].
    induction t as [|x t IH]; [reflexivity|]. cbn [filter existsb].
    destruct (of_pair tk st x); [reflexivity|exact IH].
Qed.

Lemma clear_cooldown_scope_witness :
  let t := signals busy_db in
  let t' := fst (clear_cooldown "ZETA" "RSI" t) in
  snd (clear_cooldown "ZETA" "RSI" t) = false /\
  is_on_cooldown t0 "ACME" "RSI" t' = Some (t0 + Time.minutes 30)%Z /\
  is_on_cooldown t0 "ACME" "RSI"
    (fst (clear_cooldown "ACME" "RSI" t)) = None.
Proof.
  intros t t'.
  destruct (clear_cooldown_scope "ZETA" "RSI" t) as (_ & Hother & _ & Hans).
  destruct (clear_cooldown_scope "ACME" "RSI" t) as (Hclear & _).
  split; [exact Hans|]. split; [|exact (Hclear t0)].
  unfold t'. rewrite (Hother t0 "ACME" "RSI"); [reflexivity|discriminate].
Defined.

End CooldownFacts.

(** ** The ignore list *)

Module IgnoreFacts.
Import Ignore.


Lemma find_map_named (tk : string) (f : Entry -> Entry) (l : list Entry) :
  (forall e, ticker (f e) = ticker e) ->
  find (named tk) (map f l) = option_map f (find (named tk) l).
Proof.
  intros Hf. induction l as [|x l IH]; [reflexivity|]. cbn [map find].
  unfold named at 1. rewrite Hf. fold (named tk x).
  destruct (named tk x); [reflexivity|exact IH].
Qed.


Lemma find_named_none (tk : string) (l : list Entry) :
  find (named tk) l = None -> forall e, In e l -> named tk e = false.
Proof.
  induction l as [|x l IH]; cbn; intros Hf e He; [contradiction|].
  destruct (named tk x) eqn:Hx; [discriminate|].
  destruct He as [<-|He]; auto.
Qed.

Lemma named_other (tk tk' : string) (e : Entry) :
  tk' <> tk -> named tk e = true -> named tk' e = false.
Proof.
  unfold named. intros Hne He. apply String.eqb_eq in He.
  apply String.eqb_neq. congruence.
Qed.


Lemma find_filter_other (p : Entry -> bool) (tk : string)
    (l : list Entry) :
  (forall e, named tk e = true -> p e = false) ->
  find p (filter (fun e => negb (named tk e)) l) = find p l.
Proof.
  intros Hp. induction l as [|x l IH]; [reflexivity|]. cbn [filter find].
  destruct (named tk x) eqn:Hx; cbn [negb].
  - now rewrite (Hp x Hx).
  - cbn [find]. destruct (p x); [reflexivity|exact IH].
Qed.

(** The shape of a table after [add]: every entry of the ticker expires
    at one instant, and the first of them bears the new level, with the
    reason and the scope of the entry that was there before, if any. *)
Lemma add_shape (now : Time.datetime) (tk reason_ scope_ : string)
    (t t' : list Entry) :
  add now tk reason_ scope_ t = Some t' ->
  exists d first,
    backoff_map (Z.min (get_backoff_level tk t + 1) 4) = Some d /\
    find (named tk) t' = Some first /\
    backoff_level first = Z.min (get_backoff_level tk t + 1) 4 /\
    reason_code first
    = match find (named tk) t with
      | Some e => reason_code e
      | None => reason_
      end /\
    scope first
    = match find (named tk) t with
      | Some e => scope e
      | None => scope_
      end /\
    forall e, In e t' -> named tk e = true -> ttl_utc e = (now + d)%Z.
Proof.
  unfold add, get_backoff_level.
  destruct (find (named tk) t) as [existing|] eqn:Hfind.
  - destruct (backoff_map _) as [d|] eqn:Hd; [|discriminate].
    intros [= <-]. exists d.
    exists (backed_off (retry_count existing + 1)
              (Z.min (backoff_level existing + 1) 4) (now + d)%Z existing).
    repeat split.
    + rewrite (find_map_named tk
                 (fun e => if named tk e
                           then backed_off (retry_count existing + 1)
                                  (Z.min (backoff_level existing + 1) 4)
                                  (now + d)%Z e
                           else e))
        by (intros e; now destruct (named tk e)).
      rewrite Hfind. cbn [option_map].
      apply find_some in Hfind as [_ Hn]. now rewrite Hn.
    + intros e He Hn. apply in_map_iff in He as (e0 & <- & _).
      destruct (named tk e0) eqn:H0; [reflexivity|congruence].
  - cbn [backoff_map]. intros [= <-]. exists (Time.hours 1).
    exists {| ticker := tk; reason_code := reason_; scope := scope_;
              ttl_utc := (now + Time.hours 1)%Z;
              retry_count := 1; backoff_level := 1 |}.
    repeat split.
    + rewrite (ProcessorFacts.find_app_none _ t _ Hfind).
      unfold named at 1. cbn [ticker]. now rewrite String.eqb_refl.
    + intros e He Hn. apply in_app_or in He as [He|[<-|[]]];
        [|reflexivity].
      now rewrite (find_named_none tk t Hfind e He) in Hn.
Qed.



Lemma backoff_map_defined (level : Z) :
  (1 <= level <= 4)%Z -> exists d, backoff_map level = Some d /\ (0 < d)%Z.
Proof.
  intros Hl.
  assert (Hcases : level = 1%Z \/ level = 2%Z \/ level = 3%Z \/ level = 4%Z)
    by lia.
  destruct Hcases as [-> | [-> | [-> | ->]]]; eexists; split;
    try reflexivity; reflexivity.
Qed.

(** X4: On a table whose levels lie between 1 and 4, [add] never raises,
    keeps the levels between 1 and 4, and never lowers the level of a
    ticker: the level grows by one until it is 4 and stays there. *)
Theorem add_keeps_levels (now : Time.datetime)
    (tk reason_ scope_ : string) (t : list Entry) :
  levels_ok t ->
  exists t',
    add now tk reason_ scope_ t = Some t' /\
    levels_ok t' /\
    (get_backoff_level tk t <= get_backoff_level tk t' <= 4)%Z /\
    (get_backoff_level tk t < 4 ->
     get_backoff_level tk t' = get_backoff_level tk t + 1)%Z.
Proof.
  intros Hok.
  assert (Hlevel : (0 <= get_backoff_level tk t <= 4)%Z).
  { unfold get_backoff_level.
    destruct (find (named tk) t) as [e|] eqn:Hfind; [|lia].
    apply find_some in Hfind as [He _].
    unfold levels_ok in Hok. rewrite Forall_forall in Hok.
    specialize (Hok e He). lia. }
  assert (Hsome : exists t', add now tk reason_ scope_ t = Some t').
  { unfold add, get_backoff_level in *.
    destruct (find (named tk) t) as [e|]; [|cbn; eauto].
    destruct (backoff_map_defined (Z.min (backoff_level e + 1) 4))
      as (d & -> & _); [lia|eauto]. }
  destruct Hsome as [t' Hadd]. exists t'. split; [exact Hadd|].
  destruct (add_shape now tk reason_ scope_ t t' Hadd)
    as (d & first & _ & Hfirst & Hl & _).
  assert (Hnew : get_backoff_level tk t'
                 = Z.min (get_backoff_level tk t + 1) 4)
    by (unfold get_backoff_level at 1; now rewrite Hfirst).
  split; [|lia].
  unfold levels_ok in *. rewrite Forall_forall in *.
  unfold add, get_backoff_level in *.
  destruct (find (named tk) t) as [e0|].
  - destruct (backoff_map _); [|discriminate]. injection Hadd as <-.
    intros e He. apply in_map_iff in He as (e1 & <- & He1).
    destruct (named tk e1); [cbn; lia|now apply Hok].
  - cbn [backoff_map] in Hadd. injection Hadd as <-.
    intros e He. apply in_app_or in He as [He|[<-|[]]];
      [now apply Hok|cbn; lia].
Qed.

Lemma add_keeps_levels_witness :
  let t := [ {| ticker := "ACME"; reason_code := "STALE_DATA";
                scope := "RSI"; ttl_utc := 0%Z; retry_count := 4;
                backoff_level := 4 |} ] in
  levels_ok t /\
  exists t',
    add Scenario.t0 "ACME" "WIDE_SPREAD" "ALL" t = Some t' /\
    levels_ok t' /\
    (get_backoff_level "ACME" t' <= 4)%Z.
Proof.
  intro t.
  assert (Hok : levels_ok t) by (repeat constructor; cbn; lia).
  split; [exact Hok|].
  destruct (add_keeps_levels Scenario.t0 "ACME" "WIDE_SPREAD" "ALL" t Hok)
    as (t' & Hadd & Hok' & Hle & _).
  exists t'. split; [exact Hadd|]. split; [exact Hok'|]. lia.
Defined.

(** X5: [reset] forgets the ticker: it is no longer ignored at any instant,
    its level is 0 again, and the next [add] starts over at level 1 and
    one hour; other tickers are not affected, and the answer is [False],
    with the table as it was, exactly when the ticker had no entry. *)
Theorem reset_forgets (tk : string) (t : list Entry) :
  let t' := fst (reset tk t) in
  (forall now, is_ignored now tk t' = None) /\
  get_backoff_level tk t' = 0%Z /\
  (forall now reason_ scope_,
     add now tk reason_ scope_ t'
     = Some (t' ++ [ {| ticker := tk; reason_code := reason_;
                        scope := scope_;
                        ttl_utc := (now + Time.hours 1)%Z;
                        retry_count := 1; backoff_level := 1 |} ])) /\
  (forall tk' now, tk' <> tk ->
     is_ignored now tk' t' = is_ignored now tk' t /\
     get_backoff_level tk' t' = get_backoff_level tk' t) /\
  snd (reset tk t) = existsb (named tk) t /\
  (snd (reset tk t) = false -> t' = t).
Proof.
  cbv zeta. unfold reset. cbn [fst snd].
  assert (Hgone : forall p,
            (forall e, p e = true -> named tk e = true) ->
            find p (filter (fun e => negb (named tk e)) t) = None).
  { intros p Hp. destruct (find p _) as [e|] eqn:Hfind; [|reflexivity].
    apply find_some in Hfind as [He Hpe].
    apply filter_In in He as [_ Hn]. rewrite (Hp e Hpe) in Hn.
    discriminate. }
  repeat split.
  - intros now. unfold is_ignored. rewrite Hgone; [reflexivity|].
    intros e He. now apply andb_true_iff in He as [He _].
  - unfold get_backoff_level. now rewrite Hgone.
  - intros now reason_ scope_. unfold add. now rewrite Hgone.
  - unfold is_ignored. rewrite find_filter_other; [reflexivity|].
    intros e He. fold (named tk' e).
    now rewrite (named_other tk tk' e H He).
  - unfold get_backoff_level. rewrite find_filter_other; [reflexivity|].
    intros e He. now apply (named_other tk tk' e).
  - clear Hgone. induction t as [|x t IH]; [reflexivity|].
    cbn [filter existsb].
    destruct (named tk x); [reflexivity|exact IH].
  - clear Hgone. intros Hnone. induction t as [|x t IH]; [reflexivity|].
    cbn [filter] in *. destruct (named tk x); [discriminate|].
    cbn [negb]. f_equal. now apply IH.
Qed.

Lemma reset_forgets_witness :
  let t := [ {| ticker := "ACME"; reason_code := "STALE_DATA";
                scope := "RSI"; ttl_utc := (Scenario.t0 + Time.hours 4)%Z;
                retry_count := 2; backoff_level := 2 |} ] in
  fst (reset "ZETA" t) = t /\
  is_ignored Scenario.t0 "ACME" (fst (reset "ZETA" t))
  = Some {| reason := "STALE_DATA"; info_scope := "RSI" |} /\
  is_ignored Scenario.t0 "ACME" (fst (reset "ACME" t)) = None.
Proof.
  intro t.
  destruct (reset_forgets "ZETA" t) as (_ & _ & _ & Hother & _ & Hsame).
  destruct (reset_forgets "ACME" t) as (Hgone & _).
  split; [apply Hsame; reflexivity|]. split; [|exact (Hgone Scenario.t0)].
  rewrite (proj1 (Hother "ACME" Scenario.t0 ltac:(discriminate))).
  reflexivity.
Defined.

End IgnoreFacts.

(** ** The signal queue *)

Module QueueFacts.
Import Signals Processor Scenario.

(** *** The ranked list of confirmed signals *)

Lemma insert_desc_same_rows (r : Signal) (l : list Signal) :
  Permutation (insert_desc r l) (r :: l).
Proof.
  induction l as [|x l IH]; cbn [insert_desc]; [reflexivity|].
  destruct (Qle_bool (score x) (score r)); [reflexivity|].
  rewrite IH. apply perm_swap.
Qed.

Lemma order_same_rows (l : list Signal) :
  Permutation (order_by_confidence_desc l) l.
Proof.
  induction l as [|x l IH]; cbn; [reflexivity|].
  rewrite insert_desc_same_rows. now constructor.
Qed.

Lemma insert_desc_ranked (r : Signal) (l : list Signal) :
  StronglySorted ranks_before l ->
  StronglySorted ranks_before (insert_desc r l).
Proof.
  induction l as [|x l IH]; intros Hs; cbn [insert_desc].
  - repeat constructor.
  - apply StronglySorted_inv in Hs as [Hl Hx].
    destruct (Qle_bool (score x) (score r)) eqn:Hc.
    + apply Qle_bool_iff in Hc. constructor.
      * constructor; assumption.
      * constructor; [exact Hc|].
        rewrite Forall_forall in *. intros y Hy.
        unfold ranks_before in *. eapply Qle_trans; [apply Hx, Hy|exact Hc].
    + constructor; [now apply IH|].
      assert (Hr : ranks_before x r).
      { unfold ranks_before. apply Qlt_le_weak, Qnot_le_lt.
        intros Hle. apply Qle_bool_iff in Hle. congruence. }
      rewrite Forall_forall in *. intros y Hy.
      apply (Permutation_in _ (insert_desc_same_rows r l)) in Hy.
      destruct Hy as [<-|Hy]; [exact Hr|now apply Hx].
Qed.

Lemma order_ranked (l : list Signal) :
  StronglySorted ranks_before (order_by_confidence_desc l).
Proof.
  induction l as [|x l IH]; cbn; [constructor|now apply insert_desc_ranked].
Qed.

(** A row of the updated view is selected when the stored row is
    eligible, and is then the stored row. *)
Lemma view_row (cutoff : Time.datetime) (min_confidence : Q) (x : Signal) :
  let x' := if stale_confirmed cutoff x then set_status EXPIRED x else x in
  confident min_confidence x' = eligible cutoff min_confidence x /\
  (confident min_confidence x' = true -> x' = x).
Proof.
  unfold stale_confirmed, eligible, confident.
  destruct (status x) eqn:Hs; cbn [status_eqb andb]; rewrite ?Hs;
    cbn [status_eqb andb]; try (split; [reflexivity|discriminate]).
  destruct (trigger_time x <? cutoff)%Z; cbn [negb status set_status].
  - cbn [status_eqb andb]. rewrite andb_false_r. split;
      [reflexivity|discriminate].
  - rewrite Hs. cbn [status_eqb andb]. rewrite andb_true_r.
    split; reflexivity.
Qed.

Lemma confident_view (cutoff : Time.datetime) (min_confidence : Q)
    (t : table) :
  filter (confident min_confidence)
    (update (stale_confirmed cutoff) (set_status EXPIRED) t)
  = filter (eligible cutoff min_confidence) t.
Proof.
  unfold update. induction t as [|x t IH]; [reflexivity|].
  cbn [map filter]. rewrite IH.
  destruct (view_row cutoff min_confidence x) as [Hsel Hsame].
  cbv zeta in *. rewrite <- Hsel.
  destruct (confident min_confidence _) eqn:Hc; [|reflexivity].
  now rewrite (Hsame eq_refl).
Qed.

(** X6: [get_confirmed_signals] returns the stored rows that are CONFIRMED,
    not older than the confirmed timeout and of at least the minimum
    confidence: each of them once and nothing else, in an order of
    descending confidence; the stored table is as before. *)
Theorem get_confirmed_signals_ranked (self : SignalProcessor)
    (now : Time.datetime) (min_confidence : Q) (t : table) :
  let out := snd (get_confirmed_signals self now min_confidence t) in
  let cutoff := (now - Time.hours (confirmed_timeout_hours self))%Z in
  Permutation out (filter (eligible cutoff min_confidence) t) /\
  StronglySorted ranks_before out /\
  fst (get_confirmed_signals self now min_confidence t) = t.
Proof.
  cbv zeta. unfold get_confirmed_signals. cbn [fst snd].
  rewrite confident_view. split; [apply order_same_rows|].
  split; [apply order_ranked|reflexivity].
Qed.

(** *** One active signal per pair *)

Lemma update_ids (w : Signal -> bool) (b : Status) (t : table) :
  map signal_id (update w (set_status b) t) = map signal_id t.
Proof.
  unfold update. rewrite map_map. apply map_ext.
  intros r. now destruct (w r).
Qed.

Lemma update_active_le (tk st : string) (w : Signal -> bool) (b : Status)
    (t : table) :
  (forall r, In r t -> w r = true ->
     active_of tk st (set_status b r) = true ->
     active_of tk st r = true) ->
  (List.length (filter (active_of tk st) (update w (set_status b) t))
   <= List.length (filter (active_of tk st) t))%nat.
Proof.
  unfold update. induction t as [|x t IH]; intros Hw; [reflexivity|].
  cbn [map filter].
  assert (IH' := IH (fun r Hr => Hw r (or_intror Hr))).
  destruct (w x) eqn:Hwx.
  - destruct (active_of tk st (set_status b x)) eqn:Ha.
    + rewrite (Hw x (or_introl eq_refl) Hwx Ha). cbn [List.length]. lia.
    + destruct (active_of tk st x); cbn [List.length]; lia.
  - destruct (active_of tk st x); cbn [List.length]; lia.
Qed.

Lemma update_keeps_keys (w : Signal -> bool) (b : Status) (t : table) :
  (forall tk st r, In r t -> w r = true ->
     active_of tk st (set_status b r) = true ->
     active_of tk st r = true) ->
  well_keyed t -> well_keyed (update w (set_status b) t).
Proof.
  intros Hw [Hnd Hone]. split; [now rewrite update_ids|].
  intros tk st. etransitivity; [|apply (Hone tk st)].
  apply update_active_le. intros r. apply Hw.
Qed.

Lemma closing_keeps_keys (w : Signal -> bool) (b : Status) (t : table) :
  terminal b = true ->
  well_keyed t -> well_keyed (update w (set_status b) t).
Proof.
  intros Hb. apply update_keeps_keys. intros tk st r _ _ Ha.
  unfold active_of, active in Ha. cbn [status set_status] in Ha.
  destruct b; try discriminate; cbn in Ha; now rewrite andb_false_r in Ha.
Qed.

Lemma add_to_kiv_keeps_keys (now : Time.datetime) (tk st : string)
    (p1 p2 p3 p4 p5 c : Q) (t : table) :
  well_keyed t -> well_keyed (fst (add_to_kiv now tk st p1 p2 p3 p4 p5 c t)).
Proof.
  intros [Hnd Hone]. unfold add_to_kiv.
  destruct (Cooldown.is_on_cooldown now tk st t); [now split|].
  destruct (find _ t) eqn:Hfind; [now split|]. cbn [fst].
  pose proof (find_none _ _ Hfind) as Hno.
  split.
  - rewrite map_app. cbn [map kiv_row signal_id].
    apply (Permutation_NoDup (Permutation_cons_append _ _)).
    constructor; [|exact Hnd]. intros Hin.
    apply in_map_iff in Hin as (r & Hid & Hr).
    specialize (Hno r Hr). unfold duplicate in Hno.
    apply orb_false_iff in Hno as [Hno _].
    apply String.eqb_neq in Hno. congruence.
  - intros tk' st'. rewrite filter_app, length_app. cbn [filter].
    destruct (active_of tk' st' (kiv_row _ now tk st p1 p2 p3 p4 p5 c))
      eqn:Hnew; cbn [List.length]; [|specialize (Hone tk' st'); lia].
    unfold active_of, of_pair in Hnew. cbn in Hnew.
    rewrite andb_true_r in Hnew.
    apply andb_true_iff in Hnew as [Ht Hs].
    apply String.eqb_eq in Ht, Hs. subst tk' st'.
    replace (filter (active_of tk st) t) with (@nil Signal);
      [reflexivity|].
    symmetry. clear Hfind Hnd Hone.
    induction t as [|x t IH]; [reflexivity|]. cbn [filter].
    pose proof (Hno x (or_introl eq_refl)) as Hx.
    unfold duplicate in Hx. apply orb_false_iff in Hx as [_ Hx].
    unfold active_of. rewrite Hx. apply IH.
    intros r Hr. apply Hno. now right.
Qed.

Lemma check_confirmation_keeps_keys (self : SignalProcessor)
    (now : Time.datetime) (tk st : string) (price : Q) (t : table) :
  well_keyed t ->
  well_keyed (fst (check_confirmation self now tk st price t)).
Proof.
  intros Hk. unfold check_confirmation.
  destruct (newest _) as [row|] eqn:Hnew; [|exact Hk].
  destruct (Qgtb _ _); [now apply closing_keeps_keys|].
  destruct (bounced _ _); [|exact Hk]. cbn [fst].
  pose proof (ProcessorFacts.newest_kiv _ _ _ _ Hnew) as [_ Hkiv].
  apply ProcessorFacts.newest_In, filter_In in Hnew as [Hin _].
  apply update_keeps_keys; [|exact Hk].
  intros tk' st' r Hr Hid Ha. apply ProcessorFacts.has_id_eq in Hid.
  rewrite (ProcessorFacts.key_unique t r row (proj1 Hk) Hr Hin Hid) in *.
  unfold active_of, active in *. rewrite Hkiv. exact Ha.
Qed.

(** X7: The engine keeps its keys: on a table with one row per id and at
    most one KIV or CONFIRMED row per (ticker, strategy), each of
    [add_to_kiv], [check_confirmation], [cleanup_expired],
    [mark_executed] and [reject_signal] leaves a table with one row per
    id and at most one KIV or CONFIRMED row per pair. *)
Theorem engine_keeps_keys (self : SignalProcessor) (now : Time.datetime)
    (t : table) :
  well_keyed t ->
  (forall tk st p1 p2 p3 p4 p5 c,
     well_keyed (fst (add_to_kiv now tk st p1 p2 p3 p4 p5 c t))) /\
  (forall tk st price,
     well_keyed (fst (check_confirmation self now tk st price t))) /\
  well_keyed (fst (cleanup_expired self now t)) /\
  (forall sid ticket_id, well_keyed (fst (mark_executed sid ticket_id t))) /\
  (forall sid reason, well_keyed (fst (reject_signal sid reason t))).
Proof.
  intros Hk. split; [|split; [|split; [|split]]].
  - intros. now apply add_to_kiv_keeps_keys.
  - intros. now apply check_confirmation_keeps_keys.
  - unfold cleanup_expired. cbn [fst].
    apply closing_keeps_keys; [reflexivity|].
    now apply closing_keeps_keys.
  - intros. now apply closing_keeps_keys.
  - intros. now apply closing_keeps_keys.
Qed.

Lemma engine_keeps_keys_witness :
  let t := [acme "ACME_RSI_2026110319" (t0 - Time.hours 1)%Z KIV] in
  well_keyed t /\
  well_keyed (fst (add_to_kiv t0 "ZETA" "RSI" 10 10 (102 # 10) (105 # 10)
                     (98 # 10) 75 t)) /\
  well_keyed (fst (check_confirmation default t0 "ACME" "RSI"
                     (1011 # 100) t)).
Proof.
  intro t.
  assert (Hk : well_keyed t).
  { split; [repeat constructor; cbn; tauto|].
    intros tk st. cbn [t filter].
    destruct (active_of tk st _); cbn; lia. }
  split; [exact Hk|].
  destruct (engine_keeps_keys default t0 t Hk) as (Hadd & Hconf & _).
  split; [apply Hadd|apply Hconf].
Defined.

(** *** Looking a signal up by its id *)

Lemma lookup_updated (sid : string) (b : Status) (t : table) :
  get_signal_status sid (update (has_id sid) (set_status b) t)
  = option_map (set_status b) (get_signal_status sid t).
Proof.
  unfold get_signal_status, update.
  induction t as [|x t IH]; [reflexivity|]. cbn [map find].
  destruct (has_id sid x) eqn:Hx; [|now rewrite Hx].
  unfold has_id in *. cbn [signal_id set_status]. now rewrite Hx.
Qed.

Lemma lookup_other (sid sid' : string) (b : Status) (t : table) :
  sid' <> sid ->
  get_signal_status sid' (update (has_id sid) (set_status b) t)
  = get_signal_status sid' t.
Proof.
  intros Hne. unfold get_signal_status, update.
  induction t as [|x t IH]; [reflexivity|]. cbn [map find].
  destruct (has_id sid x) eqn:Hx.
  - apply ProcessorFacts.has_id_eq in Hx.
    assert (Hx' : has_id sid' x = false)
      by (unfold has_id; apply String.eqb_neq; congruence).
    assert (Hb : has_id sid' (set_status b x) = false) by exact Hx'.
    now rewrite Hb, Hx'.
  - destruct (has_id sid' x); [reflexivity|exact IH].
Qed.

Lemma rowcount_lookup (sid : string) (t : table) :
  Nat.ltb 0 (rowcount (has_id sid) t)
  = match get_signal_status sid t with Some _ => true | None => false end.
Proof.
  unfold rowcount, get_signal_status.
  induction t as [|x t IH]; [reflexivity|]. cbn [filter find].
  destruct (has_id sid x); [reflexivity|exact IH].
Qed.

Lemma update_missing (sid : string) (b : Status) (t : table) :
  get_signal_status sid t = None ->
  update (has_id sid) (set_status b) t = t.
Proof.
  unfold get_signal_status, update.
  induction t as [|x t IH]; [reflexivity|]. cbn [map find].
  destruct (has_id sid x); [discriminate|]. intros Hn. f_equal. now apply IH.
Qed.

(** X8: [mark_executed] and [reject_signal] address a signal by its id: the
    answer is [True] exactly when a row bears the id; a look-up of the
    id afterwards finds that row with status EXECUTED, respectively
    REJECTED, and nothing else changed; an unknown id changes nothing;
    the look-up of any other id is as before. *)
Theorem close_by_id (sid note : string) (t : table) :
  let closes (b : Status) (res : table * bool) :=
    get_signal_status sid (fst res)
    = option_map (set_status b) (get_signal_status sid t) /\
    snd res = match get_signal_status sid t with
              | Some _ => true
              | None => false
              end /\
    (snd res = false -> fst res = t) /\
    (forall sid', sid' <> sid ->
       get_signal_status sid' (fst res) = get_signal_status sid' t) in
  closes EXECUTED (mark_executed sid note t) /\
  closes REJECTED (reject_signal sid note t).
Proof.
  cbv zeta. unfold mark_executed, reject_signal. cbn [fst snd].
  rewrite !lookup_updated, !rowcount_lookup.
  repeat split; try (intros; now apply lookup_other);
    destruct (get_signal_status sid t) eqn:Hl; try discriminate;
    intros _; now apply update_missing.
Qed.

Lemma close_by_id_witness :
  let t := [acme "ACME_RSI_2026110319" (t0 - Time.hours 1)%Z CONFIRMED] in
  fst (mark_executed "ACME_RSI_2026110318" "TKT-1" t) = t /\
  get_signal_status "ACME_RSI_2026110319"
    (fst (reject_signal "ACME_RSI_2026110318" "late" t))
  = Some (acme "ACME_RSI_2026110319" (t0 - Time.hours 1)%Z CONFIRMED) /\
  option_map status
    (get_signal_status "ACME_RSI_2026110319"
       (fst (mark_executed "ACME_RSI_2026110319" "TKT-1" t)))
  = Some EXECUTED.
Proof.
  intro t.
  destruct (close_by_id "ACME_RSI_2026110318" "TKT-1" t)
    as ((_ & _ & Hmissing & _) & _).
  destruct (close_by_id "ACME_RSI_2026110318" "late" t)
    as (_ & (_ & _ & _ & Hother)).
  destruct (close_by_id "ACME_RSI_2026110319" "TKT-1" t)
    as ((Hfound & _) & _).
  split; [apply Hmissing; reflexivity|]. split.
  - rewrite (Hother "ACME_RSI_2026110319"); [reflexivity|discriminate].
  - rewrite Hfound. reflexivity.
Defined.

(** *** Expiry *)

Lemma update_none (w : Signal -> bool) (f : Signal -> Signal) (t : table) :
  (forall r, In r t -> w r = false) ->
  update w f t = t /\ rowcount w t = 0%nat.
Proof.
  unfold update, rowcount. induction t as [|x t IH]; intros Hw;
    [split; reflexivity|].
  cbn [map filter]. rewrite (Hw x (or_introl eq_refl)).
  destruct IH as [-> ->]; [|split; reflexivity].
  intros r Hr. apply Hw. now right.
Qed.

(** After [cleanup_expired] no row is a stale KIV or a stale CONFIRMED
    row, for the cutoffs of that clock reading. *)
Lemma cleanup_expired_clears (self : SignalProcessor) (now : Time.datetime)
    (t : table) (r : Signal) :
  In r (fst (cleanup_expired self now t)) ->
  stale_kiv (now - Time.hours (kiv_timeout_hours self))%Z r = false /\
  stale_confirmed (now - Time.hours (confirmed_timeout_hours self))%Z r
  = false.
Proof.
  unfold cleanup_expired, update. cbn [fst]. rewrite map_map.
  set (kc := (now - Time.hours (kiv_timeout_hours self))%Z).
  set (cc := (now - Time.hours (confirmed_timeout_hours self))%Z).
  intros Hr. apply in_map_iff in Hr as (r0 & <- & _).
  unfold stale_kiv, stale_confirmed.
  destruct (status r0) eqn:Hs, (trigger_time r0 <? kc)%Z eqn:Hk,
           (trigger_time r0 <? cc)%Z eqn:Hc;
    cbn [status_eqb andb status set_status trigger_time];
    repeat (rewrite ?Hs, ?Hk, ?Hc;
            cbn [status_eqb andb status set_status trigger_time]);
    split; reflexivity.
Qed.

(** X9: [cleanup_expired] is idempotent at one clock reading: every KIV row
    it leaves was triggered within the KIV timeout and every CONFIRMED
    row within the confirmed timeout, so a second run finds nothing,
    counts (0, 0) and leaves the table as the first run left it. *)
Theorem cleanup_expired_idempotent (self : SignalProcessor)
    (now : Time.datetime) (t : table) :
  let t' := fst (cleanup_expired self now t) in
  cleanup_expired self now t' = (t', (0%nat, 0%nat)) /\
  forall r, In r t' ->
    (status r = KIV ->
     (now - Time.hours (kiv_timeout_hours self) <= trigger_time r)%Z) /\
    (status r = CONFIRMED ->
     (now - Time.hours (confirmed_timeout_hours self)
      <= trigger_time r)%Z).
Proof.
  intros t'. pose proof (cleanup_expired_clears self now t) as Hclear.
  fold t' in Hclear. split.
  - unfold cleanup_expired at 1.
    destruct (update_none
                (stale_kiv (now - Time.hours (kiv_timeout_hours self))%Z)
                (set_status EXPIRED) t'
                (fun r Hr => proj1 (Hclear r Hr))) as [-> ->].
    destruct (update_none
                (stale_confirmed
                   (now - Time.hours (confirmed_timeout_hours self))%Z)
                (set_status EXPIRED) t'
                (fun r Hr => proj2 (Hclear r Hr))) as [-> ->].
    reflexivity.
  - intros r Hr. destruct (Hclear r Hr) as [Hk Hc].
    unfold stale_kiv, stale_confirmed in *.
    split; intros Hs; rewrite Hs in *; cbn [status_eqb andb] in *;
      now apply Z.ltb_ge.
Qed.

Lemma cleanup_expired_idempotent_witness :
  let fresh := acme "ACME_RSI_2026110319" (t0 - Time.hours 1)%Z KIV in
  let stale := acme "ACME_RSI_2026110314" (t0 - Time.hours 6)%Z KIV in
  let t' := fst (cleanup_expired default t0 [stale; fresh]) in
  map status t' = [EXPIRED; KIV] /\
  cleanup_expired default t0 t' = (t', (0%nat, 0%nat)) /\
  (t0 - Time.hours 4 <= trigger_time fresh)%Z.
Proof.
  intros fresh stale t'.
  destruct (cleanup_expired_idempotent default t0 [stale; fresh])
    as (Hagain & Hbound).
  split; [reflexivity|]. split; [exact Hagain|].
  apply (proj1 (Hbound fresh ltac:(right; left; reflexivity))).
  reflexivity.
Defined.

(** *** From insertion to confirmation *)

Lemma no_kiv_rows (sid tk st : string) (t : table) :
  find (duplicate sid tk st) t = None ->
  filter (fun r => of_pair tk st r && status_eqb (status r) KIV) t = [].
Proof.
  intros Hfind. apply length_zero_iff_nil.
  exact (ProcessorFacts.count_kiv_none sid tk st t Hfind).
Qed.

(** X10: A signal that [add_to_kiv] inserted is the one [check_confirmation]
    confirms: when the price has reached the product of its (positive)
    rebound bottom and 1.01, as the code computes and compares it in
    floats, within the KIV timeout, the answer is CONFIRMED with
    the id [add_to_kiv] returned and the entry price, target, stop and
    confidence that were stored, the row is CONFIRMED afterwards, and a
    further check of the pair finds no KIV signal. *)
Theorem added_signal_confirms (self : SignalProcessor)
    (now now2 : Time.datetime) (tk st : string)
    (p1 rb p3 p4 p5 c price : Q) (t t1 : table) (sid : string) :
  add_to_kiv now tk st p1 rb p3 p4 p5 c t = (t1, Added sid c) ->
  (now2 - now <= Time.hours (kiv_timeout_hours self))%Z ->
  0 < rb ->
  Float.geb (Float.finite price)
    (Float.mul (Float.finite rb) (Float.lit (101 # 100))) = true ->
  let t2 := fst (check_confirmation self now2 tk st price t1) in
  snd (check_confirmation self now2 tk st price t1)
  = Confirmed sid (Some p3) (Some p4) (Some p5) (Some c) /\
  option_map status (get_signal_status sid t2) = Some CONFIRMED /\
  forall now3 price3,
    check_confirmation self now3 tk st price3 t2
    = (t2, NotConfirmed "NO_KIV_SIGNAL").
Proof.
  intros Hadd Hage Hrb Hprice.
  unfold add_to_kiv in Hadd.
  destruct (Cooldown.is_on_cooldown now tk st t); [discriminate|].
  destruct (find _ t) eqn:Hfind; [discriminate|].
  injection Hadd as <- <-.
  set (row := kiv_row _ now tk st p1 rb p3 p4 p5 c).
  assert (Hpair : of_pair tk st row = true)
    by (unfold of_pair; cbn; now rewrite !String.eqb_refl).
  assert (Hkiv : filter (fun r => of_pair tk st r
                                  && status_eqb (status r) KIV)
                        (t ++ [row]) = [row]).
  { rewrite filter_app, (no_kiv_rows _ _ _ _ Hfind). cbn [filter app].
    now rewrite Hpair. }
  assert (Hbounce : bounced (Some rb) price = true).
  { unfold bounced, truthy.
    assert (Hnz : Qeq_bool rb 0 = false).
    { destruct (Qeq_bool rb 0) eqn:Hz; [|reflexivity].
      apply Qeq_bool_iff in Hz. rewrite Hz in Hrb.
      now apply Qlt_irrefl in Hrb. }
    rewrite Hnz. cbn [negb andb].
    rewrite (proj2 (Qgtb_lt _ _) Hrb). cbn [andb].
    exact Hprice. }
  assert (Hno : find (has_id (_generate_signal_id now tk st)) t = None).
  { destruct (find (has_id _) t) as [r|] eqn:Hr; [|reflexivity].
    apply find_some in Hr as [Hin Hid].
    pose proof (find_none _ _ Hfind r Hin) as Hd.
    unfold duplicate in Hd. unfold has_id in Hid. now rewrite Hid in Hd. }
  assert (Hconf : check_confirmation self now2 tk st price (t ++ [row])
                  = (update (has_id (_generate_signal_id now tk st))
                       (set_status CONFIRMED) (t ++ [row]),
                     Confirmed (_generate_signal_id now tk st) (Some p3)
                       (Some p4) (Some p5) (Some c))).
  { unfold check_confirmation. rewrite Hkiv. cbn [newest].
    rewrite ProcessorFacts.age_exceeds.
    replace (Time.hours (kiv_timeout_hours self)
             <? now2 - trigger_time row)%Z with false
      by (symmetry; apply Z.ltb_ge; exact Hage).
    cbn [rebound_bottom row kiv_row]. rewrite Hbounce. reflexivity. }
  cbv zeta. rewrite Hconf. cbn [fst snd]. split; [reflexivity|].
  split.
  - rewrite lookup_updated. unfold get_signal_status.
    rewrite (ProcessorFacts.find_app_none _ t row Hno).
    unfold has_id at 1. cbn [signal_id row kiv_row].
    now rewrite String.eqb_refl.
  - intros now3 price3. unfold check_confirmation.
    replace (filter _ _) with (@nil Signal); [reflexivity|].
    symmetry. unfold update. rewrite map_app, filter_app.
    cbn [map filter app].
    assert (Hrow : has_id (_generate_signal_id now tk st) row = true)
      by (unfold has_id; cbn; apply String.eqb_refl).
    rewrite Hrow. cbn [status set_status status_eqb].
    rewrite andb_false_r, app_nil_r.
    pose proof (no_kiv_rows _ _ _ _ Hfind) as Hnil.
    clear - Hnil. induction t as [|x t IH]; [reflexivity|].
    cbn [map filter] in *.
    destruct (of_pair tk st x && status_eqb (status x) KIV) eqn:Hx;
      [discriminate|].
    destruct (has_id _ x); [|rewrite Hx; now apply IH].
    cbn [status set_status status_eqb]. rewrite andb_false_r.
    now apply IH.
Qed.

Lemma added_signal_confirms_witness :
  let now := (t0 + Time.minutes 5)%Z in
  let now2 := (t0 + Time.hours 4)%Z in
  let t1 := fst (add_to_kiv now "ACME" "RSI" 10 10 (102 # 10) (105 # 10)
                   (98 # 10) 75 []) in
  snd (check_confirmation default now2 "ACME" "RSI" (101 # 10) t1)
  = Confirmed "ACME_RSI_2026110320" (Some (102 # 10)) (Some (105 # 10))
      (Some (98 # 10)) (Some 75).
Proof.
  intros now now2 t1.
  refine (proj1 (added_signal_confirms default now now2 "ACME" "RSI" 10 10
                   (102 # 10) (105 # 10) (98 # 10) 75 (101 # 10) [] t1
                   "ACME_RSI_2026110320" eq_refl _ _ _)).
  - vm_compute. discriminate.
  - reflexivity.
  - vm_compute. reflexivity.
Defined.

End QueueFacts.

(** ** Allocation and risk bounds of the sizer *)

(*SIZERBOUNDS*)

(** ** The day's profit and loss *)

Module LimitsFacts.
Import Limits.

Lemma sum_app (l m : list Q) : sum (l ++ m) == sum l + sum m.
Proof.
  unfold sum. induction l as [|x l IH]; cbn [app fold_right]; [ring|].
  rewrite IH. ring.
Qed.

Lemma sum_difference {A} (f g : A -> Q) (l : list A) :
  sum (map f l) - sum (map g l) == sum (map (fun r => f r - g r) l).
Proof.
  unfold sum. induction l as [|x l IH]; cbn [map fold_right]; [ring|].
  rewrite <- IH. ring.
Qed.

Lemma open_current_sum (t : Positions.table) :
  open_current t
  == sum (map (fun r => match Positions.current_price r with
                        | Some c => c * Positions.quantity r
                        | None => 0
                        end) (filter Positions.is_active t)).
Proof.
  unfold open_current, sum.
  induction (filter Positions.is_active t) as [|x l IH];
    cbn [flat_map map fold_right app]; [reflexivity|].
  rewrite <- IH. destruct (Positions.current_price x);
    cbn [app fold_right]; ring.
Qed.

Lemma unrealized_by_row (t : Positions.table) :
  open_current t - open_entry t
  == sum (map unrealized_of (filter Positions.is_active t)).
Proof.
  rewrite open_current_sum. unfold open_entry.
  rewrite sum_difference. reflexivity.
Qed.

(** X14: The day's P&L, row by row: the realized part is the sum, over the
    trades closed after UTC midnight, of proceeds less cost; a trade
    stamped with midnight itself is not among them, since the query
    compares the stored text with the text of a midnight that carries
    its UTC offset.  The unrealized part is the sum, over the OPEN and
    CLOSING positions, of value less cost, where a position without a
    current price has no value; the total is their sum.  Hence a
    position just inserted by the reconciler, which sets no current
    price, lowers the total by its whole cost. *)
Theorem today_pnl_by_row (now : Time.datetime) (d : DB) :
  let '(realized, unrealized, total) := get_today_pnl now d in
  realized
  == sum (map realized_of
            (filter (fun r => (Time.utc_midnight now
                               <? History.exit_time r)%Z)
                    (trade_history d))) /\
  unrealized
  == sum (map unrealized_of (filter Positions.is_active (positions d))) /\
  total == realized + unrealized /\
  (forall at_ item,
     total_pnl now
       (with_positions
          (positions d ++ [Reconciler.reconciled_row at_ item]) d)
     == total
        - Reconciler.alpaca_price item * Reconciler.alpaca_qty item) /\
  (forall trade,
     (History.exit_time trade <= Time.utc_midnight now)%Z ->
     get_today_pnl now
       (with_trade_history (trade_history d ++ [trade]) d)
     = get_today_pnl now d).
Proof.
  unfold get_today_pnl, Time.at_or_after_aware_midnight.
  split; [|split; [|split; [|split]]].
  - rewrite sum_difference. reflexivity.
  - apply unrealized_by_row.
  - reflexivity.
  - intros at_ item.
    unfold total_pnl, get_today_pnl, Time.at_or_after_aware_midnight.
    cbn [snd fst trade_history positions with_positions].
    rewrite !unrealized_by_row, filter_app, map_app, sum_app.
    change (sum (map unrealized_of
                   (filter Positions.is_active
                      [Reconciler.reconciled_row at_ item])))
      with (0 - Reconciler.alpaca_price item * Reconciler.alpaca_qty item
            + 0).
    ring.
  - intros trade Hle.
    cbn [trade_history positions with_trade_history].
    rewrite filter_app. cbn [filter].
    replace (Time.utc_midnight now <? History.exit_time trade)%Z
      with false by (symmetry; apply Z.ltb_ge; exact Hle).
    now rewrite app_nil_r.
Qed.

Lemma today_pnl_by_row_witness :
  let midnight := Time.utc_midnight Scenario.t0 in
  let trade at_ :=
    {| History.exit_time := at_; History.ticker := "ACME";
       History.strategy := "RSI"; History.entry_price := 10;
       History.exit_price := 12; History.quantity := 4;
       History.pnl_percent := 2 # 10; History.win_loss := "WIN";
       History.exit_reason := "STRATEGY";
       History.ticket_id := "TKT-0A1B2C3D" |} in
  let db_with r :=
    with_trade_history [r] (with_positions [] Scenario.busy_db) in
  get_today_pnl Scenario.t0 (db_with (trade midnight))
  = get_today_pnl Scenario.t0 (with_trade_history []
                                 (with_positions [] Scenario.busy_db)) /\
  fst (fst (get_today_pnl Scenario.t0 (db_with (trade midnight)))) == 0 /\
  fst (fst (get_today_pnl Scenario.t0 (db_with (trade (midnight + 1)%Z))))
  == 8.
Proof.
  intros midnight trade db_with.
  pose proof (today_pnl_by_row Scenario.t0
                (with_trade_history []
                   (with_positions [] Scenario.busy_db))) as H.
  cbv beta iota zeta delta [get_today_pnl] in H.
  destruct H as (_ & _ & _ & _ & Hskip).
  specialize (Hskip (trade midnight) (Z.le_refl _)).
  split; [exact Hskip|]. split; vm_compute; reflexivity.
Defined.

End LimitsFacts.

(** ** Properties kept through a call *)

Module EffFacts.

Section Preserves.
Context {W : Type} (P : W -> Prop).

Lemma preserves_ret {A} (a : A) : Eff.preserves P (Eff.ret a).
Proof. intros w Hw. exact Hw. Qed.

Lemma preserves_raise {A} (e : string) :
  Eff.preserves P (@Eff.raise W A e).
Proof. intros w Hw. exact Hw. Qed.

Lemma preserves_gets {A} (g : W -> A) : Eff.preserves P (Eff.gets g).
Proof. intros w Hw. exact Hw. Qed.

Lemma preserves_modify (g : W -> W) :
  (forall w, P w -> P (g w)) -> Eff.preserves P (Eff.modify g).
Proof. intros Hg w Hw. now apply Hg. Qed.

Lemma preserves_bind {A B} (c : Eff.M W A) (k : A -> Eff.M W B) :
  Eff.preserves P c -> (forall a, Eff.preserves P (k a)) ->
  Eff.preserves P (Eff.bind c k).
Proof.
  intros Hc Hk w Hw. unfold Eff.bind. specialize (Hc w Hw).
  destruct (c w) as [w' [a|e]]; cbn [fst] in *.
  - now apply Hk.
  - exact Hc.
Qed.

Lemma preserves_try {A} (c : Eff.M W A) (h : string -> Eff.M W A) :
  Eff.preserves P c -> (forall e, Eff.preserves P (h e)) ->
  Eff.preserves P (Eff.try_ c h).
Proof.
  intros Hc Hh w Hw. unfold Eff.try_. specialize (Hc w Hw).
  destruct (c w) as [w' [a|e]]; cbn [fst] in *.
  - exact Hc.
  - now apply Hh.
Qed.

(** A loop keeps what each of its rounds keeps; the rounds may be
    told which element of the list they run on. *)
Lemma preserves_for {A B} (xs : list A) (body : A -> Eff.M W (list B)) :
  (forall x, In x xs -> Eff.preserves P (body x)) ->
  Eff.preserves P (Eff.for_ xs body).
Proof.
  induction xs as [|x xs IH]; intros Hb; cbn [Eff.for_].
  - apply preserves_ret.
  - apply preserves_bind; [apply Hb; now left|]. intros out.
    apply preserves_bind; [|intros outs; apply preserves_ret].
    apply IH. intros y Hy. apply Hb. now right.
Qed.

End Preserves.

Lemma keeps_of_preserves {W A X} (f : W -> X) (c : Eff.M W A) :
  (forall x, Eff.preserves (fun w => f w = x) c) -> Eff.keeps f c.
Proof. intros Hc w. exact (Hc (f w) w eq_refl). Qed.

Section WithOutside.
Context {E : Type} `{Broker.Outside E}.

(** A call on the outside keeps what does not depend on the outside. *)
Lemma preserves_ask {A} (P : Executor.World E -> Prop)
    (q : E -> E * option A) (exn : string) :
  (forall w e', P w ->
     P {| Executor.db := Executor.db w; Executor.outside := e';
          Executor.pending_orders := Executor.pending_orders w |}) ->
  Eff.preserves P (Executor.ask q exn).
Proof.
  intros Hout w Hw. unfold Executor.ask.
  destruct (q (Executor.outside w)) as [e' [a|]]; cbn [fst];
    now apply Hout.
Qed.

End WithOutside.

End EffFacts.

Create HintDb kept.

(** Walks a call, leaving the writes and what the hints do not solve. *)
Ltac kept :=
  repeat
    (cbv zeta;
     lazymatch goal with
     | |- Eff.preserves _ (Eff.ret _) => apply EffFacts.preserves_ret
     | |- Eff.preserves _ (Eff.raise _) => apply EffFacts.preserves_raise
     | |- Eff.preserves _ (Eff.gets _) => apply EffFacts.preserves_gets
     | |- Eff.preserves _ (Executor.ask _ _) =>
         apply EffFacts.preserves_ask; intros ? ? ?
     | |- Eff.preserves _ (Eff.modify _) =>
         apply EffFacts.preserves_modify; intros ? ?
     | |- Eff.preserves _ (Eff.bind _ _) =>
         apply EffFacts.preserves_bind; [|intros]
     | |- Eff.preserves _ (Eff.try_ _ _) =>
         apply EffFacts.preserves_try; [|intros]
     | |- Eff.preserves _ (Eff.for_ _ _) =>
         apply EffFacts.preserves_for; intros ? ?
     | |- Eff.preserves _ (match ?x with _ => _ end) => destruct x
     | |- Eff.preserves _ _ => solve [auto with kept]
     end).

(** ** Orders *)

Module OrderFacts.
Import Broker Executor Scenario.

Section WithOutside.
Context {E : Type} `{Outside E}.

Lemma record_execution_keeps_ledger (x : Signals.table * Positions.table
      * list History.Trade * list Health.Row * list Ignore.Entry)
    (now : Time.datetime) (ticket_id ticker : string)
    (p1 p2 q1 q2 : Q) (order_type side_ : string) :
  Eff.preserves (fun w : World E => ledger w = x)
    (record_execution now ticket_id ticker p1 p2 q1 q2 order_type side_).
Proof. unfold record_execution. kept. assumption. Qed.

#[local] Hint Resolve record_execution_keeps_ledger : kept.

Lemma execute_entry_keeps_ledger (now : Time.datetime)
    (ticker strategy : string) (price quantity : Q) (order_type : string) :
  Eff.keeps (@ledger E)
    (execute_entry now ticker strategy price quantity order_type).
Proof.
  apply EffFacts.keeps_of_preserves. intros x.
  unfold execute_entry, _generate_ticket_id, float. kept; assumption.
Qed.

Lemma execute_exit_keeps_ledger (now : Time.datetime) (ticker : string)
    (quantity : Q) (order_type : string) (limit_price : option Q)
    (reason : string) :
  Eff.keeps (@ledger E)
    (execute_exit now ticker quantity order_type limit_price reason).
Proof.
  apply EffFacts.keeps_of_preserves. intros x.
  unfold execute_exit, _generate_ticket_id, float. kept; assumption.
Qed.

Lemma check_pending_orders_keeps_ledger (now : Time.datetime) :
  Eff.keeps (@ledger E) (check_pending_orders now).
Proof.
  apply EffFacts.keeps_of_preserves. intros x.
  unfold check_pending_orders, poll, float. kept; assumption.
Qed.

(** X15: The executor writes [execution_quality] and nothing else: an
    entry, an exit and a poll of the pending orders leave the signals,
    the positions, the trade history, the health log and the ignore
    list as they were, whether they return or raise.  In particular a
    filled entry inserts no row into [positions]. *)
Theorem executor_writes_only_quality (now : Time.datetime)
    (ticker strategy : string) (price quantity : Q) (order_type : string)
    (limit_price : option Q) (reason : string) :
  Eff.keeps (@ledger E)
    (execute_entry now ticker strategy price quantity order_type) /\
  Eff.keeps (@ledger E)
    (execute_exit now ticker quantity order_type limit_price reason) /\
  Eff.keeps (@ledger E) (check_pending_orders now).
Proof.
  split; [apply execute_entry_keeps_ledger|].
  split; [apply execute_exit_keeps_ledger
         |apply check_pending_orders_keeps_ledger].
Qed.

(** What [record_execution] leaves in [execution_quality]: the rows
    of other tickets, then one row of this ticket. *)
Lemma record_execution_row (now : Time.datetime)
    (ticket_id ticker : string) (p1 p2 q1 q2 : Q)
    (order_type side_ : string) (w : World E) :
  exists row,
    record_execution now ticket_id ticker p1 p2 q1 q2 order_type side_ w
    = ({| db := with_execution_quality
                  (filter (fun r => negb (String.eqb (Quality.ticket_id r)
                                                     ticket_id))
                          (execution_quality (db w)) ++ [row]) (db w);
          outside := outside w; pending_orders := pending_orders w |},
       Eff.Return tt) /\
    Quality.ticket_id row = ticket_id /\
    Quality.expected_price row = p1 /\ Quality.actual_price row = p2 /\
    Quality.price_slippage row = p2 - p1 /\
    Quality.side row = side_.
Proof.
  unfold record_execution, Eff.modify, with_db.
  eexists. split; [reflexivity|]. repeat split.
Qed.

(** X16: A market exit, and every exit with the reason STOP_LOSS whatever
    its order type and limit price, sends the broker one market sell
    order for the quantity and never rests: the pending map is as
    before and the answer is FILLED or FAILED.  It is FILLED when the
    broker accepts the order, at the average price the broker reports
    and at 0 when it reports none, and one row of the new ticket, of
    side SELL, is in [execution_quality]; it is FAILED when the broker
    raises, and the database is then as before. *)
Theorem market_exit_never_rests (now : Time.datetime) (ticker : string)
    (quantity : Q) (order_type : string) (limit_price : option Q)
    (reason : string) (w : World E) :
  Py.upper order_type = "MARKET" \/ reason = "STOP_LOSS" ->
  let run := execute_exit now ticker quantity order_type limit_price
               reason w in
  let ticket := ("TKT-" ++ snd (uuid4_hex8 (outside w)))%string in
  let sent :=
    submit_order {| symbol := ticker; qty := quantity; side := SELL;
                    kind := Market |} (fst (uuid4_hex8 (outside w))) in
  outside (fst run) = fst sent /\
  pending_orders (fst run) = pending_orders w /\
  match snd sent with
  | Some order =>
      let fill := if truthy_opt (filled_avg_price order)
                  then match filled_avg_price order with
                       | Some p => p
                       | None => 0
                       end
                  else 0 in
      snd run = Eff.Return (FILLED ticket (id order) quantity fill) /\
      exists row,
        execution_quality (db (fst run))
        = filter (fun r => negb (String.eqb (Quality.ticket_id r) ticket))
            (execution_quality (db w)) ++ [row] /\
        Quality.ticket_id row = ticket /\ Quality.side row = "SELL" /\
        Quality.actual_price row = fill
  | None =>
      snd run = Eff.Return (FAILED ticket "submit_order") /\
      db (fst run) = db w
  end.
Proof.
  intros Hmarket. cbv zeta.
  assert (Hcond : String.eqb (Py.upper order_type) "MARKET"
                  || String.eqb reason "STOP_LOSS" = true).
  { apply orb_true_iff. destruct Hmarket as [Hm|Hr]; [left|right];
      now apply String.eqb_eq. }
  unfold execute_exit, _generate_ticket_id, ask, Eff.bind, Eff.try_,
    Eff.ret.
  destruct (uuid4_hex8 (outside w)) as [e1 h]. cbn [fst snd outside].
  rewrite Hcond. cbv zeta. cbn [outside db pending_orders].
  destruct (submit_order _ e1) as [e2 [order|]]; cbn [fst snd].
  - match goal with
    | |- context [record_execution ?a ?b ?c ?d ?e ?f ?g ?i ?j ?w0] =>
        destruct (record_execution_row a b c d e f g i j w0)
          as (row & -> & Hid & _ & Hact & _ & Hside)
    end.
    cbn [fst snd outside pending_orders db]. repeat split.
    exists row. repeat split; assumption.
  - repeat split.
Qed.

End WithOutside.

Lemma market_exit_never_rests_witness :
  let run := execute_exit t0 "ACME" 19 "LIMIT" (Some (105 # 10))
               "STOP_LOSS" after_entry in
  map kind (submitted (outside (fst run))) = [Market] /\
  pending_orders (fst run) = [] /\
  snd run = Eff.Return (FILLED "TKT-0A1B2C3D" "order-1" 19 (98 # 10)).
Proof.
  intro run.
  destruct (market_exit_never_rests t0 "ACME" 19 "LIMIT" (Some (105 # 10))
              "STOP_LOSS" after_entry (or_intror eq_refl))
    as (Hout & Hpend & Hfill & _).
  fold run in Hout, Hpend, Hfill.
  rewrite Hout. split; [reflexivity|]. split; [exact Hpend|exact Hfill].
Defined.

Section Resting.
Context {E : Type} `{Outside E}.


End Resting.


End OrderFacts.

(** ** Closing positions *)

Module ClosingFacts.
Import Broker Executor Monitor Scenario.

(** The primary key of [positions]: two rows with one ticket are one
    row. *)
Lemma ticket_unique (t : Positions.table) (r r' : Positions.Position) :
  NoDup (map Positions.ticket_id t) -> In r t -> In r' t ->
  Positions.ticket_id r = Positions.ticket_id r' -> r = r'.
Proof.
  induction t as [|x t IH]; cbn; intros Hnd Hr Hr' Heq; [contradiction|].
  inversion Hnd as [|? ? Hfresh Hrest]; subst.
  destruct Hr as [<-|Hr], Hr' as [<-|Hr']; auto.
  - exfalso. apply Hfresh. rewrite Heq. now apply in_map.
  - exfalso. apply Hfresh. rewrite <- Heq. now apply in_map.
Qed.

Section WithOutside.
Context {E : Type} `{Outside E}.

(** *** Marking a position for exit *)

Lemma signal_exit_run (ticket_id ticker exit_signal : string)
    (w : World E) :
  signal_exit ticket_id ticker exit_signal w
  = (with_db
       (with_positions
          (map (fun r => if Positions.has_ticket ticket_id r
                            && Positions.is_open r
                         then Positions.mark_closing exit_signal r
                         else r) (positions (db w)))) w,
     Eff.Return
       (existsb (fun r => Positions.has_ticket ticket_id r
                          && Positions.is_open r) (positions (db w)))).
Proof.
  unfold signal_exit, Eff.bind, Eff.gets, Eff.modify, Eff.ret.
  do 2 f_equal.
  induction (positions (db w)) as [|x t IH]; [reflexivity|].
  cbn [filter existsb].
  destruct (Positions.has_ticket ticket_id x && Positions.is_open x);
    [reflexivity|exact IH].
Qed.

(** X18: [signal_exit] answers [True] exactly when the ticket has an OPEN
    row; that row becomes CLOSING with the signal and every other row
    stays as it is; the tickers held are the same; and the first
    signal wins: a second [signal_exit] on the ticket answers [False]
    and changes nothing, whatever signal it carries. *)
Theorem signal_exit_first_wins (ticket_id ticker signal1 signal2 : string)
    (w : World E) :
  let hit r := Positions.has_ticket ticket_id r && Positions.is_open r in
  let run := signal_exit ticket_id ticker signal1 w in
  snd run = Eff.Return (existsb hit (positions (db w))) /\
  positions (db (fst run))
  = map (fun r => if hit r then Positions.mark_closing signal1 r else r)
      (positions (db w)) /\
  (forall tk, Positions.holds tk (positions (db (fst run)))
              = Positions.holds tk (positions (db w))) /\
  signal_exit ticket_id ticker signal2 (fst run)
  = (fst run, Eff.Return false).
Proof.
  cbv zeta. rewrite signal_exit_run. cbn [fst snd].
  split; [reflexivity|]. split; [reflexivity|]. split.
  - intros tk. unfold Positions.holds. cbn [db with_db positions
      with_positions].
    induction (positions (db w)) as [|x t IH]; [reflexivity|].
    cbn [map existsb]. rewrite IH. f_equal.
    destruct (Positions.has_ticket ticket_id x) eqn:Ht; cbn [andb];
      [|reflexivity].
    unfold Positions.is_active, Positions.is_closing, Positions.is_open.
    destruct (Positions.status x) eqn:Hs; cbn; rewrite ?Hs; reflexivity.
  - rewrite signal_exit_run.
    cbn [db with_db positions with_positions].
    assert (Hnone : forall t,
              map (fun r => if Positions.has_ticket ticket_id r
                               && Positions.is_open r
                            then Positions.mark_closing signal2 r else r)
                  (map (fun r => if Positions.has_ticket ticket_id r
                                    && Positions.is_open r
                                 then Positions.mark_closing signal1 r
                                 else r) t)
              = map (fun r => if Positions.has_ticket ticket_id r
                                 && Positions.is_open r
                              then Positions.mark_closing signal1 r
                              else r) t /\
              existsb (fun r => Positions.has_ticket ticket_id r
                                && Positions.is_open r)
                (map (fun r => if Positions.has_ticket ticket_id r
                                  && Positions.is_open r
                               then Positions.mark_closing signal1 r
                               else r) t) = false).
    { induction t as [|x t [IHm IHe]]; [split; reflexivity|].
      cbn [map existsb]. rewrite IHm, IHe.
      destruct (Positions.has_ticket ticket_id x && Positions.is_open x)
        eqn:Hx.
      - cbn. rewrite andb_false_r. split; reflexivity.
      - rewrite Hx. split; reflexivity. }
    destruct (Hnone (positions (db w))) as [-> ->].
    unfold with_db, with_positions. cbn. reflexivity.
Qed.

(** *** What the checks can and cannot close *)

Lemma keeps_preserves {A X} (f : World E -> X) (Q : X -> Prop)
    (c : Eff.M (World E) A) :
  Eff.keeps f c -> Eff.preserves (fun w => Q (f w)) c.
Proof. intros Hk w Hw. now rewrite (Hk w). Qed.

(** [execute_exit] keeps whatever is said of the positions and the
    trade history. *)
Lemma execute_exit_keeps_books
    (said : Positions.table -> list History.Trade -> Prop)
    (now : Time.datetime) (ticker : string) (quantity : Q)
    (order_type : string) (limit_price : option Q) (reason : string) :
  Eff.preserves (fun w => said (positions (db w)) (trade_history (db w)))
    (execute_exit now ticker quantity order_type limit_price reason).
Proof.
  apply (keeps_preserves (@ledger E)
           (fun l => said (snd (fst (fst (fst l)))) (snd (fst (fst l))))).
  apply OrderFacts.execute_exit_keeps_ledger.
Qed.

(** A limit exit without a price, for a reason other than STOP_LOSS,
    is what [check_strategy_exits] asks for: the round returns no exit
    and writes nothing. *)
Lemma strategy_round_unsold (now : Time.datetime)
    (pos : Positions.Position) (w : World E) :
  exit_reason_of pos <> "STOP_LOSS" ->
  strategy_exit_round now pos w
  = ({| db := db w; outside := fst (uuid4_hex8 (outside w));
        pending_orders := pending_orders w |}, Eff.Return []).
Proof.
  intros Hreason. apply String.eqb_neq in Hreason.
  unfold strategy_exit_round, execute_exit, _generate_ticket_id, ask,
    close_if_filled, Eff.bind, Eff.try_, Eff.ret, Eff.raise.
  destruct (uuid4_hex8 (outside w)) as [e1 h]. cbn [fst snd].
  change (String.eqb (Py.upper "LIMIT") "MARKET") with false.
  now rewrite Hreason.
Qed.

Lemma mark_keeps_other (r : Positions.Position) (now : Time.datetime)
    (ticket_id : string) (exit_price : Q) (exit_reason : string) :
  Positions.ticket_id r <> ticket_id ->
  Eff.preserves (fun w : World E => In r (positions (db w)))
    (_mark_position_closed now ticket_id exit_price exit_reason).
Proof.
  intros Hne. unfold _mark_position_closed. kept.
  cbn [db with_db positions with_positions]. apply filter_In.
  split; [assumption|]. apply negb_true_iff. now apply String.eqb_neq.
Qed.

Lemma close_keeps_other (r pos : Positions.Position)
    (now : Time.datetime) (reason : string) (pnl : option Q)
    (exit_result : ExecResult) :
  Positions.ticket_id r <> Positions.ticket_id pos ->
  Eff.preserves (fun w : World E => In r (positions (db w)))
    (close_if_filled now pos reason pnl exit_result).
Proof.
  intros Hne. unfold close_if_filled.
  pose proof (mark_keeps_other r now (Positions.ticket_id pos)) as Hmark.
  kept.
Qed.

(** X19: A position that is CLOSING with an exit signal other than
    STOP_LOSS is never sold by the monitor: on a table with distinct
    ticket ids it is still in [positions] after [check_stop_losses],
    after [check_strategy_exits] and after [check_pre_close], whatever
    the broker answers. *)
Theorem closing_position_is_stuck (self : ExitMonitor)
    (now : Time.datetime) (w : World E) (r : Positions.Position) :
  NoDup (map Positions.ticket_id (positions (db w))) ->
  In r (positions (db w)) ->
  Positions.is_closing r = true ->
  exit_reason_of r <> "STOP_LOSS" ->
  In r (positions (db (fst (check_stop_losses now w)))) /\
  In r (positions (db (fst (check_strategy_exits now w)))) /\
  In r (positions (db (fst (check_pre_close self now w)))).
Proof.
  intros Hnd Hr Hclosing Hreason.
  pose proof (execute_exit_keeps_books (fun t _ => In r t)) as Hexit.
  cbv beta in Hexit.
  split; [|split].
  - exact Hr.
  - unfold check_strategy_exits, Eff.bind, Eff.gets.
    apply (EffFacts.preserves_for
             (fun w0 : World E => In r (positions (db w0)))); [|exact Hr].
    intros pos Hpos. apply filter_In in Hpos as [Hpos _].
    destruct (String.eqb_spec (Positions.ticket_id r)
                (Positions.ticket_id pos)) as [Heq|Hne].
    + rewrite <- (ticket_unique _ r pos Hnd Hr Hpos Heq).
      intros w0 Hw0. now rewrite strategy_round_unsold.
    + pose proof (close_keeps_other r pos now) as Hclose.
      unfold strategy_exit_round. kept; auto.
  - exact Hr.
Qed.

(** *** Every position that goes is archived *)

(** Deleting a ticket from a table with distinct tickets removes one
    row. *)
Lemma delete_one (t : Positions.table) (pos : Positions.Position)
    (ticket_id : string) :
  NoDup (map Positions.ticket_id t) ->
  find (Positions.has_ticket ticket_id) t = Some pos ->
  S (List.length
       (filter (fun r => negb (Positions.has_ticket ticket_id r)) t))
  = List.length t.
Proof.
  induction t as [|x t IH]; cbn [find filter map]; intros Hnd Hfind;
    [discriminate|].
  inversion Hnd as [|? ? Hfresh Hrest]; subst.
  destruct (Positions.has_ticket ticket_id x) eqn:Hx; cbn [negb].
  - cbn [List.length]. f_equal. f_equal.
    apply String.eqb_eq in Hx.
    clear - Hfresh Hx. induction t as [|y t IH]; [reflexivity|].
    cbn [filter map] in *.
    destruct (Positions.has_ticket ticket_id y) eqn:Hy; cbn [negb].
    + exfalso. apply Hfresh. left. apply String.eqb_eq in Hy. congruence.
    + f_equal. apply IH. intros Hin. apply Hfresh. now right.
  - cbn [List.length]. f_equal. now apply IH.
Qed.

Lemma mark_keeps_books (n : nat) (p0 : Positions.table)
    (h0 : list History.Trade) (now : Time.datetime) (ticket_id : string)
    (exit_price : Q) (exit_reason : string) :
  Eff.preserves (@books E n p0 h0)
    (_mark_position_closed now ticket_id exit_price exit_reason).
Proof.
  intros w (Hnd & Hlen & Hincl & added & Hh).
  unfold _mark_position_closed, Eff.bind, Eff.gets, Eff.modify, Eff.ret,
    Eff.raise.
  destruct (find (Positions.has_ticket ticket_id) (positions (db w)))
    as [pos|] eqn:Hfind; cbn [fst]; [|now repeat split; eauto].
  destruct (Qeq_bool (Positions.entry_price pos) 0); cbn [fst];
    [now repeat split; eauto|].
  unfold books. cbn [db with_db positions with_positions trade_history
                     with_trade_history].
  split; [now apply ReconcilerFacts.distinct_tickets_filter|].
  split; [|split].
  - pose proof (delete_one _ pos ticket_id Hnd Hfind) as Hone.
    rewrite length_app. cbn [List.length]. lia.
  - intros x Hx. apply filter_In in Hx as [Hx _]. now apply Hincl.
  - eexists. rewrite Hh, <- app_assoc. reflexivity.
Qed.

Lemma exit_keeps_the_books (n : nat) (p0 : Positions.table)
    (h0 : list History.Trade) (now : Time.datetime) (ticker : string)
    (quantity : Q) (order_type : string) (limit_price : option Q)
    (reason : string) :
  Eff.preserves (@books E n p0 h0)
    (execute_exit now ticker quantity order_type limit_price reason).
Proof.
  apply (execute_exit_keeps_books
           (fun t h =>
              NoDup (map Positions.ticket_id t) /\
              (List.length t + List.length h = n)%nat /\
              incl t p0 /\ exists added, h = h0 ++ added)).
Qed.

#[local] Hint Resolve mark_keeps_books exit_keeps_the_books : kept.

Lemma checks_keep_books (n : nat) (p0 : Positions.table)
    (h0 : list History.Trade) (self : ExitMonitor)
    (now : Time.datetime) :
  Eff.preserves (@books E n p0 h0) (check_stop_losses now) /\
  Eff.preserves (@books E n p0 h0) (check_strategy_exits now) /\
  Eff.preserves (@books E n p0 h0) (check_pre_close self now).
Proof.
  split; [|split].
  - unfold check_stop_losses. kept.
  - unfold check_strategy_exits, strategy_exit_round, close_if_filled.
    kept.
  - unfold check_pre_close, minutes_until_market_close_naive,
      force_close_round, close_if_filled. kept.
Qed.

(** X20: No position leaves the ledger without a trace: on a table with
    distinct ticket ids, each of [check_stop_losses],
    [check_strategy_exits] and [check_pre_close], whether it returns or
    raises, leaves distinct ticket ids, adds no position, only appends
    to [trade_history], and keeps the number of rows of [positions] and
    [trade_history] together: each position removed is one trade
    archived. *)
Theorem monitor_archives_what_it_closes (self : ExitMonitor)
    (now : Time.datetime) (w : World E) :
  NoDup (map Positions.ticket_id (positions (db w))) ->
  let kept_books w' :=
    books (List.length (positions (db w))
           + List.length (trade_history (db w)))
      (positions (db w)) (trade_history (db w)) w' in
  kept_books (fst (check_stop_losses now w)) /\
  kept_books (fst (check_strategy_exits now w)) /\
  kept_books (fst (check_pre_close self now w)).
Proof.
  intros Hnd kept_books.
  assert (Hstart : kept_books w).
  { repeat split; [exact Hnd|apply incl_refl|].
    exists []. now rewrite app_nil_r. }
  destruct (checks_keep_books
              (List.length (positions (db w))
               + List.length (trade_history (db w)))
              (positions (db w)) (trade_history (db w)) self now)
    as (Hstop & Hstrategy & Hclose).
  split; [now apply Hstop|]. split; [now apply Hstrategy|now apply Hclose].
Qed.

End WithOutside.

Lemma closing_position_is_stuck_witness :
  let r := {| Positions.ticket_id := "TKT-0A1B2C3D";
              Positions.ticker := "ACME"; Positions.strategy := "RSI";
              Positions.entry_time := (t0 - Time.minutes 30)%Z;
              Positions.entry_price := 1021 # 100;
              Positions.quantity := 19;
              Positions.current_price := None;
              Positions.status := Positions.CLOSING;
              Positions.exit_signal := Some "TAKE_PROFIT" |} in
  let w := {| db := with_positions [r] (db after_entry);
              outside := outside after_entry;
              pending_orders := [] |} in
  In r (positions (db (fst (check_strategy_exits t0 w)))) /\
  In r (positions (db (fst (check_pre_close default t0 w)))).
Proof.
  intros r w.
  destruct (closing_position_is_stuck default t0 w r)
    as (_ & Hstrategy & Hclose).
  - repeat constructor. cbn. tauto.
  - now left.
  - reflexivity.
  - vm_compute. discriminate.
  - split; assumption.
Defined.

Lemma monitor_archives_what_it_closes_witness :
  let w' := fst (check_strategy_exits t0 marked_for_exit) in
  NoDup (map Positions.ticket_id (positions (db marked_for_exit))) /\
  (List.length (positions (db w')) + List.length (trade_history (db w'))
   = 1)%nat /\
  List.length (trade_history (db w')) = 1%nat.
Proof.
  intro w'.
  assert (Hnd : NoDup (map Positions.ticket_id
                         (positions (db marked_for_exit))))
    by (repeat constructor; cbn; tauto).
  split; [exact Hnd|].
  destruct (monitor_archives_what_it_closes default t0 marked_for_exit
              Hnd) as (_ & (_ & Hlen & _) & _).
  split; [exact Hlen|]. vm_compute. reflexivity.
Defined.

End ClosingFacts.

(** ** Reconciliation: agreement, outage, log *)

Module LedgerFacts.
Import Broker Executor Reconciler Scenario.

(** The three lists the loop over the local rows fills only grow. *)
Lemma classify_all_grows (self : Reconciler) (alpaca : Py.dict Held)
    (local : list Positions.Position) :
  forall r0 r, classify_all self alpaca local r0 = Some r ->
  exists a b c,
    mismatch_quantity r = mismatch_quantity r0 ++ a /\
    missing_in_alpaca r = missing_in_alpaca r0 ++ b /\
    mismatch_price r = mismatch_price r0 ++ c.
Proof.
  induction local as [|l local IH]; intros r0 r; cbn [classify_all].
  - intros [= <-]. exists [], [], []. now rewrite !app_nil_r.
  - destruct (classify self alpaca l) as [c|]; [|discriminate].
    intros Hrest. destruct (IH _ _ Hrest) as (a & b & d & Ha & Hb & Hd).
    rewrite Ha, Hb, Hd.
    destruct c; cbn [add mismatch_quantity missing_in_alpaca
                      mismatch_price];
      do 3 eexists; repeat split; rewrite <- ?app_assoc; reflexivity.
Qed.

(** Where the three lists end empty, every local row was matched. *)
Lemma classify_all_matched (self : Reconciler) (alpaca : Py.dict Held)
    (local : list Positions.Position) :
  forall r0 r, classify_all self alpaca local r0 = Some r ->
  mismatch_quantity r = [] -> missing_in_alpaca r = [] ->
  mismatch_price r = [] ->
  forall l, In l local ->
    classify self alpaca l = Some (Matched (Positions.ticker l)).
Proof.
  induction local as [|x local IH]; intros r0 r; cbn [classify_all];
    [intros _ _ _ _ l []|].
  destruct (classify self alpaca x) as [c|] eqn:Hc; [|discriminate].
  intros Hrest Hq Ha Hp l [<-|Hl]; [|now apply (IH _ _ Hrest)].
  destruct (classify_all_grows _ _ _ _ _ Hrest) as (a & b & d & Eq & Ea & Ep).
  rewrite Hq in Eq. rewrite Ha in Ea. rewrite Hp in Ep.
  symmetry in Eq, Ea, Ep.
  apply app_eq_nil in Eq as [Eq _], Ea as [Ea _], Ep as [Ep _].
  destruct c; cbn [add mismatch_quantity missing_in_alpaca mismatch_price]
    in Eq, Ea, Ep;
    try (now apply app_eq_nil in Eq as [_ Eq]);
    try (now apply app_eq_nil in Ea as [_ Ea]);
    try (now apply app_eq_nil in Ep as [_ Ep]).
  rewrite Hc. f_equal. f_equal. unfold classify in Hc.
  destruct (Py.get _ alpaca); [|discriminate].
  destruct (Qgtb _ (quantity_tolerance self)); [discriminate|].
  destruct (Qeq_bool _ 0); [discriminate|].
  destruct (Qgtb _ (price_tolerance_pct self)); [discriminate|].
  now injection Hc as <-.
Qed.

(** What a match says of the two rows. *)
Lemma matched_agrees (self : Reconciler) (alpaca : Py.dict Held)
    (l : Positions.Position) (tk : string) :
  classify self alpaca l = Some (Matched tk) ->
  exists h,
    Py.get (Positions.ticker l) alpaca = Some h /\
    py_abs (Positions.quantity l - held_qty h) <= quantity_tolerance self /\
    ~ Positions.entry_price l == 0 /\
    py_abs (Positions.entry_price l - avg_entry_price h)
    / Positions.entry_price l * 100 <= price_tolerance_pct self.
Proof.
  unfold classify.
  destruct (Py.get _ alpaca) as [h|]; [|discriminate].
  destruct (Qgtb _ (quantity_tolerance self)) eqn:Hq; [discriminate|].
  destruct (Qeq_bool _ 0) eqn:Hz; [discriminate|].
  destruct (Qgtb _ (price_tolerance_pct self)) eqn:Hp; [discriminate|].
  intros _. exists h. split; [reflexivity|].
  split; [now apply Qltb_ge in Hq|]. split.
  - intros Heq. apply Qeq_bool_iff in Heq. congruence.
  - now apply Qltb_ge in Hp.
Qed.

Lemma none_missing_in_local (alpaca : Py.dict Held)
    (local : list Positions.Position) :
  find_missing_in_local alpaca local = [] ->
  forall tk h, In (tk, h) alpaca ->
    exists l, In l local /\ Positions.ticker l = tk.
Proof.
  unfold find_missing_in_local. intros Hnone tk h Hin.
  destruct (existsb (fun l => String.eqb (Positions.ticker l) tk) local)
    eqn:Hex.
  - apply existsb_exists in Hex as (l & Hl & Heq).
    exists l. split; [exact Hl|now apply String.eqb_eq].
  - exfalso.
    assert (Hitem : In {| ml_ticker := tk; alpaca_qty := held_qty h;
                          alpaca_price := avg_entry_price h |}
                       (flat_map
                          (fun kv =>
                             if existsb
                                  (fun l => String.eqb (Positions.ticker l)
                                                       (fst kv)) local
                             then []
                             else [ {| ml_ticker := fst kv;
                                       alpaca_qty := held_qty (snd kv);
                                       alpaca_price :=
                                         avg_entry_price (snd kv) |} ])
                          alpaca)).
    { apply in_flat_map. exists (tk, h). split; [exact Hin|].
      cbn [fst snd]. rewrite Hex. now left. }
    rewrite Hnone in Hitem. contradiction.
Qed.

Lemma ok_status (results : Results) :
  fst (_determine_status results) = "OK" ->
  mismatch_quantity results = [] /\ missing_in_alpaca results = [] /\
  missing_in_local results = [] /\ mismatch_price results = [].
Proof.
  rewrite ReconcilerFacts.status_of.
  destruct (mismatch_quantity results); [|discriminate].
  destruct (missing_in_alpaca results); [|discriminate].
  destruct (missing_in_local results); [|discriminate].
  destruct (mismatch_price results); [|discriminate].
  repeat split.
Qed.

Section WithOutside.
Context {E : Type} `{Outside E}.

(** X22: OK means the books agree: when [reconcile_all] returns the status
    OK, every OPEN local position is listed by the broker under its
    ticker, with a quantity within [quantity_tolerance] and an average
    entry price within [price_tolerance_pct] percent of the local entry
    price, every position the broker lists has an OPEN local row, and
    the positions are as before. *)
Theorem ok_means_the_books_agree (self : Reconciler)
    (now : Time.datetime) (w : World E) (report : Report) :
  snd (reconcile_all self now w) = Eff.Return report ->
  status report = "OK" ->
  let alpaca := alpaca_dict (snd (get_all_positions (outside w))) in
  (forall l, In l (positions (db w)) -> Positions.is_open l = true ->
     exists h,
       Py.get (Positions.ticker l) alpaca = Some h /\
       py_abs (Positions.quantity l - held_qty h)
       <= quantity_tolerance self /\
       py_abs (Positions.entry_price l - avg_entry_price h)
       / Positions.entry_price l * 100 <= price_tolerance_pct self) /\
  (forall tk h, In (tk, h) alpaca ->
     exists l, In l (positions (db w)) /\ Positions.is_open l = true /\
               Positions.ticker l = tk) /\
  positions (db (fst (reconcile_all self now w))) = positions (db w).
Proof.
  intros Hrun Hok alpaca.
  rewrite ReconcilerFacts.reconcile_all_run in *. fold alpaca in Hrun |- *.
  unfold survey in *.
  destruct (classify_all self alpaca
              (filter Positions.is_open (positions (db w))) empty)
    as [r|] eqn:Hr; [|discriminate].
  cbv zeta in *.
  set (results := with_missing_in_local _ r) in *.
  assert (Hst : fst (_determine_status results) = "OK").
  { destruct (heals _); [destruct (add_missing _ _ _)|];
      cbn [snd] in Hrun; try discriminate;
      injection Hrun as <-; exact Hok. }
  rewrite Hst in *. change (heals "OK") with false in *. cbn [fst snd].
  destruct (ok_status results Hst) as (Hq & Ha & Hl & Hp).
  split; [|split; [|reflexivity]].
  - intros l Hin Hopen.
    assert (Hl' : In l (filter Positions.is_open (positions (db w))))
      by (apply filter_In; now split).
    pose proof (classify_all_matched self alpaca _ _ _ Hr Hq Ha Hp l Hl')
      as Hm.
    destruct (matched_agrees self alpaca l _ Hm) as (h & Hg & Hqty & _ & Hpr).
    exists h. repeat split; assumption.
  - intros tk h Hin.
    destruct (none_missing_in_local alpaca _ Hl tk h Hin) as (l & Hl' & Htk).
    apply filter_In in Hl' as [Hl' Hopen]. exists l. repeat split; assumption.
Qed.

(** *** When the broker cannot be reached *)

(** With no broker position every local row is missing at the broker. *)
Lemma classify_all_outage (self : Reconciler)
    (local : list Positions.Position) :
  forall r0, exists r,
    classify_all self [] local r0 = Some r /\
    mismatch_quantity r = mismatch_quantity r0 /\
    missing_in_alpaca r = missing_in_alpaca r0 ++ local /\
    missing_in_local r = missing_in_local r0 /\
    mismatch_price r = mismatch_price r0.
Proof.
  induction local as [|l local IH]; intros r0; cbn [classify_all].
  - exists r0. now rewrite app_nil_r.
  - unfold classify. cbn [Py.get find option_map].
    destruct (IH (add (MissingInAlpaca l) r0))
      as (r & Hr & Hq & Ha & Hl & Hp).
    exists r. split; [exact Hr|]. cbn [add mismatch_quantity
      missing_in_alpaca missing_in_local mismatch_price] in *.
    rewrite Hq, Ha, Hl, Hp, <- app_assoc. repeat split.
Qed.

(** X23: An outage looks like an empty account: when the broker raises on
    the listing of its positions, [reconcile_all] still returns; every
    OPEN local position is reported as missing at the broker and the
    status is CRITICAL, or OK when there is no OPEN position; nothing
    is healed. *)
Theorem broker_outage (self : Reconciler) (now : Time.datetime)
    (w : World E) :
  snd (get_all_positions (outside w)) = None ->
  let run := reconcile_all self now w in
  let open := filter Positions.is_open (positions (db w)) in
  exists report,
    snd run = Eff.Return report /\
    missing_in_alpaca (results report) = open /\
    status report = (if nonempty open then "CRITICAL" else "OK") /\
    positions (db (fst run)) = positions (db w).
Proof.
  intros Hdown. cbv zeta.
  rewrite ReconcilerFacts.reconcile_all_run, Hdown.
  cbn [alpaca_dict]. unfold survey.
  destruct (classify_all_outage self
              (filter Positions.is_open (positions (db w))) empty)
    as (r & -> & Hq & Ha & Hl & Hp).
  cbn [empty mismatch_quantity missing_in_alpaca missing_in_local
       mismatch_price app] in Hq, Ha, Hl, Hp.
  cbv zeta.
  set (results := with_missing_in_local _ r).
  assert (Hst : fst (_determine_status results)
                = if nonempty (filter Positions.is_open (positions (db w)))
                  then "CRITICAL" else "OK").
  { rewrite ReconcilerFacts.status_of. subst results.
    cbn [with_missing_in_local mismatch_quantity missing_in_alpaca
         missing_in_local mismatch_price find_missing_in_local flat_map].
    rewrite Hq, Ha, Hp. cbn [nonempty].
    now destruct (nonempty _). }
  rewrite Hst.
  assert (Hcalm : heals (if nonempty (filter Positions.is_open
                                        (positions (db w)))
                         then "CRITICAL" else "OK") = false)
    by now destruct (nonempty _).
  rewrite Hcalm. eexists. split; [reflexivity|].
  cbn [results status fst snd db with_db logged with_health_state positions
       answered].
  subst results. cbn [with_missing_in_local missing_in_alpaca].
  repeat split; assumption.
Qed.

(** *** The health log *)

(** X24: A reconciliation that returns appends one row to [health_state],
    with the status and the message it returns, and touches no other
    table but [positions]; one that raises leaves the database as it
    was; the pending orders are as before in both cases. *)
Theorem reconcile_all_logs_once (self : Reconciler) (now : Time.datetime)
    (w : World E) :
  let run := reconcile_all self now w in
  pending_orders (fst run) = pending_orders w /\
  match snd run with
  | Eff.Return report =>
      health_state (db (fst run))
      = health_state (db w)
        ++ [ {| Health.timestamp := now;
                Health.state := status report;
                Health.reason := message report |} ] /\
      signals (db (fst run)) = signals (db w) /\
      trade_history (db (fst run)) = trade_history (db w) /\
      execution_quality (db (fst run)) = execution_quality (db w) /\
      ignore_list (db (fst run)) = ignore_list (db w)
  | Eff.Raise _ => db (fst run) = db w
  end.
Proof.
  cbv zeta. rewrite ReconcilerFacts.reconcile_all_run.
  destruct (survey _ _ _) as [results|]; [|split; reflexivity].
  cbv zeta. destruct (heals _);
    [destruct (add_missing _ _ _)|]; cbn; repeat split.
Qed.

End WithOutside.

Lemma ok_means_the_books_agree_witness :
  let w := {| db := db after_entry;
              outside :=
                {| submitted := [];
                   held := [ {| held_symbol := "ACME"; held_qty := 19;
                                avg_entry_price := 1025 # 100;
                                held_current_price := 98 # 10;
                                unrealized_pl := 0 |} ];
                   book := []; quote := 98 # 10 |};
              pending_orders := [] |} in
  exists report h,
    snd (reconcile_all default t0 w) = Eff.Return report /\
    status report = "OK" /\
    Py.get "ACME" (alpaca_dict (snd (get_all_positions (outside w))))
    = Some h /\
    py_abs (19 - held_qty h) <= 0 /\
    positions (db (fst (reconcile_all default t0 w))) = positions (db w).
Proof.
  intro w.
  assert (Hrun : snd (reconcile_all default t0 w)
                 = Eff.Return
                     {| status := "OK";
                        message := "All positions reconciled: 1 matches";
                        results :=
                          {| matched := ["ACME"]; mismatch_price := [];
                             mismatch_quantity := [];
                             missing_in_alpaca := [];
                             missing_in_local := [] |} |})
    by (vm_compute; reflexivity).
  destruct (ok_means_the_books_agree default t0 w _ Hrun eq_refl)
    as (Hlocal & _ & Hsame).
  destruct (Hlocal _ (or_introl eq_refl) eq_refl) as (h & Hget & Hqty & _).
  eexists _, h. split; [exact Hrun|]. split; [reflexivity|].
  split; [exact Hget|]. split; [exact Hqty|exact Hsame].
Defined.

Lemma broker_outage_witness :
  let down := {| submit_order := fun _ (e : unit) => (e, None);
                 get_order_by_id := fun _ e => (e, None);
                 get_all_positions := fun e => (e, None);
                 uuid4_hex8 := fun e => (e, "0A1B2C3D") |} in
  let w := {| db := db after_entry; outside := tt;
              pending_orders := [] |} in
  exists report,
    snd (@reconcile_all unit down default t0 w) = Eff.Return report /\
    status report = "CRITICAL" /\
    map Positions.ticker (missing_in_alpaca (results report)) = ["ACME"].
Proof.
  intros down w.
  destruct (@broker_outage unit down default t0 w eq_refl)
    as (report & Hrun & Hmissing & Hstatus & _).
  exists report. split; [exact Hrun|]. split; [exact Hstatus|].
  now rewrite Hmissing.
Defined.

End LedgerFacts.

(** ** What the sentinel remembers *)

Module LatchFacts.
Import Sentinel Scenario.

(** One health check, field by field. *)
Lemma check_health_parts (self : Sentinel) (now : Time.datetime)
    (seen : Observed) (log : list Health.Row) :
  let self' := fst (fst (check_health self now seen log)) in
  let report := snd (check_health self now seen log) in
  max_consecutive_failures self' = max_consecutive_failures self /\
  consecutive_failures self'
  = (consecutive_failures self
     + if failed (now, seen) then 1 else 0)%Z /\
  kill_switch_engaged self' = kill_switch_engaged self /\
  kill_reason self' = kill_reason self /\
  snd (fst (check_health self now seen log))
  = log ++ [ {| Health.timestamp := now;
                Health.state := state_name (state report);
                Health.reason := reason report |} ] /\
  failures (checks report) = consecutive_failures self' /\
  kill_switch (checks report)
  = (if kill_switch_engaged self then CRITICAL else OK) /\
  state report = fst (_determine_health_state self' (checks report)).
Proof.
  cbv zeta.
  change (failed (now, seen))
    with (match quick_check seen with Some true => false | _ => true end).
  unfold check_health, _check_api_usage, _check_reconciliation,
    _check_kill_switch.
  destruct (60 <? seconds (now - minute_start self))%Z;
    destruct (quick_check seen) as [[|]|];
    cbn [fst snd]; cbv zeta;
    destruct (_determine_health_state _ _) as [st why] eqn:Hst;
    cbn [fst snd state reason checks failures kill_switch
         consecutive_failures max_consecutive_failures
         kill_switch_engaged kill_reason with_minute
         with_consecutive_failures];
    repeat split; try reflexivity; try lia;
    match goal with
    | |- context [_determine_health_state ?a ?b] =>
        replace (_determine_health_state a b) with (st, why)
          by (symmetry; exact Hst)
    end; reflexivity.
Qed.

(** The roll-up is RED once the failures have reached their bound, and
    while the kill switch is engaged. *)
Lemma red_when (self : Sentinel) (c : Checks) :
  (max_consecutive_failures self <= failures c)%Z \/
  kill_switch c = CRITICAL ->
  fst (_determine_health_state self c) = RED.
Proof.
  intros Hwhy. unfold _determine_health_state, names_with.
  rewrite SentinelFacts.nonempty_names.
  destruct (existsb is_critical (map snd (named c))) eqn:Hcrit;
    [reflexivity|].
  destruct Hwhy as [Hfail|Hkill].
  - apply Z.leb_le in Hfail. now rewrite Hfail.
  - cbn in Hcrit. rewrite Hkill in Hcrit. cbn in Hcrit.
    now rewrite !orb_true_r in Hcrit.
Qed.

Lemma should_trade_parts (self : Sentinel) (now : Time.datetime)
    (seen : Observed) (log : list Health.Row) :
  snd (should_trade self now seen log)
  = let report := snd (check_health self now seen log) in
    if kill_switch_engaged self then
      (false, ("Kill switch: " ++ kill_reason self)%string)
    else if is_red (state report) then
      (false, ("System RED: " ++ reason report)%string)
    else
      match state report with
      | YELLOW => (true, ("Limited trading: " ++ reason report)%string)
      | _ => (true, "Normal operations")
      end.
Proof.
  unfold should_trade.
  destruct (check_health_parts self now seen log)
    as (_ & _ & Hk & Hr & _).
  destruct (check_health self now seen log) as [[self' log'] report].
  cbn [fst snd] in *. now rewrite Hk, Hr.
Qed.

(** X26: The counter of consecutive failures is never reset: after any
    series of health checks it is the counter before plus the number
    of checks whose quick reconciliation did not answer [True], failed
    checks that are not consecutive included, and the bound is as
    before.  So once the counter has reached the bound, every later
    health report is RED and [should_trade] denies, whatever is
    observed. *)
Theorem failures_latch (self : Sentinel)
    (steps : list (Time.datetime * Observed)) (log : list Health.Row) :
  let self' := fst (fst (health_run self steps log)) in
  max_consecutive_failures self' = max_consecutive_failures self /\
  consecutive_failures self'
  = (consecutive_failures self
     + Z.of_nat (List.length (filter failed steps)))%Z /\
  ((max_consecutive_failures self <= consecutive_failures self)%Z ->
   Forall (fun report => state report = RED)
     (snd (health_run self steps log)) /\
   forall now seen log',
     fst (snd (should_trade self' now seen log')) = false).
Proof.
  cbv zeta.
  assert (Hrun : forall steps self log,
            max_consecutive_failures (fst (fst (health_run self steps log)))
            = max_consecutive_failures self /\
            consecutive_failures (fst (fst (health_run self steps log)))
            = (consecutive_failures self
               + Z.of_nat (List.length (filter failed steps)))%Z /\
            ((max_consecutive_failures self <= consecutive_failures self)%Z
             -> Forall (fun report => state report = RED)
                  (snd (health_run self steps log)))).
  { clear. induction steps as [|[now seen] steps IH]; intros self log.
    - cbn. repeat split; [lia|constructor].
    - cbn [health_run].
      destruct (check_health_parts self now seen log)
        as (Hmax & Hcount & _ & _ & _ & Hfail & _ & Hstate).
      destruct (check_health self now seen log) as [[self1 log1] report].
      cbn [fst snd] in *.
      specialize (IH self1 log1).
      destruct (health_run self1 steps log1) as [[self2 log2] reports].
      cbn [fst snd] in *. destruct IH as (IHmax & IHcount & IHred).
      split; [congruence|]. split.
      + rewrite IHcount, Hcount. cbn [filter].
        destruct (failed (now, seen)); cbn [List.length]; lia.
      + intros Hreached. constructor.
        * rewrite Hstate. apply red_when. left.
          rewrite Hfail, Hmax, Hcount.
          destruct (failed (now, seen)); lia.
        * apply IHred. rewrite Hmax, Hcount.
          destruct (failed (now, seen)); lia. }
  destruct (Hrun steps self log) as (Hmax & Hcount & Hred).
  split; [exact Hmax|]. split; [exact Hcount|].
  intros Hreached. split; [now apply Hred|].
  intros now seen log'. rewrite SentinelFacts.should_trade_denies.
  destruct (check_health_parts
              (fst (fst (health_run self steps log))) now seen log')
    as (Hmax' & Hcount' & _ & _ & _ & Hfail' & _ & Hstate').
  rewrite Hstate', red_when; [reflexivity|]. left.
  rewrite Hfail', Hmax', Hcount', Hmax, Hcount.
  destruct (failed (now, seen)); lia.
Qed.

Lemma failures_latch_witness :
  let broken := {| errors_seen := 0; quick_check := Some false;
                   regime := "BULL" |} in
  let self := fst (fst (health_run (init t0)
                          [(t0, broken); (t0, calm); (t0, broken);
                           (t0, calm); (t0, broken)] [])) in
  consecutive_failures self = 3%Z /\
  Forall (fun report => state report = RED)
    (snd (health_run self [(t0, calm); (t0, calm)] [])) /\
  fst (snd (should_trade self t0 calm [])) = false.
Proof.
  intros broken self.
  assert (Hcount : consecutive_failures self = 3%Z)
    by (vm_compute; reflexivity).
  split; [exact Hcount|].
  destruct (failures_latch self [(t0, calm); (t0, calm)] [])
    as (_ & _ & Hlatch).
  destruct Hlatch as [Hred Hdeny]; [vm_compute; discriminate|].
  split; [exact Hred|].
  destruct (failures_latch self [] []) as (_ & _ & Hnow).
  apply Hnow. vm_compute. discriminate.
Defined.

(** X27: The kill switch holds until it is released: once engaged, with a
    reason, every health report of any series of checks is RED, the
    switch and its reason are as engaged afterwards, and
    [should_trade] denies with that reason; after
    [release_kill_switch] the switch is off and its check is OK. *)
Theorem kill_switch_holds (why : string) (self : Sentinel)
    (steps : list (Time.datetime * Observed)) (log : list Health.Row) :
  let run := health_run (engage_kill_switch why self) steps log in
  let self' := fst (fst run) in
  Forall (fun report => state report = RED) (snd run) /\
  kill_switch_engaged self' = true /\ kill_reason self' = why /\
  (forall now seen log',
     snd (should_trade self' now seen log')
     = (false, ("Kill switch: " ++ why)%string)) /\
  kill_switch_engaged (release_kill_switch self') = false /\
  _check_kill_switch (release_kill_switch self') = OK.
Proof.
  cbv zeta.
  assert (Hrun : forall steps self log,
            kill_switch_engaged self = true ->
            Forall (fun report => state report = RED)
              (snd (health_run self steps log)) /\
            kill_switch_engaged (fst (fst (health_run self steps log)))
            = true /\
            kill_reason (fst (fst (health_run self steps log)))
            = kill_reason self).
  { clear. induction steps as [|[now seen] steps IH]; intros self log Hon.
    - cbn. repeat split; [constructor|exact Hon].
    - cbn [health_run].
      destruct (check_health_parts self now seen log)
        as (_ & _ & Hk & Hr & _ & _ & Hkill & Hstate).
      destruct (check_health self now seen log) as [[self1 log1] report].
      cbn [fst snd] in *. rewrite Hon in Hk, Hkill.
      specialize (IH self1 log1 Hk).
      destruct (health_run self1 steps log1) as [[self2 log2] reports].
      cbn [fst snd] in *. destruct IH as (IHred & IHk & IHr).
      split; [|split; congruence].
      constructor; [|exact IHred].
      rewrite Hstate. apply red_when. now right. }
  destruct (Hrun steps (engage_kill_switch why self) log eq_refl)
    as (Hred & Hk & Hr).
  cbn [engage_kill_switch with_kill_switch kill_reason] in Hr.
  split; [exact Hred|]. split; [exact Hk|]. split; [exact Hr|].
  split; [|split; reflexivity].
  intros now seen log'. rewrite should_trade_parts. cbv zeta.
  now rewrite Hk, Hr.
Qed.

End LatchFacts.

(** ** The tick: order and budget of the entries *)

Module CycleFacts.
Import Main MainFacts Scenario.

Lemma at_most_le (bad : Event -> bool) {A} (n m : nat) (p : Prog A) :
  at_most bad n p -> (n <= m)%nat -> at_most bad m p.
Proof.
  intros Hp. revert m.
  induction Hp as [n a|n X c k Hc _ IH|n X c k _ IH]; intros m Hle.
  - constructor.
  - apply at_most_skip; auto.
  - destruct m as [|m]; [lia|]. apply at_most_hit.
    intros x. apply IH. lia.
Qed.

Lemma at_most_seq (bad : Event -> bool) {A B} (a b : nat) (p : Prog A)
    (k : A -> Prog B) :
  at_most bad a p -> (forall x, at_most bad b (k x)) ->
  at_most bad (a + b) (seq p k).
Proof.
  intros Hp Hk.
  induction Hp as [n x|n X c k' Hc _ IH|n X c k' _ IH]; cbn [seq].
  - apply (at_most_le bad b); [apply Hk|lia].
  - apply at_most_skip; auto.
  - apply (at_most_hit bad (n + b)). exact IH.
Qed.

Lemma at_most_each (bad : Event -> bool) {A} (xs : list A)
    (body : A -> Prog unit) :
  (forall x, at_most bad 1 (body x)) ->
  at_most bad (List.length xs) (each xs body).
Proof.
  intros Hb. induction xs as [|x xs IH]; cbn [each List.length].
  - constructor.
  - apply (at_most_seq bad 1 (List.length xs)); auto.
Qed.

Lemma never_at_most (bad : Event -> bool) {A} (p : Prog A) :
  never bad p -> at_most bad 0 p.
Proof.
  intros Hp. induction Hp as [a|X c k Hc _ IH].
  - constructor.
  - now apply at_most_skip.
Qed.

(** The calls of the log are the trace. *)
Lemma log_trace {A S} (h : Handler S) (p : Prog A) :
  forall s, map call_of (log h p s) = trace h p s.
Proof.
  induction p as [a|X c k IH]; intros s; cbn [log trace]; [reflexivity|].
  destruct (h X c s) as [s' [x|]]; cbn [map]; [|reflexivity].
  now rewrite IH.
Qed.

Lemma at_most_log (bad : Event -> bool) {A S} (h : Handler S) (n : nat)
    (p : Prog A) :
  at_most bad n p ->
  forall s,
    (List.length (filter (fun st => bad (call_of st)) (log h p s))
     <= n)%nat.
Proof.
  intros Hp.
  induction Hp as [n a|n X c k Hc _ IH|n X c k _ IH]; intros s;
    cbn [log]; [cbn; lia| |].
  - destruct (h X c s) as [s' [x|]]; cbn [filter];
      change (call_of (step c (Some x))) with (event c) ||
      change (call_of (step c None)) with (event c);
      rewrite Hc; [apply IH|cbn; lia].
  - destruct (h X c s) as [s' [x|]]; cbn [filter].
    + pose proof (IH x s') as Hrest.
      destruct (bad _); cbn [List.length]; lia.
    + destruct (bad _); cbn [List.length]; lia.
Qed.

(** A call that is no gate closes no gate and answers no health. *)
Lemma not_a_gate (st : Step) :
  is_gate (call_of st) = false ->
  gate_closed st = false /\ health_of st = None.
Proof.
  destruct st as [X [c a]]. unfold is_gate, gate_closed, health_of.
  cbn [call_of projT1 projT2 fst].
  destruct c; try discriminate; intros _; split; reflexivity.
Qed.

Lemma no_gate_in_log {A S} (h : Handler S) (p : Prog A) (s : S) :
  never is_gate p ->
  existsb gate_closed (log h p s) = false /\
  ~ In (Some Sentinel.YELLOW) (map health_of (log h p s)).
Proof.
  intros Hp. pose proof (never_trace is_gate h p Hp s) as Hnone.
  rewrite <- log_trace in Hnone.
  induction (log h p s) as [|st l IH]; [split; [reflexivity|intros []]|].
  cbn [map existsb] in *. apply orb_false_iff in Hnone as [Hst Hl].
  destruct (not_a_gate st Hst) as [-> ->].
  destruct (IH Hl) as [-> Hno]. split; [reflexivity|].
  intros [Heq|Hin]; [discriminate|contradiction].
Qed.

(** One step through the text of a method. *)
Ltac count :=
  repeat first
    [ apply at_most_Done
    | apply at_most_skip; [reflexivity|intros]
    | apply at_most_hit; intros
    | match goal with
      | |- at_most _ _ (match ?x with _ => _ end) => destruct x
      end ].

Lemma entry_round_budget (signal : Signals.Signal) :
  at_most is_execute_entry 1 (entry_round signal).
Proof. unfold entry_round. count. Qed.

Lemma process_entries_budget (health_state : Sentinel.State) :
  at_most is_execute_entry
    (match health_state with Sentinel.GREEN => 3 | _ => 1 end)
    (_process_entries health_state).
Proof.
  unfold _process_entries. apply at_most_skip; [reflexivity|].
  intros signals. destruct signals as [|x signals]; [constructor|].
  set (sorted := Processor.order_by_confidence_desc (x :: signals)).
  eapply at_most_le.
  - apply at_most_each. apply entry_round_budget.
  - rewrite length_firstn. destruct health_state; lia.
Qed.

Lemma trading_part_budget (health_state : Sentinel.State) :
  at_most is_execute_entry
    (match health_state with
     | Sentinel.GREEN => 3
     | Sentinel.YELLOW => 1
     | Sentinel.RED => 0
     end) (trading_part health_state).
Proof.
  assert (H1 : never is_execute_entry _scan_tier1)
    by (unfold _scan_tier1; walk).
  assert (H2 : never is_execute_entry _scan_tier2)
    by (unfold _scan_tier2; walk).
  destruct health_state; cbn [trading_part].
  - apply (at_most_seq _ 0 3); [now apply never_at_most|]. intros _.
    apply (at_most_seq _ 0 3); [now apply never_at_most|]. intros _.
    apply (at_most_seq _ 3 0);
      [apply (process_entries_budget Sentinel.GREEN)|].
    intros _. count.
  - apply (at_most_seq _ 0 1); [now apply never_at_most|]. intros _.
    apply (at_most_seq _ 1 0);
      [apply (process_entries_budget Sentinel.YELLOW)|].
    intros _. count.
  - constructor.
Qed.

Lemma trading_part_no_gate (health_state : Sentinel.State) :
  never is_gate (trading_part health_state).
Proof.
  destruct health_state; cbn [trading_part];
    unfold _scan_tier1, _scan_tier2, _process_entries, entry_round; walk.
Qed.

(** The shape of a tick: either it makes no entry, or it has been
    through its six opening calls, each answered and none closing a
    gate, and goes on with the part that trades. *)
Lemma run_cycle_shape {S} (h : Handler S) (s : S) :
  entries (log h run_cycle s) = 0%nat \/
  exists why health stops exits forced recon s',
    log h run_cycle s
    = [ step sentinel_should_trade (Some (true, why));
        step sentinel_check_health (Some health);
        step monitor_check_stop_losses (Some stops);
        step monitor_check_strategy_exits (Some exits);
        step monitor_check_pre_close (Some forced);
        step reconciler_reconcile_all (Some recon) ]
      ++ log h (trading_part (Sentinel.state health)) s' /\
    Sentinel.is_red (Sentinel.state health) = false /\
    gate_closed (step reconciler_reconcile_all (Some recon)) = false.
Proof.
  unfold run_cycle. cbn [log].
  destruct (h _ sentinel_should_trade s) as [s1 [[[|] why]|]];
    [|now left|now left].
  cbn [negb log].
  destruct (h _ sentinel_check_health s1) as [s2 [health|]]; [|now left].
  cbn [seq _check_exits log].
  destruct (h _ monitor_check_stop_losses s2) as [s3 [stops|]];
    [|now left].
  cbn [seq log].
  destruct (h _ monitor_check_strategy_exits s3) as [s4 [exits|]];
    [|now left].
  cbn [seq log].
  destruct (h _ monitor_check_pre_close s4) as [s5 [forced|]];
    [|now left].
  cbn [seq log].
  destruct (h _ reconciler_reconcile_all s5) as [s6 [recon|]];
    [|now left].
  destruct (String.eqb (Reconciler.status recon) "CRITICAL"
            || String.eqb (Reconciler.status recon) "RED") eqn:Hrecon;
    [now left|].
  destruct (Sentinel.state health) eqn:Hstate; [| |now left];
    right; exists why, health, stops, exits, forced, recon, s6;
    rewrite Hstate; (split; [reflexivity|]); (split; [reflexivity|]);
    exact Hrecon.
Qed.

Lemma entries_app (l m : list Step) :
  entries (l ++ m) = (entries l + entries m)%nat.
Proof. unfold entries. now rewrite filter_app, length_app. Qed.

(** X28: The entry budget of a tick: whatever the collaborators answer, a
    tick sends at most three entry orders, at most one when its health
    check answered YELLOW, and none when [should_trade] answered
    [False], the health check answered RED or the reconciliation
    answered CRITICAL. *)
Theorem entry_budget {S} (h : Handler S) (s : S) :
  let l := log h run_cycle s in
  (entries l <= 3)%nat /\
  (In (Some Sentinel.YELLOW) (map health_of l) -> (entries l <= 1)%nat) /\
  (existsb gate_closed l = true -> entries l = 0%nat).
Proof.
  cbv zeta.
  destruct (run_cycle_shape h s)
    as [Hnone|(why & health & stops & exits & forced & recon & s'
               & Hlog & Hred & Hrecon)].
  - rewrite Hnone. repeat split; lia.
  - pose proof (at_most_log is_execute_entry h _ _
                  (trading_part_budget (Sentinel.state health)) s')
      as Hbudget.
    fold (entries (log h (trading_part (Sentinel.state health)) s'))
      in Hbudget.
    destruct (no_gate_in_log h _ s'
                (trading_part_no_gate (Sentinel.state health)))
      as [Hopen Hnoyellow].
    rewrite Hlog, entries_app.
    change (entries [_; _; _; _; _; _]) with 0%nat. cbn [Nat.add].
    split; [destruct (Sentinel.state health); lia|]. split.
    + rewrite map_app. intros Hin. apply in_app_or in Hin as [Hin|Hin];
        [|contradiction].
      cbn in Hin.
      destruct Hin as [Hin|[Hin|[Hin|[Hin|[Hin|[Hin|[]]]]]]];
        try discriminate.
      destruct (Sentinel.state health); try discriminate. exact Hbudget.
    + rewrite existsb_app, Hopen, orb_false_r.
      cbn [existsb]. rewrite Hrecon.
      cbn. rewrite Hred. discriminate.
Qed.

(** X29: The order of a tick: a tick that sends an entry order has first
    asked [should_trade], run the health check, [check_stop_losses],
    [check_strategy_exits] and [check_pre_close], and reconciled, in
    this order, and each of these calls has returned. *)
Theorem entries_come_last {S} (h : Handler S) (s : S) :
  entries (log h run_cycle s) <> 0%nat ->
  map call_of (firstn 6 (log h run_cycle s))
  = [ event sentinel_should_trade; event sentinel_check_health;
      event monitor_check_stop_losses;
      event monitor_check_strategy_exits;
      event monitor_check_pre_close; event reconciler_reconcile_all ] /\
  Forall (fun st => snd (projT2 st) <> None)
    (firstn 6 (log h run_cycle s)) /\
  entries (firstn 6 (log h run_cycle s)) = 0%nat.
Proof.
  intros Hsome.
  destruct (run_cycle_shape h s)
    as [Hnone|(why & health & stops & exits & forced & recon & s'
               & Hlog & _)]; [contradiction|].
  rewrite Hlog. cbn [firstn app]. split; [reflexivity|].
  split; [|reflexivity].
  repeat constructor; discriminate.
Qed.

Lemma entry_budget_witness :
  let l := log (busy six_errors) run_cycle tt in
  In (Some Sentinel.YELLOW) (map health_of l) /\ (entries l <= 1)%nat.
Proof.
  intro l.
  assert (Hyellow : In (Some Sentinel.YELLOW) (map health_of l))
    by (vm_compute; right; left; reflexivity).
  split; [exact Hyellow|].
  exact (proj1 (proj2 (entry_budget (busy six_errors) tt)) Hyellow).
Defined.

Lemma entries_come_last_witness :
  let l := log (busy calm) run_cycle tt in
  entries l = 2%nat /\ entries (firstn 6 l) = 0%nat.
Proof.
  intro l. split; [vm_compute; reflexivity|].
  refine (proj2 (proj2 (entries_come_last (busy calm) tt _))).
  vm_compute. discriminate.
Defined.

End CycleFacts.

(** ** What an approval carries *)

(*APPROVAL*)

(** ** From unrealized to realized *)

Module RealizedFacts.
Import Broker Executor Monitor Scenario.



Section WithOutside.
Context {E : Type} `{Outside E}.


End WithOutside.


End RealizedFacts.

(** ** Healing converges *)

Module HealingFacts.
Import Broker Executor Reconciler Scenario.

Lemma heal_row_fields (items : list PriceItem) (r : Positions.Position) :
  Positions.ticker (heal_row items r) = Positions.ticker r /\
  Positions.quantity (heal_row items r) = Positions.quantity r /\
  Positions.status (heal_row items r) = Positions.status r.
Proof.
  revert r. induction items as [|item items IH]; intros r;
    [repeat split|].
  unfold heal_row in *. cbn [fold_left].
  destruct (IH (if Positions.has_ticket (mp_local_id item) r
                then Positions.set_entry_price (mp_alpaca_price item) r
                else r)) as (-> & -> & ->).
  destruct (Positions.has_ticket (mp_local_id item) r); repeat split.
Qed.

Lemma open_after_heal (items : list PriceItem) (t : Positions.table) :
  filter Positions.is_open (map (heal_row items) t)
  = map (heal_row items) (filter Positions.is_open t).
Proof.
  induction t as [|x t IH]; [reflexivity|]. cbn [map filter].
  unfold Positions.is_open at 1.
  rewrite (proj2 (proj2 (heal_row_fields items x))).
  fold (Positions.is_open x). rewrite IH.
  now destruct (Positions.is_open x).
Qed.

(** The item of a row whose price differs is in the list of the run. *)
Lemma classify_all_items (self : Reconciler) (alpaca : Py.dict Held)
    (local : list Positions.Position) :
  forall r0 r, classify_all self alpaca local r0 = Some r ->
  forall l item, In l local ->
    classify self alpaca l = Some (MismatchPrice item) ->
    In item (mismatch_price r).
Proof.
  induction local as [|x local IH]; intros r0 r; cbn [classify_all];
    [intros _ l item []|].
  destruct (classify self alpaca x) as [c|] eqn:Hc; [|discriminate].
  intros Hrest l item [<-|Hl] Hitem; [|now apply (IH _ _ Hrest l)].
  rewrite Hc in Hitem. injection Hitem as ->.
  destruct (LedgerFacts.classify_all_grows _ _ _ _ _ Hrest)
    as (_ & _ & d & _ & _ & ->).
  cbn [add mismatch_price]. apply in_or_app. left.
  apply in_or_app. right. now left.
Qed.

(** Without a quantity mismatch and a row missing at the broker, each
    local row is matched or differs in price. *)
Lemma classify_all_kinds (self : Reconciler) (alpaca : Py.dict Held)
    (local : list Positions.Position) :
  forall r0 r, classify_all self alpaca local r0 = Some r ->
  mismatch_quantity r = [] -> missing_in_alpaca r = [] ->
  forall l, In l local ->
    (exists tk, classify self alpaca l = Some (Matched tk)) \/
    (exists item, classify self alpaca l = Some (MismatchPrice item)).
Proof.
  induction local as [|x local IH]; intros r0 r; cbn [classify_all];
    [intros _ _ _ l []|].
  destruct (classify self alpaca x) as [c|] eqn:Hc; [|discriminate].
  intros Hrest Hq Ha l [<-|Hl]; [|now apply (IH _ _ Hrest)].
  destruct (LedgerFacts.classify_all_grows _ _ _ _ _ Hrest)
    as (a & b & _ & Eq & Ea & _).
  rewrite Hq in Eq. rewrite Ha in Ea. symmetry in Eq, Ea.
  apply app_eq_nil in Eq as [Eq _], Ea as [Ea _].
  rewrite Hc.
  destruct c; cbn [add mismatch_quantity missing_in_alpaca] in Eq, Ea;
    eauto;
    try (now apply app_eq_nil in Eq as [_ Eq]);
    try (now apply app_eq_nil in Ea as [_ Ea]).
Qed.

(** Rows that all match leave the four lists as they were. *)
Lemma classify_all_calm (self : Reconciler) (alpaca : Py.dict Held)
    (local : list Positions.Position) :
  (forall l, In l local ->
     exists tk, classify self alpaca l = Some (Matched tk)) ->
  forall r0, exists r,
    classify_all self alpaca local r0 = Some r /\
    mismatch_quantity r = mismatch_quantity r0 /\
    missing_in_alpaca r = missing_in_alpaca r0 /\
    missing_in_local r = missing_in_local r0 /\
    mismatch_price r = mismatch_price r0.
Proof.
  induction local as [|x local IH]; intros Hall r0; cbn [classify_all];
    [exists r0; repeat split|].
  destruct (Hall x (or_introl eq_refl)) as [tk ->].
  destruct (IH (fun l Hl => Hall l (or_intror Hl)) (add (Matched tk) r0))
    as (r & Hr & Hq & Ha & Hl & Hp).
  exists r. split; [exact Hr|]. now rewrite Hq, Ha, Hl, Hp.
Qed.

Lemma missing_after_heal (items : list PriceItem)
    (alpaca : Py.dict Held) (local : list Positions.Position) :
  find_missing_in_local alpaca (map (heal_row items) local)
  = find_missing_in_local alpaca local.
Proof.
  unfold find_missing_in_local. apply flat_map_ext. intros kv.
  replace (existsb (fun l => String.eqb (Positions.ticker l) (fst kv))
             (map (heal_row items) local))
    with (existsb (fun l => String.eqb (Positions.ticker l) (fst kv))
            local); [reflexivity|].
  induction local as [|x local IH]; [reflexivity|]. cbn [map existsb].
  now rewrite IH, (proj1 (heal_row_fields items x)).
Qed.

Lemma matched_ticker (self : Reconciler) (alpaca : Py.dict Held)
    (l : Positions.Position) (tk : string) :
  classify self alpaca l = Some (Matched tk) -> tk = Positions.ticker l.
Proof.
  unfold classify.
  destruct (Py.get _ alpaca); [|discriminate].
  destruct (Qgtb _ (quantity_tolerance self)); [discriminate|].
  destruct (Qeq_bool _ 0); [discriminate|].
  destruct (Qgtb _ (price_tolerance_pct self)); [discriminate|].
  now intros [= <-].
Qed.

Lemma no_gap (a : Q) : ~ a == 0 -> py_abs (a - a) / a * 100 == 0.
Proof.
  intros Ha. unfold py_abs.
  destruct (Qltb (a - a) 0); field; exact Ha.
Qed.

(** After the heal every local row matches. *)
Lemma healed_row_matches (self : Reconciler) (alpaca : Py.dict Held)
    (local : list Positions.Position) (r : Results)
    (l : Positions.Position) :
  NoDup (map Positions.ticket_id local) ->
  0 <= price_tolerance_pct self ->
  (forall tk h, Py.get tk alpaca = Some h -> ~ avg_entry_price h == 0) ->
  classify_all self alpaca local empty = Some r ->
  mismatch_quantity r = [] -> missing_in_alpaca r = [] ->
  In l local ->
  classify self alpaca (heal_row (mismatch_price r) l)
  = Some (Matched (Positions.ticker l)).
Proof.
  intros Hnd Htol Hprices Hr Hq Ha Hl.
  pose proof (ReconcilerFacts.classify_all_price_items self alpaca _ _ _ Hr)
    as Hids.
  cbn [empty mismatch_price map app] in Hids.
  destruct (classify_all_kinds self alpaca _ _ _ Hr Hq Ha l Hl)
    as [[tk Hm]|[item Hi]].
  - rewrite ReconcilerFacts.heal_row_other.
    + now rewrite Hm, (matched_ticker _ _ _ _ Hm).
    + intros item Hin Heq.
      assert (Hmem : In (mp_local_id item)
                        (map mp_local_id (mismatch_price r)))
        by now apply in_map.
      rewrite Hids in Hmem. apply in_map_iff in Hmem as (l' & Hid & Hl').
      apply filter_In in Hl' as [Hl' Hmis].
      assert (l' = l)
        by (apply (ClosingFacts.ticket_unique local); congruence).
      subst l'. unfold mismatched in Hmis. now rewrite Hm in Hmis.
  - pose proof (classify_all_items self alpaca _ _ _ Hr l item Hl Hi)
      as Hin.
    unfold classify in Hi.
    destruct (Py.get (Positions.ticker l) alpaca) as [h|] eqn:Hget;
      [|discriminate].
    destruct (Qgtb _ (quantity_tolerance self)) eqn:Hqty; [discriminate|].
    destruct (Qeq_bool _ 0); [discriminate|].
    destruct (Qgtb _ (price_tolerance_pct self)); [|discriminate].
    injection Hi as <-.
    assert (Hprice : Positions.entry_price
                       (heal_row (mismatch_price r) l)
                     = avg_entry_price h).
    { rewrite (ReconcilerFacts.heal_row_price (mismatch_price r) _ l
                 ltac:(rewrite Hids;
                       now apply ReconcilerFacts.distinct_tickets_filter)
                 Hin eq_refl).
      reflexivity. }
    destruct (heal_row_fields (mismatch_price r) l) as (Ht & Hquantity & _).
    unfold classify. rewrite Ht, Hquantity, Hget, Hqty, Hprice.
    pose proof (Hprices _ _ Hget) as Hnz.
    assert (Hz : Qeq_bool (avg_entry_price h) 0 = false).
    { destruct (Qeq_bool _ 0) eqn:Hz; [|reflexivity].
      now apply Qeq_bool_iff in Hz. }
    rewrite Hz.
    assert (Hgap : Qgtb (py_abs (avg_entry_price h - avg_entry_price h)
                         / avg_entry_price h * 100)
                        (price_tolerance_pct self) = false).
    { apply Qltb_ge. now rewrite (no_gap _ Hnz). }
    now rewrite Hgap.
Qed.

Lemma degraded_status (results : Results) :
  fst (_determine_status results) = "DEGRADED" ->
  mismatch_quantity results = [] /\ missing_in_alpaca results = [] /\
  missing_in_local results = [].
Proof.
  rewrite ReconcilerFacts.status_of.
  destruct (mismatch_quantity results); [|discriminate].
  destruct (missing_in_alpaca results); [|discriminate].
  destruct (missing_in_local results); [|discriminate].
  repeat split.
Qed.

Section WithOutside.
Context {E : Type} `{Outside E}.

(** X25: Healing converges: when [reconcile_all] returns DEGRADED on a
    table with distinct ticket ids, it has written the broker's prices
    into the rows that differed, and the next run, for the same
    listing of the broker, returns OK and changes no position - given
    a price tolerance that is not negative and broker prices that are
    not zero. *)
Theorem healed_prices_reconcile (self : Reconciler)
    (now now2 : Time.datetime) (w : World E) (report : Report) :
  NoDup (map Positions.ticket_id (positions (db w))) ->
  0 <= price_tolerance_pct self ->
  (forall tk h,
     Py.get tk (alpaca_dict (snd (get_all_positions (outside w)))) = Some h ->
     ~ avg_entry_price h == 0) ->
  snd (reconcile_all self now w) = Eff.Return report ->
  status report = "DEGRADED" ->
  let w1 := fst (reconcile_all self now w) in
  snd (get_all_positions (outside w1))
  = snd (get_all_positions (outside w)) ->
  exists report2,
    snd (reconcile_all self now2 w1) = Eff.Return report2 /\
    status report2 = "OK" /\
    positions (db (fst (reconcile_all self now2 w1))) = positions (db w1).
Proof.
  intros Hnd Htol Hprices Hrun Hdeg w1 Hsame.
  set (alpaca := alpaca_dict (snd (get_all_positions (outside w)))) in *.
  set (local := filter Positions.is_open (positions (db w))).
  assert (Hfirst :
    exists r,
      classify_all self alpaca local empty = Some r /\
      mismatch_quantity r = [] /\ missing_in_alpaca r = [] /\
      find_missing_in_local alpaca local = [] /\
      positions (db w1) = map (heal_row (mismatch_price r))
                            (positions (db w))).
  { subst w1. rewrite ReconcilerFacts.reconcile_all_run in *.
    fold alpaca local in Hrun |- *. unfold survey in *.
    destruct (classify_all self alpaca local empty) as [r|];
      [|discriminate].
    cbv zeta in *.
    set (results := with_missing_in_local _ r) in *.
    assert (Hst : fst (_determine_status results) = "DEGRADED").
    { destruct (heals _); [destruct (add_missing _ _ _)|];
        cbn [snd] in Hrun; try discriminate;
        injection Hrun as <-; exact Hdeg. }
    destruct (degraded_status results Hst) as (Hq & Ha & Hl).
    rewrite Hst. change (heals "DEGRADED") with true.
    rewrite Hl. cbn [add_missing fst].
    exists r. split; [reflexivity|].
    split; [exact Hq|]. split; [exact Ha|]. split; [exact Hl|].
    cbn [db with_db logged with_health_state with_positions positions
         answered].
    apply ReconcilerFacts.fix_prices_map. }
  destruct Hfirst as (r & Hr & Hq & Ha & Hl & Hpos).
  rewrite ReconcilerFacts.reconcile_all_run.
  rewrite Hsame. fold alpaca. rewrite Hpos, open_after_heal. fold local.
  unfold survey.
  destruct (classify_all_calm self alpaca
              (map (heal_row (mismatch_price r)) local)) with (r0 := empty)
    as (r2 & -> & Hq2 & Ha2 & _ & Hp2).
  { intros l1 Hl1. apply in_map_iff in Hl1 as (l & <- & Hl0).
    exists (Positions.ticker l).
    apply (healed_row_matches self alpaca local r l); try assumption.
    now apply ReconcilerFacts.distinct_tickets_filter. }
  rewrite missing_after_heal, Hl. cbv zeta.
  set (results2 := with_missing_in_local [] r2).
  assert (Hok : fst (_determine_status results2) = "OK").
  { rewrite ReconcilerFacts.status_of. subst results2.
    cbn [with_missing_in_local mismatch_quantity missing_in_alpaca
         missing_in_local mismatch_price].
    now rewrite Hq2, Ha2, Hp2. }
  rewrite Hok. change (heals "OK") with false.
  eexists. split; [reflexivity|]. split; [reflexivity|].
  cbn. now rewrite Hpos.
Qed.

End WithOutside.

Lemma healed_prices_reconcile_witness :
  let w := {| db := db after_entry;
              outside :=
                {| submitted := [];
                   held := [ {| held_symbol := "ACME"; held_qty := 19;
                                avg_entry_price := 1050 # 100;
                                held_current_price := 98 # 10;
                                unrealized_pl := 0 |} ];
                   book := []; quote := 98 # 10 |};
              pending_orders := [] |} in
  let w1 := fst (reconcile_all default t0 w) in
  map Positions.entry_price (positions (db w1)) = [1050 # 100] /\
  exists report2,
    snd (reconcile_all default (t0 + Time.minutes 5)%Z w1)
    = Eff.Return report2 /\
    status report2 = "OK".
Proof.
  intros w w1. split; [vm_compute; reflexivity|].
  destruct (healed_prices_reconcile default t0 (t0 + Time.minutes 5)%Z w
              {| status := "DEGRADED";
                 message := "Price mismatch for 1 symbols (within tolerance)";
                 results :=
                   {| matched := [];
                      mismatch_price :=
                        [ {| mp_ticker := "ACME";
                             local_price := 1021 # 100;
                             mp_alpaca_price := 1050 # 100;
                             diff_pct :=
                               py_abs ((1021 # 100) - (1050 # 100))
                               / (1021 # 100) * 100;
                             mp_local_id := "TKT-0A1B2C3D" |} ];
                      mismatch_quantity := [];
                      missing_in_alpaca := [];
                      missing_in_local := [] |} |})
    as (report2 & Hrun2 & Hok & _).
  - repeat constructor. cbn. tauto.
  - vm_compute. discriminate.
  - intros tk h Hget. cbn in Hget. unfold Py.get, Py.has_key in Hget.
    cbn [find fst] in Hget.
    destruct (String.eqb "ACME" tk); [|discriminate].
    injection Hget as <-. vm_compute. discriminate.
  - reflexivity.
  - reflexivity.
  - reflexivity.
  - exists report2. split; assumption.
Defined.

End HealingFacts.
